(** * gr-fhss_utils: the center-frequency estimator block [cf_estimate]

    A shallow embedding of [lib/cf_estimate_impl.cc].

    Numbers are modelled as the code has them:
    - C++ [double] is IEEE-754 binary64: Rocq's primitive [float], whose
      operations are specified by [FloatAxioms] against [SpecFloat];
    - C++ [float] is IEEE-754 binary32: a [spec_float] computed with the
      [SpecFloat] operations at precision 24 and maximal exponent 128;
    - [size_t] and [int] values that the code keeps small are [Z] or [nat].

    Calls into libm, FFTW and GNU Radio's rotator are parameters of the
    model ([Section Block]); PMT values are a small inductive type, with the
    metadata dictionary as a finite map. *)

From Stdlib Require Import ZArith QArith Floats Lia List Bool.
From stdpp Require Import base option list gmap strings.
Import ListNotations.

Local Open Scope Z_scope.

(** ** Numbers *)

Abbreviation double := float.

(** binary32, the C++ [float]. *)
Module F32.
Definition prec32 : Z := 24.
Definition emax32 : Z := 128.

Definition add := SFadd prec32 emax32.
Definition sub := SFsub prec32 emax32.
Definition mul := SFmul prec32 emax32.
Definition div := SFdiv prec32 emax32.
Definition sqrt := SFsqrt prec32 emax32.
Definition opp := SFopp.
Definition abs := SFabs.
Definition ltb := SFltb.

Definition zero : spec_float := S754_zero false.
Definition one : spec_float := S754_finite false 8388608 (-23).
Definition two : spec_float := S754_finite false 8388608 (-22).

(** Conversion [double -> float]: round to nearest even in binary32. *)
Definition of_double (x : double) : spec_float :=
  match Prim2SF x with
  | S754_finite s m e => binary_round prec32 emax32 s m e
  | y => y
  end.

(** Promotion [float -> double]: exact. *)
Definition to_double (x : spec_float) : double := SF2Prim x.

(** Conversion [int -> float]. *)
Definition of_Z (z : Z) : spec_float := binary_normalize prec32 emax32 z 0 false.

Definition is_nan (x : spec_float) : bool :=
  match x with S754_nan => true | _ => false end.

Definition is_zero (x : spec_float) : bool :=
  match x with S754_zero _ => true | _ => false end.

Definition is_finite (x : spec_float) : bool :=
  match x with S754_zero _ | S754_finite _ _ _ => true | _ => false end.
End F32.

Abbreviation float32 := spec_float.

(** [std::complex<float>]. *)
Definition gr_complex : Type := float32 * float32.

(** Conversion [size_t -> double] (exact below [2^53]; sizes stay below
    [2^63]). *)
Definition double_of_Z (z : Z) : double := of_uint63 (Uint63.of_Z z).
Definition double_of_nat (n : nat) : double := double_of_Z (Z.of_nat n).

Definition M_PI : double := 0x1.921fb54442d18p+1%float.

(** Classification of a [double] through its specification. *)
Definition is_nan64 (x : double) : bool := F32.is_nan (Prim2SF x).
Definition is_zero64 (x : double) : bool := F32.is_zero (Prim2SF x).

(** ** Outcomes

    A run of a function either completes, or leaves through a PMT
    [wrong_type] exception, or has no defined behaviour in C++ (an index
    past the end of a vector, a floating value converted to an integer type
    that cannot hold it). *)
Inductive error : Type :=
  | pmt_wrong_type
  | undefined_behaviour.

Inductive res (A : Type) : Type :=
  | Ok (a : A)
  | Err (e : error).
Arguments Ok {A} a.
Arguments Err {A} e.

Definition res_bind {A B} (m : res A) (k : A -> res B) : res B :=
  match m with
  | Ok a => k a
  | Err e => Err e
  end.

Notation "'let*' x ':=' m 'in' k" := (res_bind m (fun x => k))
  (at level 10, x pattern, m at level 100, k at level 200).

(** ** Constants of the block *)

Definition MAX_FFT_POWER : Z := 8.
Definition MIN_FFT_POWER : Z := 5.
Definition MIN_NFFTS : Z := 4.

(** [enum cf_method], as the Python binding lists it. *)
Definition RMS : Z := 0.
Definition HALF_POWER : Z := 1.
Definition COERCE : Z := 2.

(** ** Center frequency estimation methods *)

(** [total += p] with a [double] total and a [float] bin. *)
Definition add_bin (total : double) (p : float32) : double :=
  (total + F32.to_double p)%float.

(** The loop [for (auto& p : mags2) energy += p;] with [double energy]. *)
Definition energy_of (mags2 : list float32) : double :=
  fold_left add_bin mags2 0%float.

(** The running total after the first [k] bins. *)
Definition running_total_upto (mags2 : list float32) (k : nat) : double :=
  energy_of (firstn k mags2).

(** State of the scan of [half_power] when its loop ends. *)
Record scan_state : Type := {
  scan_i : nat;                (* loop counter: the number of bodies run *)
  scan_running_total : double;
  scan_half_power_idx : nat
}.

(** The loop
    [for (size_t i = 0; running_total < half_power; i++)
       { running_total += mags2[i]; half_power_idx = i; }]
    over [rest], the bins from index [i] on; reading [mags2[i]] past the end
    is undefined. *)
Fixpoint half_power_scan (half_power running_total : double)
    (i half_power_idx : nat) (rest : list float32) : res scan_state :=
  if (running_total <? half_power)%float then
    match rest with
    | [] => Err undefined_behaviour
    | p :: rest' =>
        half_power_scan half_power (add_bin running_total p) (S i) i rest'
    end
  else Ok {| scan_i := i; scan_running_total := running_total;
             scan_half_power_idx := half_power_idx |}.

(** The return expression of [half_power]:
    [((double)half_power_idx / (double)mags2.size()) - 0.5], as a [float]. *)
Definition half_power_offset (half_power_idx size : nat) : float32 :=
  F32.of_double (double_of_nat half_power_idx / double_of_nat size - 0.5)%float.

Definition half_power_loop (mags2 : list float32) : res scan_state :=
  let energy := energy_of mags2 in
  let half_power := (energy / 2)%float in
  half_power_scan half_power 0%float 0 0 mags2.

Definition half_power (mags2 : list float32) : res float32 :=
  let* st := half_power_loop mags2 in
  Ok (half_power_offset (scan_half_power_idx st) (length mags2)).

(** The loop [top_integral += freq_axis[i] * mags2[i]] of [rms]: the
    product is a [float] product, the sum a [double] sum. *)
Fixpoint rms_top_integral (top_integral : double)
    (mags2 freq_axis : list float32) : res double :=
  match mags2 with
  | [] => Ok top_integral
  | p :: mags2' =>
      match freq_axis with
      | [] => Err undefined_behaviour
      | f :: freq_axis' =>
          rms_top_integral (top_integral + F32.to_double (F32.mul f p))%float
            mags2' freq_axis'
      end
  end.

Definition rms (mags2 freq_axis : list float32)
    (center_frequency sample_rate : float32) : res float32 :=
  let energy := energy_of mags2 in
  let* top_integral := rms_top_integral 0%float mags2 freq_axis in
  Ok (F32.of_double
        ((top_integral / energy - F32.to_double center_frequency)
         / F32.to_double sample_rate)%float).

(** The search loop of [coerce_frequency] from index 1 on; [abs] is the
    [float] overload. *)
Fixpoint coerce_search (center_frequency dist channel_freq : float32)
    (rest : list float32) : float32 * float32 :=
  match rest with
  | [] => (dist, channel_freq)
  | c :: rest' =>
      let temp_dist := F32.abs (F32.sub c center_frequency) in
      if F32.ltb temp_dist dist
      then coerce_search center_frequency temp_dist c rest'
      else coerce_search center_frequency dist channel_freq rest'
  end.

Definition nearest_channel (d_channel_freqs : list float32)
    (center_frequency : float32) : option float32 :=
  match d_channel_freqs with
  | [] => None
  | c0 :: rest =>
      Some (snd (coerce_search center_frequency
                   (F32.abs (F32.sub c0 center_frequency)) c0 rest))
  end.

Definition coerce_frequency (d_channel_freqs : list float32)
    (center_frequency sample_rate : float32) : float32 :=
  match nearest_channel d_channel_freqs center_frequency with
  | None => F32.zero
  | Some channel_freq =>
      F32.div (F32.sub channel_freq center_frequency) sample_rate
  end.

(** ** PMT values

    The polymorphic message type of GNU Radio, restricted to what the block
    inspects.  A dictionary is a finite map from key names to values; the
    empty dictionary and [PMT_NIL] are the same PMT object. *)
#[warnings="-register-all"]
Inductive pmt : Type :=
  | PMT_NIL
  | PMT_SYMBOL (s : string)
  | PMT_DOUBLE (d : double)
  | PMT_C32VECTOR (v : list gr_complex)
  | PMT_DICT (d : gmap string pmt)
  | PMT_PAIR (car cdr : pmt).

Definition is_c32vector (p : pmt) : bool :=
  match p with PMT_C32VECTOR _ => true | _ => false end.

Definition as_dict (p : pmt) : option (gmap string pmt) :=
  match p with
  | PMT_NIL => Some ∅
  | PMT_DICT d => Some d
  | _ => None
  end.

Definition dict_has_key (d : gmap string pmt) (k : string) : bool :=
  match d !! k with Some _ => true | None => false end.

Definition dict_ref (d : gmap string pmt) (k : string) (not_found : pmt) : pmt :=
  default not_found (d !! k).

Definition dict_add (d : gmap string pmt) (k : string) (v : pmt)
  : gmap string pmt := <[k := v]> d.

(** [pmt::to_double] throws [wrong_type] on a value that is not a number. *)
Definition to_double (p : pmt) : res double :=
  match p with
  | PMT_DOUBLE d => Ok d
  | _ => Err pmt_wrong_type
  end.

(** Modelled from the spec: the [PMTCONSTSTR__*] key and port constants are
    declared in a header of the repository that is not among the sources;
    the names are the ones the specification gives to the metadata fields
    and to the two output channels. *)
Definition PMTCONSTSTR__center_frequency : string := "center_frequency".
Definition PMTCONSTSTR__sample_rate : string := "sample_rate".
Definition PMTCONSTSTR__relative_frequency : string := "relative_frequency".
Definition PMTCONSTSTR__noise_density : string := "noise_density".
Definition PMTCONSTSTR__bandwidth : string := "bandwidth".
Definition PMTCONSTSTR__pwr_db : string := "power_db".
Definition PMTCONSTSTR__snr_db : string := "snr_db".

Inductive port : Type :=
  | PMTCONSTSTR__out      (* the corrected channel *)
  | PMTCONSTSTR__debug.   (* the debug channel *)

Definition port_eqb (p q : port) : bool :=
  match p, q with
  | PMTCONSTSTR__out, PMTCONSTSTR__out => true
  | PMTCONSTSTR__debug, PMTCONSTSTR__debug => true
  | _, _ => false
  end.

(** The records published on port [p], in order. *)
Definition published_on (p : port) (msgs : list (port * pmt)) : list pmt :=
  map snd (filter (fun m => port_eqb (fst m) p = true) msgs).

(** ** FFT sizing policy *)

(** The value of [std::floor(log2(n * 1.0 / m))] for [0 < n] and [0 < m]:
    the greatest [k] with [2^k * m <= n]. *)
Definition floor_log2_ratio (n m : Z) : Z :=
  if m <=? n then Z.log2 (n / m) else - Z.log2_up ((m + n - 1) / n).

Record fft_plan : Type := {
  fftpower : Z;
  fftsize : Z;
  nffts : Z;
  copy_size : Z;
  offset : Z
}.

(** Lines 184-200 of [pdu_handler].  [log2(0)] is [-inf], and
    [floor(burst_size / 0.0)] is [+inf] when [fftsize] is 0: neither
    converts to an integer type. *)
Definition plan_fft (burst_size : Z) : res fft_plan :=
  if burst_size =? 0 then Err undefined_behaviour
  else
    let fftpower0 := floor_log2_ratio burst_size MIN_NFFTS in
    let fftpower := if fftpower0 >? MAX_FFT_POWER then MAX_FFT_POWER else fftpower0 in
    let fftsize := if 0 <=? fftpower then 2 ^ fftpower else 0 in
    if fftsize =? 0 then Err undefined_behaviour
    else
      let nffts := burst_size / fftsize in
      let copy_size := nffts * fftsize in
      let offset := Z.max 0 ((burst_size - copy_size) / 2) mod 2 ^ 32 in
      Ok {| fftpower := fftpower; fftsize := fftsize; nffts := nffts;
            copy_size := copy_size; offset := offset |}.

(** The condition of the warning printed at line 176. *)
Definition burst_for_ants (burst_size : Z) : bool :=
  burst_size <? 2 ^ MIN_FFT_POWER * MIN_NFFTS.

(** ** The block *)

(** [gr::blocks::rotator]: the oscillator's phase, its increment and the
    sample counter. *)
Record rotator : Type := {
  d_phase : gr_complex;
  d_phase_incr : gr_complex;
  d_counter : Z
}.

Definition set_phase (r : rotator) (phase : gr_complex) : rotator :=
  {| d_phase := phase; d_phase_incr := d_phase_incr r; d_counter := d_counter r |}.

Definition set_phase_incr (r : rotator) (incr : gr_complex) : rotator :=
  {| d_phase := d_phase r; d_phase_incr := incr; d_counter := d_counter r |}.

(** The members of the block that the constructor, the helpers and the
    handler use, with the types they are used at. *)
Record cf_estimate_impl : Type := {
  d_method : Z;
  d_channel_freqs : list float32;
  d_ffts : list Z;                    (* one engine per power, by its size *)
  d_windows : list (list float32);
  d_fft_mag2_gains : list float32;
  d_rotate : rotator;
  d_corrected_burst : list gr_complex
}.

Definition set_freqs (b : cf_estimate_impl) (channel_freqs : list float32)
  : cf_estimate_impl :=
  {| d_method := d_method b; d_channel_freqs := channel_freqs;
     d_ffts := d_ffts b; d_windows := d_windows b;
     d_fft_mag2_gains := d_fft_mag2_gains b; d_rotate := d_rotate b;
     d_corrected_burst := d_corrected_burst b |}.

Definition set_method (b : cf_estimate_impl) (method : Z) : cf_estimate_impl :=
  {| d_method := method; d_channel_freqs := d_channel_freqs b;
     d_ffts := d_ffts b; d_windows := d_windows b;
     d_fft_mag2_gains := d_fft_mag2_gains b; d_rotate := d_rotate b;
     d_corrected_burst := d_corrected_burst b |}.

(** [fft_cleanup]: the engines and the windows are released and their
    vectors cleared; the vector of gains is left as it is. *)
Definition fft_cleanup (b : cf_estimate_impl) : cf_estimate_impl :=
  {| d_method := d_method b; d_channel_freqs := d_channel_freqs b;
     d_ffts := []; d_windows := [];
     d_fft_mag2_gains := d_fft_mag2_gains b; d_rotate := d_rotate b;
     d_corrected_burst := d_corrected_burst b |}.

Definition czero : gr_complex := (F32.zero, F32.zero).
Definition cone : gr_complex := (F32.one, F32.zero).

(** [std::rotate(v.begin(), v.begin() + k, v.end())]. *)
Definition std_rotate {A} (k : nat) (v : list A) : list A :=
  skipn k v ++ firstn k v.

Section Block.

(** *** What the block calls and does not define *)

(** libm: [std::pow] and [log10] on [double], [log10] on [float] (the
    overload an unqualified call on a [float] argument selects),
    [std::exp] on [float] and on [std::complex<float>]. *)
Variable c_pow : double -> double -> double.
Variable c_log10 : double -> double.
Variable c_log10f : float32 -> float32.
Variable c_expf : float32 -> float32.
Variable c_cexpf : gr_complex -> gr_complex.

(** [gr::fft::fft_complex::execute] of the forward engine of a given
    size: from its input buffer to its output buffer. *)
Variable fft_execute : Z -> list gr_complex -> list gr_complex.

(** [gr::blocks::rotator::rotate]: one output sample and the oscillator
    after it. *)
Variable rotator_rotate : rotator -> gr_complex -> gr_complex * rotator.

(** *** BW and SNR estimation methods *)

(** The loop of [rms_bw]: [freq_axis[i] - center_frequency] is a [float]
    difference; [std::pow] and the product and sum are [double]. *)
Fixpoint rms_bw_top_integral (top_integral : double)
    (mags2 freq_axis : list float32) (center_frequency : float32)
    : res double :=
  match mags2 with
  | [] => Ok top_integral
  | p :: mags2' =>
      match freq_axis with
      | [] => Err undefined_behaviour
      | f :: freq_axis' =>
          rms_bw_top_integral
            (top_integral +
             c_pow (F32.to_double (F32.sub f center_frequency)) 2
             * F32.to_double p)%float
            mags2' freq_axis' center_frequency
      end
  end.

Definition rms_bw (mags2 freq_axis : list float32)
    (center_frequency : float32) : res float32 :=
  let energy := energy_of mags2 in
  let* top_integral :=
    rms_bw_top_integral 0%float mags2 freq_axis center_frequency in
  Ok (F32.of_double (PrimFloat.sqrt (top_integral / energy))).

Fixpoint estimate_pwr_sum (signal_power start_freq stop_freq : double)
    (mags2 freq_axis : list float32) : res double :=
  match mags2 with
  | [] => Ok signal_power
  | p :: mags2' =>
      match freq_axis with
      | [] => Err undefined_behaviour
      | f :: freq_axis' =>
          let signal_power' :=
            if (start_freq <? F32.to_double f)%float
               && (F32.to_double f <? stop_freq)%float
            then (signal_power + F32.to_double p)%float
            else signal_power in
          estimate_pwr_sum signal_power' start_freq stop_freq
            mags2' freq_axis'
      end
  end.

Definition estimate_pwr (mags2 freq_axis : list float32)
    (center_frequency bandwidth fft_mag2_gain : float32) : res float32 :=
  let start_freq :=
    (F32.to_double center_frequency - F32.to_double bandwidth / 2)%float in
  let stop_freq :=
    (F32.to_double center_frequency + F32.to_double bandwidth / 2)%float in
  let* signal_power :=
    estimate_pwr_sum 0%float start_freq stop_freq mags2 freq_axis in
  let signal_power := (signal_power / F32.to_double fft_mag2_gain)%float in
  Ok (F32.of_double (10 * c_log10 signal_power)%float).

(** *** The FFT bank *)

(** The Gaussian window of [fft_setup] for one size. *)
Definition gaussian_window (fftsize : Z) : list float32 :=
  let two_sigma_squared := F32.of_double (double_of_Z fftsize * 1 / 32)%float in
  let two_sigma_squared :=
    F32.mul two_sigma_squared (F32.mul (F32.of_Z 2) two_sigma_squared) in
  map (fun j =>
         let x := F32.add (F32.div (F32.of_Z (- fftsize + 1)) F32.two)
                          (F32.of_Z (Z.of_nat j)) in
         c_expf (F32.div (F32.mul (F32.opp x) x) two_sigma_squared))
      (seq 0 (Z.to_nat fftsize)).

(** [fftsize * fftsize * gain_rms * gain_rms], with [gain_rms] the RMS of
    the window weights. *)
Definition window_mag2_gain (fftsize : Z) (window : list float32) : float32 :=
  let gain_rms :=
    fold_left (fun g w => F32.add g (F32.mul w w)) window F32.zero in
  let gain_rms := F32.sqrt (F32.div gain_rms (F32.of_Z fftsize)) in
  F32.mul (F32.mul (F32.of_Z (fftsize * fftsize)) gain_rms) gain_rms.

(** One turn of the loop of [fft_setup], for power [i]. *)
Definition fft_setup_step (b : cf_estimate_impl) (i : Z) : cf_estimate_impl :=
  let fftsize := 2 ^ i in
  let window := gaussian_window fftsize in
  {| d_method := d_method b; d_channel_freqs := d_channel_freqs b;
     d_ffts := d_ffts b ++ [fftsize];
     d_windows := d_windows b ++ [window];
     d_fft_mag2_gains :=
       d_fft_mag2_gains b ++ [window_mag2_gain fftsize window];
     d_rotate := d_rotate b;
     d_corrected_burst := d_corrected_burst b |}.

(** [for (int i = d_ffts.size(); i <= power; i++)]. *)
Definition fft_setup (b : cf_estimate_impl) (power : Z) : cf_estimate_impl :=
  let first := Z.of_nat (length (d_ffts b)) in
  fold_left fft_setup_step
    (map (fun k => first + Z.of_nat k) (seq 0 (Z.to_nat (power + 1 - first))))
    b.

(** The constructor. *)
Definition make (method : Z) (channel_freqs : list float32) : cf_estimate_impl :=
  fft_setup
    {| d_method := method; d_channel_freqs := channel_freqs;
       d_ffts := []; d_windows := []; d_fft_mag2_gains := [];
       d_rotate := {| d_phase := cone; d_phase_incr := cone; d_counter := 0 |};
       d_corrected_burst := [] |}
    MAX_FFT_POWER.

(** *** Frequency analysis and PSD estimate *)

Definition mag_squared (c : gr_complex) : float32 :=
  F32.add (F32.mul (fst c) (fst c)) (F32.mul (snd c) (snd c)).

(** One turn of the loop at lines 207-229: segment [ii] is copied into
    the zeroed input buffer, windowed, transformed, and its squared
    magnitudes are added to [mags2]. *)
Definition psd_accumulate (engine : Z) (window : list float32) (p : fft_plan)
    (data : list gr_complex) (mags2 : list float32) (ii : nat)
    : list float32 :=
  let n := Z.to_nat (fftsize p) in
  let start := (Z.to_nat (offset p) + ii * n)%nat in
  let fft_in := resize n czero (firstn n (skipn start data)) in
  let fft_in :=
    resize n czero
      (zip_with (fun c w => (F32.mul (fst c) w, F32.mul (snd c) w))
                fft_in window) in
  let fft_out := resize n czero (fft_execute engine fft_in) in
  let fftm2 := map mag_squared fft_out in
  zip_with F32.add mags2 fftm2.

(** Lines 204-235: the averaged, DC-centered PSD. *)
Definition psd_estimate (engine : Z) (window : list float32) (p : fft_plan)
    (data : list gr_complex) : list float32 :=
  let n := Z.to_nat (fftsize p) in
  let mags2 :=
    fold_left (psd_accumulate engine window p data)
              (seq 0 (Z.to_nat (nffts p))) (replicate n F32.zero) in
  let scalar := F32.of_double (1 / double_of_Z (nffts p))%float in
  let mags2 := map (fun m => F32.mul m scalar) mags2 in
  std_rotate (Z.to_nat (fftsize p / 2)) mags2.

(** Lines 239-245: the frequency axis, in Hz. *)
Definition frequency_axis (p : fft_plan) (center_frequency sample_rate : double)
    : list float32 :=
  let step_size :=
    (sample_rate / F32.to_double (F32.of_Z (fftsize p)))%float in
  let start := (center_frequency - sample_rate / 2)%float in
  map (fun i => F32.of_double (start + step_size * double_of_nat i)%float)
      (seq 0 (Z.to_nat (fftsize p))).

(** Lines 254-257: the samples of the debug record.  The noise floor
    [nf] is computed in [double] ([sample_rate] is one) and stored in a
    [float]; the real part is [float] throughout: a [float] quotient, the
    [float] [log10] and a [float] product by [10]. *)
Definition debug_samples (p : fft_plan) (mags2 : list float32)
    (gain : float32) (noise_density_db sample_rate : double)
    : list gr_complex :=
  let nf :=
    F32.of_double
      (noise_density_db + 10 * c_log10 (sample_rate / double_of_Z (fftsize p)))%float in
  map (fun m => (F32.mul (F32.of_Z 10) (c_log10f (F32.div m gain)), nf))
      mags2.

(** *** Center frequency estimation *)

(** Lines 267-275: the shift of the configured method. *)
Definition primary_shift (b : cf_estimate_impl) (mags2 freq_axis : list float32)
    (center_frequency sample_rate : double) : res double :=
  if d_method b =? RMS then
    let* shift := rms mags2 freq_axis (F32.of_double center_frequency)
                      (F32.of_double sample_rate) in
    Ok (F32.to_double shift)
  else if d_method b =? HALF_POWER then
    let* shift := half_power mags2 in
    Ok (F32.to_double shift)
  else Ok 0%float.

(** Lines 278-279: [shift += coerce_frequency(center_frequency + shift *
    sample_rate, sample_rate)]. *)
Definition coerced_shift (b : cf_estimate_impl)
    (shift center_frequency sample_rate : double) : double :=
  (shift +
   F32.to_double
     (coerce_frequency (d_channel_freqs b)
        (F32.of_double (center_frequency + shift * sample_rate))
        (F32.of_double sample_rate)))%float.

(** *** Burst correction *)

(** [rotator::rotateN]: [for (i = 0; i < n; i++) out[i] = rotate(in[i])]. *)
Fixpoint rotateN (r : rotator) (input : list gr_complex)
    : list gr_complex * rotator :=
  match input with
  | [] => ([], r)
  | x :: input' =>
      let '(z, r') := rotator_rotate r x in
      let '(out, r'') := rotateN r' input' in
      (z :: out, r'')
  end.

(** The phase increment set at line 284. *)
Definition phase_increment (shift : double) : gr_complex :=
  c_cexpf (F32.zero, F32.of_double ((- shift) * 2 * M_PI)%float).

(** Lines 284-287: the oscillator is set up, [d_corrected_burst] is
    resized to the burst and overwritten with the rotated samples. *)
Definition burst_oscillator (b : cf_estimate_impl) (shift : double) : rotator :=
  let r := set_phase_incr (d_rotate b) (phase_increment shift) in
  set_phase r cone.

Definition correct_burst (b : cf_estimate_impl) (shift : double)
    (data : list gr_complex) : cf_estimate_impl :=
  let r := burst_oscillator b shift in
  let buffer := resize (length data) czero (d_corrected_burst b) in
  let '(out, r') := rotateN r data in
  {| d_method := d_method b; d_channel_freqs := d_channel_freqs b;
     d_ffts := d_ffts b; d_windows := d_windows b;
     d_fft_mag2_gains := d_fft_mag2_gains b;
     d_rotate := r';
     d_corrected_burst := out ++ skipn (length out) buffer |}.

(** *** The output metadata *)

(** [float cf_correction_hz = shift * sample_rate]. *)
Definition cf_correction_hz (shift sample_rate : double) : double :=
  F32.to_double (F32.of_double (shift * sample_rate)%float).

(** [x != 0] on doubles. *)
Definition nonzero (x : double) : bool := negb (x =? 0)%float.

(** Lines 289-313.  In [snr_db] the term [10 * log10(bandwidth)] is a
    [float] ([bandwidth] is one); the sum with [noise_density_db] and the
    difference are [double], stored in a [float]. *)
Definition output_metadata (metadata : gmap string pmt)
    (mags2 freq_axis : list float32) (gain bandwidth : float32)
    (shift center_frequency relative_frequency sample_rate noise_density_db : double)
    : res (gmap string pmt) :=
  let correction := cf_correction_hz shift sample_rate in
  let center_frequency := (center_frequency + correction)%float in
  let relative_frequency :=
    if nonzero relative_frequency
    then (relative_frequency + correction)%float
    else relative_frequency in
  let metadata :=
    dict_add metadata PMTCONSTSTR__center_frequency (PMT_DOUBLE center_frequency) in
  let metadata :=
    if nonzero relative_frequency
    then dict_add metadata PMTCONSTSTR__relative_frequency
           (PMT_DOUBLE relative_frequency)
    else metadata in
  let metadata :=
    dict_add metadata PMTCONSTSTR__bandwidth
      (PMT_DOUBLE (F32.to_double bandwidth)) in
  if negb (noise_density_db =? nan)%float then
    let* pwr_db :=
      estimate_pwr mags2 freq_axis (F32.of_double center_frequency)
        bandwidth gain in
    let snr_db :=
      F32.of_double
        (F32.to_double pwr_db
         - (noise_density_db
            + F32.to_double (F32.mul (F32.of_Z 10) (c_log10f bandwidth))))%float in
    let metadata :=
      dict_add metadata PMTCONSTSTR__pwr_db
        (PMT_DOUBLE (F32.to_double pwr_db)) in
    Ok (dict_add metadata PMTCONSTSTR__snr_db
          (PMT_DOUBLE (F32.to_double snr_db)))
  else Ok metadata.

(** *** The message handler *)

(** [v[i]] on a [std::vector]. *)
Definition vector_at {A} (v : list A) (i : Z) : res A :=
  if i <? 0 then Err undefined_behaviour
  else match v !! Z.to_nat i with
       | Some x => Ok x
       | None => Err undefined_behaviour
       end.

(** What lines 172-251 compute from the burst. *)
Record analysis : Type := {
  an_plan : fft_plan;
  an_mags2 : list float32;
  an_freq_axis : list float32;
  an_gain : float32;
  an_bandwidth : float32
}.

Definition analyze (b : cf_estimate_impl) (data : list gr_complex)
    (center_frequency sample_rate : double) : res analysis :=
  let burst_size := Z.of_nat (length data) in
  let* p := plan_fft burst_size in
  let* engine := vector_at (d_ffts b) (fftpower p) in
  let* window := vector_at (d_windows b) (fftpower p) in
  let* gain := vector_at (d_fft_mag2_gains b) (fftpower p) in
  let mags2 := psd_estimate engine window p data in
  let freq_axis := frequency_axis p center_frequency sample_rate in
  let* bandwidth := rms_bw mags2 freq_axis (F32.of_double center_frequency) in
  Ok {| an_plan := p; an_mags2 := mags2; an_freq_axis := freq_axis;
        an_gain := gain; an_bandwidth := bandwidth |}.

(** Lines 267-279: the final shift, primary plus coercion. *)
Definition estimate_shift (b : cf_estimate_impl) (a : analysis)
    (center_frequency sample_rate : double) : res double :=
  let* shift :=
    primary_shift b (an_mags2 a) (an_freq_axis a) center_frequency sample_rate in
  Ok (coerced_shift b shift center_frequency sample_rate).

(** [pdu_handler] from line 172 on, for a PDU that passed the checks. *)
Definition process_burst (b : cf_estimate_impl) (metadata : pmt)
    (dict : gmap string pmt) (data : list gr_complex)
    (center_frequency relative_frequency sample_rate noise_density_db : double)
    : res (cf_estimate_impl * list (port * pmt)) :=
  let* a := analyze b data center_frequency sample_rate in
  let dbg :=
    debug_samples (an_plan a) (an_mags2 a) (an_gain a) noise_density_db
      sample_rate in
  let debug_pdu := PMT_PAIR metadata (PMT_C32VECTOR dbg) in
  let* shift := estimate_shift b a center_frequency sample_rate in
  let b' := correct_burst b shift data in
  let* metadata' :=
    output_metadata dict (an_mags2 a) (an_freq_axis a) (an_gain a)
      (an_bandwidth a) shift center_frequency relative_frequency sample_rate
      noise_density_db in
  let out_data := firstn (length data) (d_corrected_burst b') in
  Ok (b', [ (PMTCONSTSTR__debug, debug_pdu);
            (PMTCONSTSTR__out,
             PMT_PAIR (PMT_DICT metadata') (PMT_C32VECTOR out_data)) ]).

(** The state after the call and the records published, in order. *)
Definition pdu_handler (b : cf_estimate_impl) (pdu : pmt)
    : res (cf_estimate_impl * list (port * pmt)) :=
  match pdu with
  | PMT_PAIR metadata pdu_data =>
      match pdu_data with
      | PMT_C32VECTOR data =>
          match as_dict metadata with
          | Some dict =>
              if negb (dict_has_key dict PMTCONSTSTR__center_frequency)
                 || negb (dict_has_key dict PMTCONSTSTR__sample_rate)
              then Ok (b, [])
              else
                let* center_frequency :=
                  to_double (dict_ref dict PMTCONSTSTR__center_frequency PMT_NIL) in
                let* relative_frequency :=
                  to_double (dict_ref dict PMTCONSTSTR__relative_frequency
                                      (PMT_DOUBLE 0)) in
                let* sample_rate :=
                  to_double (dict_ref dict PMTCONSTSTR__sample_rate PMT_NIL) in
                let* noise_density_db :=
                  to_double (dict_ref dict PMTCONSTSTR__noise_density
                                      (PMT_DOUBLE nan)) in
                process_burst b metadata dict data center_frequency
                  relative_frequency sample_rate noise_density_db
          | None => Ok (b, [])
          end
      | _ => Ok (b, [])
      end
  | _ => Ok (b, [])
  end.

End Block.

(** ** The input port *)

Section Stream.
Variable c_pow : double -> double -> double.
Variable c_log10 : double -> double.
Variable c_log10f : float32 -> float32.
Variable c_cexpf : gr_complex -> gr_complex.
Variable fft_execute : Z -> list gr_complex -> list gr_complex.
Variable rotator_rotate : rotator -> gr_complex -> gr_complex * rotator.

(** [set_msg_handler] at line 44: the handler runs on every message that
    arrives on the input port, in order, each call on the block the
    previous one left; a call that fails ends the run. *)
Fixpoint handle_all (b : cf_estimate_impl) (pdus : list pmt)
    : res (cf_estimate_impl * list (port * pmt)) :=
  match pdus with
  | [] => Ok (b, [])
  | pdu :: pdus' =>
      let* r := pdu_handler c_pow c_log10 c_log10f c_cexpf fft_execute rotator_rotate
                  b pdu in
      let* r' := handle_all (fst r) pdus' in
      Ok (fst r', snd r ++ snd r')
  end.
End Stream.

(** ** Predicates used in the statements *)

(** A value that is neither NaN nor negative ([-0] counts as zero). *)
Definition nonneg (x : spec_float) : bool :=
  match x with
  | S754_nan => false
  | S754_zero _ => true
  | S754_infinity s | S754_finite s _ _ => negb s
  end.

(** NaN or an infinity. *)
Definition nonfinite (x : spec_float) : bool :=
  match x with
  | S754_nan | S754_infinity _ => true
  | _ => false
  end.

(** A value above zero: finite and positive, or [+inf]. *)
Definition positive_sf (x : spec_float) : bool :=
  match x with
  | S754_infinity s | S754_finite s _ _ => negb s
  | _ => false
  end.

(** A bin that is not negative or is NaN: what a sum of squares can be. *)
Definition nonneg_or_nan (x : spec_float) : bool :=
  F32.is_nan x || nonneg x.

(** Zero of either sign, or NaN. *)
Definition zero_or_nan (x : spec_float) : bool :=
  F32.is_zero x || F32.is_nan x.

(** The distance the search of [coerce_frequency] compares:
    [abs(c - center_frequency)]. *)
Definition channel_distance (center_frequency c : float32) : float32 :=
  F32.abs (F32.sub c center_frequency).

(** Metadata that passes the checks of [pdu_handler], with numbers under
    the keys the handler converts: [center_frequency],
    [relative_frequency], [sample_rate] and [noise_density_db] are the
    values the handler extracts. *)
Record valid_metadata (metadata : pmt) (dict : gmap string pmt)
    (center_frequency relative_frequency sample_rate noise_density_db : double)
    : Prop := {
  vm_dict : as_dict metadata = Some dict;
  vm_center_frequency :
    dict !! PMTCONSTSTR__center_frequency = Some (PMT_DOUBLE center_frequency);
  vm_sample_rate :
    dict !! PMTCONSTSTR__sample_rate = Some (PMT_DOUBLE sample_rate);
  vm_relative_frequency :
    to_double (dict_ref dict PMTCONSTSTR__relative_frequency (PMT_DOUBLE 0))
    = Ok relative_frequency;
  vm_noise_density :
    to_double (dict_ref dict PMTCONSTSTR__noise_density (PMT_DOUBLE nan))
    = Ok noise_density_db
}.

(** A valid burst: a pair of valid metadata and a complex vector of at
    least [MIN_NFFTS] samples. *)
Record valid_burst (pdu metadata : pmt) (dict : gmap string pmt)
    (data : list gr_complex)
    (center_frequency relative_frequency sample_rate noise_density_db : double)
    : Prop := {
  vb_pdu : pdu = PMT_PAIR metadata (PMT_C32VECTOR data);
  vb_metadata :
    valid_metadata metadata dict center_frequency relative_frequency
      sample_rate noise_density_db;
  vb_burst_size : MIN_NFFTS <= Z.of_nat (length data)
}.

(** A PDU that [pdu_handler] drops: not a pair, a payload that is not a
    complex vector, metadata that is not a dictionary, or a dictionary
    without [center_frequency] or without [sample_rate]. *)
Definition malformed (pdu : pmt) : Prop :=
  match pdu with
  | PMT_PAIR metadata pdu_data =>
      is_c32vector pdu_data = false
      \/ match as_dict metadata with
         | None => True
         | Some dict =>
             dict !! PMTCONSTSTR__center_frequency = None
             \/ dict !! PMTCONSTSTR__sample_rate = None
         end
  | _ => True
  end.

(** The relative frequency after lines 291-292. *)
Definition corrected_relative_frequency
    (shift relative_frequency sample_rate : double) : double :=
  if nonzero relative_frequency
  then (relative_frequency + cf_correction_hz shift sample_rate)%float
  else relative_frequency.

(** The metadata after line 303: before the power and SNR entries. *)
Definition metadata_with_bandwidth (dict : gmap string pmt)
    (bandwidth : float32)
    (shift center_frequency relative_frequency sample_rate : double)
    : gmap string pmt :=
  let metadata :=
    dict_add dict PMTCONSTSTR__center_frequency
      (PMT_DOUBLE (center_frequency + cf_correction_hz shift sample_rate)%float) in
  let relative_frequency :=
    corrected_relative_frequency shift relative_frequency sample_rate in
  let metadata :=
    if nonzero relative_frequency
    then dict_add metadata PMTCONSTSTR__relative_frequency
           (PMT_DOUBLE relative_frequency)
    else metadata in
  dict_add metadata PMTCONSTSTR__bandwidth (PMT_DOUBLE (F32.to_double bandwidth)).

(** The value stored under [snr_db]. *)
Definition snr_db_of (c_log10f : float32 -> float32) (pwr_db bandwidth : float32)
    (noise_density_db : double) : double :=
  F32.to_double
    (F32.of_double
       (F32.to_double pwr_db
        - (noise_density_db
           + F32.to_double (F32.mul (F32.of_Z 10) (c_log10f bandwidth))))%float).

(** The metadata of the corrected record, as lines 297-313 build it when
    the guard at line 305 is passed. *)
Definition full_metadata (c_log10f : float32 -> float32) (dict : gmap string pmt)
    (bandwidth pwr_db : float32)
    (shift center_frequency relative_frequency sample_rate noise_density_db : double)
    : gmap string pmt :=
  dict_add
    (dict_add
       (metadata_with_bandwidth dict bandwidth shift center_frequency
          relative_frequency sample_rate)
       PMTCONSTSTR__pwr_db (PMT_DOUBLE (F32.to_double pwr_db)))
    PMTCONSTSTR__snr_db
    (PMT_DOUBLE (snr_db_of c_log10f pwr_db bandwidth noise_density_db)).

(** [0 <= (double)p] for every bin. *)
Definition psd_nonneg (mags2 : list float32) : Prop :=
  Forall (fun p => (0 <=? F32.to_double p)%float = true) mags2.

(** [lo <= x <= hi] on [float]s (false on NaN). *)
Definition in_range32 (lo hi x : float32) : bool :=
  SFleb lo x && SFleb x hi.

Definition minus_half32 : float32 := S754_finite true 8388608 (-24).
Definition plus_half32 : float32 := S754_finite false 8388608 (-24).

Definition sf_two : spec_float := S754_finite false 4503599627370496 (-51).

(** The FFT bank holds an engine, a window and a gain for every power up to
    [MAX_FFT_POWER]: what [fft_setup(MAX_FFT_POWER)] leaves. *)
Definition bank_ready (b : cf_estimate_impl) : Prop :=
  (Z.to_nat MAX_FFT_POWER < length (d_ffts b))%nat
  /\ (Z.to_nat MAX_FFT_POWER < length (d_windows b))%nat
  /\ (Z.to_nat MAX_FFT_POWER < length (d_fft_mag2_gains b))%nat.

(** The powers one call of [fft_setup] initialises: from [d_ffts.size()]
    to [power]. *)
Definition new_powers (b : cf_estimate_impl) (power : Z) : list Z :=
  let first := Z.of_nat (length (d_ffts b)) in
  map (fun k => first + Z.of_nat k) (seq 0 (Z.to_nat (power + 1 - first))).

(** Every offset [k / 2^p - 0.5] with [k < 2^p] lies in [-0.5, 0.5). *)
Definition offsets_in_range (p : nat) : bool :=
  forallb (fun k =>
             in_range32 minus_half32 plus_half32
               (half_power_offset k (2 ^ p))
             && SFltb (half_power_offset k (2 ^ p)) plus_half32)
          (seq 0 (2 ^ p)).

(** The rational number a finite [float] stands for; NaN and the
    infinities stand for none. *)
Definition rational_of (x : float32) : option Q :=
  match x with
  | S754_zero _ => Some (0 # 1)
  | S754_finite s m e =>
      Some (Qmult (inject_Z (if s then Z.neg m else Z.pos m))
                  (Qpower (2 # 1) e))
  | _ => None
  end.

(** The rational [k / size - 1/2]. *)
Definition offset_rational (k size : nat) : Q :=
  Qminus (Qdiv (inject_Z (Z.of_nat k)) (inject_Z (Z.of_nat size))) (1 # 2).

(** On [2^p] bins the [float] computed for every index [k < 2^p] stands
    for the rational [k / 2^p - 1/2]: no rounding takes place. *)
Definition offsets_exact (p : nat) : bool :=
  forallb (fun k =>
             match
               rational_of
                 (F32.of_double
                    (double_of_nat k / double_of_nat (2 ^ p) - 0.5)%float)
             with
             | Some q => Qeq_bool q (offset_rational k (2 ^ p))
             | None => false
             end)
          (seq 0 (2 ^ p)).

(** The state of the search of [coerce_frequency] after the candidates
    [pre]: the current best sits at index [i] of [pre], strictly nearer
    than every earlier candidate whose distance is a number, and with no
    later candidate strictly nearer. *)
Definition search_state (cf : float32) (pre : list float32)
    (dist ch : float32) (i : nat) : Prop :=
  pre !! i = Some ch /\ dist = channel_distance cf ch
  /\ (forall j c, (j < i)%nat -> pre !! j = Some c ->
        F32.is_nan (channel_distance cf c) = true
        \/ F32.ltb dist (channel_distance cf c) = true)
  /\ (forall j c, (i < j)%nat -> pre !! j = Some c ->
        F32.ltb (channel_distance cf c) dist = false).

(** The keys [pdu_handler] writes. *)
Definition written_keys : list string :=
  [PMTCONSTSTR__center_frequency; PMTCONSTSTR__relative_frequency;
   PMTCONSTSTR__bandwidth; PMTCONSTSTR__pwr_db; PMTCONSTSTR__snr_db].

(** The keys [pdu_handler] converts with [pmt::to_double]. *)
Definition numeric_keys : list string :=
  [PMTCONSTSTR__center_frequency; PMTCONSTSTR__relative_frequency;
   PMTCONSTSTR__sample_rate; PMTCONSTSTR__noise_density].

(** What a call of the handler shows to the outside: the records it
    publishes, or the way it fails. *)
Definition published (r : res (cf_estimate_impl * list (port * pmt)))
  : res (list (port * pmt)) :=
  match r with
  | Ok (_, msgs) => Ok msgs
  | Err e => Err e
  end.

(** A PDU the handler processes: a valid burst. *)
Definition accepted (pdu : pmt) : Prop :=
  exists metadata dict data cf rf sr nd,
    valid_burst pdu metadata dict data cf rf sr nd.

(** The records a call publishes on the debug channel, or the way it
    fails. *)
Definition debug_published (r : res (cf_estimate_impl * list (port * pmt)))
  : res (list pmt) :=
  match r with
  | Ok (_, msgs) => Ok (published_on PMTCONSTSTR__debug msgs)
  | Err e => Err e
  end.

(** ** Concrete inputs of the examples

    Stand-ins for the library calls (the theorems hold for every choice of
    them), a block as the constructor leaves it, and a burst of four unit
    samples at 915 MHz, sampled at 1 MHz, with no optional metadata. *)
Definition sample_pow (x y : double) : double := (x * x)%float.
Definition sample_log10 (x : double) : double := x.
Definition sample_log10f (x : float32) : float32 := x.
Definition sample_expf (x : float32) : float32 := F32.one.
Definition sample_cexpf (z : gr_complex) : gr_complex := cone.
Definition sample_fft (engine : Z) (fft_in : list gr_complex) : list gr_complex :=
  fft_in.
Definition sample_rotate (r : rotator) (x : gr_complex) : gr_complex * rotator :=
  (x, r).

Definition sample_block : cf_estimate_impl := make sample_expf RMS [].

Definition sample_dict : gmap string pmt :=
  dict_add
    (dict_add ∅ PMTCONSTSTR__center_frequency (PMT_DOUBLE 915000000))
    PMTCONSTSTR__sample_rate (PMT_DOUBLE 1000000).

Definition sample_data : list gr_complex := [cone; cone; cone; cone].

Definition sample_pdu : pmt :=
  PMT_PAIR (PMT_DICT sample_dict) (PMT_C32VECTOR sample_data).

Definition sample_handler :=
  pdu_handler sample_pow sample_log10 sample_log10f sample_cexpf sample_fft
    sample_rotate.

(** The frequency axis of four bins around 915 MHz at 1 MHz. *)
Definition sample_axis : list float32 :=
  frequency_axis
    {| fftpower := 2; fftsize := 4; nffts := 4; copy_size := 16; offset := 0 |}
    915000000 1000000.

(** A block before [fft_setup] has run, and a block whose bank holds the
    single power 0, enough for a burst of four samples. *)
Definition bare_block : cf_estimate_impl :=
  {| d_method := RMS; d_channel_freqs := [];
     d_ffts := []; d_windows := []; d_fft_mag2_gains := [];
     d_rotate := {| d_phase := cone; d_phase_incr := cone; d_counter := 0 |};
     d_corrected_burst := [] |}.

Definition small_block : cf_estimate_impl :=
  {| d_method := COERCE; d_channel_freqs := [];
     d_ffts := [1]; d_windows := [[F32.one]]; d_fft_mag2_gains := [F32.one];
     d_rotate := {| d_phase := cone; d_phase_incr := cone; d_counter := 0 |};
     d_corrected_burst := [] |}.

(** The same block after an earlier, longer burst. *)
Definition used_block : cf_estimate_impl :=
  {| d_method := d_method small_block;
     d_channel_freqs := d_channel_freqs small_block;
     d_ffts := d_ffts small_block; d_windows := d_windows small_block;
     d_fft_mag2_gains := d_fft_mag2_gains small_block;
     d_rotate := {| d_phase := czero; d_phase_incr := czero;
                    d_counter := d_counter (d_rotate small_block) |};
     d_corrected_burst := [cone; cone; cone; cone; cone; cone] |}.

(** A block in coercion-only mode with the single channel 916 MHz, and
    two bursts at 915 MHz, sampled at 1 MHz, that carry a relative
    frequency: 250 kHz, and -1 MHz. *)
Definition channel_block : cf_estimate_impl :=
  make sample_expf COERCE [F32.of_double 916000000].

Definition offset_dict (relative_frequency : double) : gmap string pmt :=
  dict_add sample_dict PMTCONSTSTR__relative_frequency
    (PMT_DOUBLE relative_frequency).

Definition offset_pdu (relative_frequency : double) : pmt :=
  PMT_PAIR (PMT_DICT (offset_dict relative_frequency))
    (PMT_C32VECTOR sample_data).

(** The plan of a burst of 18 samples, and two such bursts that differ
    only outside the analysed samples. *)
Definition plan_18 : fft_plan :=
  {| fftpower := 2; fftsize := 4; nffts := 4; copy_size := 16; offset := 1 |}.

Definition burst_18 : list gr_complex := replicate 18 cone.

Definition burst_18' : list gr_complex :=
  czero :: replicate 16 cone ++ [czero].

(** Case analysis on the integer comparisons inside [SFcompare]. *)
Ltac sf_order_cases :=
  repeat match goal with
    | H : context [Z.compare ?a ?b] |- _ =>
        destruct (Z.compare_spec a b); cbn [CompOpp] in H
    | H : context [Pos.compare ?a ?b] |- _ =>
        destruct (Pos.compare_spec a b); cbn [CompOpp] in H
    | |- context [Z.compare ?a ?b] =>
        destruct (Z.compare_spec a b); cbn [CompOpp]
    | |- context [Pos.compare ?a ?b] =>
        destruct (Pos.compare_spec a b); cbn [CompOpp]
    end;
  try discriminate; try reflexivity; try lia.

(** * Facts about the IEEE-754 operations *)

Section SignDiscipline.
Variables prec emax : Z.

Lemma iter_pos_invariant {A} (P : A -> Prop) (f : A -> A) :
  (forall x, P x -> P (f x)) -> forall n x, P x -> P (SpecFloat.iter_pos f n x).
Proof.
  intros Hf n. induction n as [n IH|n IH|]; intros x Hx; simpl; auto.
Qed.

Lemma shr_1_nonneg mrs : 0 <= shr_m mrs -> 0 <= shr_m (shr_1 mrs).
Proof.
  destruct mrs as [m r s]. simpl. intros H.
  destruct m as [|[p|p|]|p]; simpl; lia.
Qed.

Lemma shr_1_div2 mrs : 0 <= shr_m mrs -> shr_m (shr_1 mrs) = shr_m mrs / 2.
Proof.
  destruct mrs as [m r s]. simpl. intros H.
  destruct m as [|[p|p|]|p]; simpl; try lia; try reflexivity.
  - apply Z.div_unique with (r := 1); lia.
  - apply Z.div_unique with (r := 0); lia.
Qed.

Lemma shr_iter_nonneg n mrs :
  0 <= shr_m mrs -> 0 <= shr_m (SpecFloat.iter_pos shr_1 n mrs).
Proof.
  apply (iter_pos_invariant (fun x => 0 <= shr_m x)); auto using shr_1_nonneg.
Qed.

Lemma shr_iter_div n : forall mrs,
  0 <= shr_m mrs -> shr_m (SpecFloat.iter_pos shr_1 n mrs) = shr_m mrs / 2 ^ Zpos n.
Proof.
  induction n as [n IH|n IH|]; intros mrs H; cbn [SpecFloat.iter_pos].
  - rewrite IH by auto using shr_iter_nonneg, shr_1_nonneg.
    rewrite IH by auto using shr_1_nonneg.
    rewrite shr_1_div2 by assumption.
    rewrite !Z.div_div by lia. f_equal.
    rewrite Pos2Z.inj_xI, <- !Z.pow_add_r, <- Z.pow_succ_r by lia.
    f_equal. lia.
  - rewrite IH by auto using shr_iter_nonneg.
    rewrite IH by assumption.
    rewrite Z.div_div by lia. f_equal.
    rewrite Pos2Z.inj_xO, <- Z.pow_add_r by lia. f_equal. lia.
  - rewrite shr_1_div2 by assumption. reflexivity.
Qed.

Lemma shr_nonneg mrs e n : 0 <= shr_m mrs -> 0 <= shr_m (fst (shr mrs e n)).
Proof.
  intros H. unfold shr. destruct n; simpl; auto using shr_iter_nonneg.
Qed.

Lemma shr_record_of_loc_m m l : shr_m (shr_record_of_loc m l) = m.
Proof. destruct l as [|[]]; reflexivity. Qed.

Lemma shr_fexp_nonneg m e l :
  0 <= m -> 0 <= shr_m (fst (shr_fexp prec emax m e l)).
Proof.
  intros H. unfold shr_fexp. apply shr_nonneg.
  rewrite shr_record_of_loc_m. exact H.
Qed.

Lemma round_nearest_even_nonneg m l : 0 <= m -> 0 <= round_nearest_even m l.
Proof.
  intros H. destruct l as [|[]]; simpl; try lia.
  destruct (Z.even m); lia.
Qed.

Lemma round_nearest_even_ge m l : m <= round_nearest_even m l.
Proof.
  destruct l as [|[]]; simpl; try lia.
  destruct (Z.even m); lia.
Qed.

(** Rounding a mantissa that is not negative yields no NaN, and a value
    that is not negative when the sign bit is clear. *)
Lemma binary_round_aux_nonneg m e l :
  0 <= m -> nonneg (binary_round_aux prec emax false m e l) = true.
Proof.
  intros H. unfold binary_round_aux.
  pose proof (shr_fexp_nonneg m e l H) as H1.
  destruct (shr_fexp prec emax m e l) as [mrs' e'] eqn:E1. simpl in H1.
  pose proof (shr_fexp_nonneg _ e' loc_Exact
                (round_nearest_even_nonneg _ (loc_of_shr_record mrs') H1)) as H2.
  destruct (shr_fexp prec emax _ e' loc_Exact) as [mrs'' e''] eqn:E2.
  simpl in H2.
  destruct (shr_m mrs'') as [|p|p]; simpl; try reflexivity; try lia.
  destruct (e'' <=? emax - prec); reflexivity.
Qed.

Lemma binary_round_nonneg m e :
  nonneg (binary_round prec emax false m e) = true.
Proof.
  unfold binary_round.
  destruct (shl_align m e _) as [mz ez].
  apply binary_round_aux_nonneg. lia.
Qed.

Lemma binary_normalize_nonneg z e :
  0 <= z -> nonneg (binary_normalize prec emax z e false) = true.
Proof.
  intros H. destruct z as [|p|p]; simpl; try reflexivity; try lia.
  apply binary_round_nonneg.
Qed.

Lemma SFadd_nonneg x y :
  nonneg x = true -> nonneg y = true -> nonneg (SFadd prec emax x y) = true.
Proof.
  destruct x as [sx|sx| |sx mx ex], y as [sy|sy| |sy my ey];
    cbn [nonneg SFadd]; intros Hx Hy;
    try discriminate; try assumption; try reflexivity.
  - destruct sx, sy; reflexivity.
  - destruct sx, sy; try discriminate; reflexivity.
  - destruct sx, sy; try discriminate.
    cbn [cond_Zopp Z.add binary_normalize]. apply binary_round_nonneg.
Qed.

Lemma SFadd_nonneg_or_nan x y :
  nonneg_or_nan x = true -> nonneg_or_nan y = true ->
  nonneg_or_nan (SFadd prec emax x y) = true.
Proof.
  unfold nonneg_or_nan. intros Hx Hy.
  destruct (F32.is_nan x) eqn:Nx.
  { destruct x; try discriminate. reflexivity. }
  destruct (F32.is_nan y) eqn:Ny.
  { destruct y; try discriminate. destruct x; reflexivity. }
  cbn [orb] in Hx, Hy. rewrite SFadd_nonneg by assumption.
  apply orb_true_r.
Qed.

Lemma SFmul_nonneg_or_nan x y :
  nonneg_or_nan x = true -> nonneg_or_nan y = true ->
  nonneg_or_nan (SFmul prec emax x y) = true.
Proof.
  unfold nonneg_or_nan.
  destruct x as [sx|sx| |sx mx ex], y as [sy|sy| |sy my ey]; simpl;
    try reflexivity; try discriminate;
    try (destruct sx, sy; simpl; (reflexivity || discriminate)).
  destruct sx, sy; try discriminate. intros _ _. simpl.
  rewrite binary_round_aux_nonneg by lia. apply orb_true_r.
Qed.

Lemma SFmul_self_nonneg_or_nan x :
  nonneg_or_nan (SFmul prec emax x x) = true.
Proof.
  unfold nonneg_or_nan.
  destruct x as [s|s| |s m e]; simpl; try reflexivity;
    try (destruct s; reflexivity).
  rewrite xorb_nilpotent, binary_round_aux_nonneg by lia.
  apply orb_true_r.
Qed.

Lemma div_eucl_pair a b : IntDef.Z.div_eucl a b = (a / b, a mod b).
Proof.
  change IntDef.Z.div_eucl with Z.div_eucl.
  unfold Z.div, Z.modulo. destruct (Z.div_eucl a b); reflexivity.
Qed.

Lemma shiftl_pow2 a n : 0 <= n -> IntDef.Z.shiftl a n = a * 2 ^ n.
Proof.
  intros. change IntDef.Z.shiftl with Z.shiftl.
  apply Z.shiftl_mul_pow2; lia.
Qed.

Lemma SFdiv_core_binary_nonneg mx ex my ey :
  0 <= fst (fst (SFdiv_core_binary prec emax (Z.pos mx) ex (Z.pos my) ey)).
Proof.
  unfold SFdiv_core_binary. rewrite div_eucl_pair. cbn [fst].
  apply Z.div_pos; [|lia].
  destruct (ex - ey - _) eqn:Es; try lia.
  rewrite shiftl_pow2 by lia. lia.
Qed.

Lemma SFdiv_nonneg x y :
  nonneg x = true -> positive_sf y = true ->
  nonneg_or_nan (SFdiv prec emax x y) = true.
Proof.
  unfold nonneg_or_nan.
  destruct x as [sx|sx| |sx mx ex], y as [sy|sy| |sy my ey];
    cbn [nonneg positive_sf SFdiv]; intros Hx Hy;
    try discriminate; try reflexivity;
    try (destruct sx, sy; (discriminate || reflexivity)).
  destruct sx, sy; try discriminate. cbn [xorb].
  pose proof (SFdiv_core_binary_nonneg mx ex my ey) as H.
  destruct (SFdiv_core_binary prec emax (Z.pos mx) ex (Z.pos my) ey)
    as [[mz ez] lz].
  cbn [fst] in H. rewrite binary_round_aux_nonneg by assumption.
  apply orb_true_r.
Qed.
End SignDiscipline.

Section Magnitude.
Variables prec emax : Z.
Hypothesis prec_pos : 1 <= prec.

Lemma digits2_size p : digits2_pos p = Pos.size p.
Proof. induction p; simpl; congruence. Qed.

Lemma digits2_bounds p :
  2 ^ (Zpos (digits2_pos p) - 1) <= Zpos p < 2 ^ Zpos (digits2_pos p).
Proof.
  rewrite digits2_size. split.
  - pose proof (Pos.size_le p) as H.
    assert (Z.pos (2 ^ Pos.size p) <= Z.pos p~0) as H' by exact H.
    rewrite Pos2Z.inj_pow in H'.
    replace (Z.pos (Pos.size p)) with (Z.pos (Pos.size p) - 1 + 1) in H' by lia.
    rewrite Z.pow_add_r in H' by lia. lia.
  - pose proof (Pos.size_gt p) as H.
    assert (Z.pos p < Z.pos (2 ^ Pos.size p)) as H' by exact H.
    rewrite Pos2Z.inj_pow in H'. exact H'.
Qed.

Lemma digits2_le_of_lt p k :
  0 <= k -> Zpos p < 2 ^ k -> Zpos (digits2_pos p) <= k.
Proof.
  intros Hk H. pose proof (digits2_bounds p) as [Hlo _].
  destruct (Z_le_gt_dec (Zpos (digits2_pos p)) k) as [|Hgt]; auto.
  exfalso.
  assert (2 ^ k <= 2 ^ (Zpos (digits2_pos p) - 1))
    by (apply Z.pow_le_mono_r; lia).
  lia.
Qed.

(** Shifting down to the format's exponent keeps a mantissa that starts
    at or above the minimal exponent positive. *)
Lemma shr_fexp_positive m e l :
  SpecFloat.emin prec emax <= e -> 1 <= m ->
  1 <= shr_m (fst (shr_fexp prec emax m e l))
  /\ SpecFloat.emin prec emax <= snd (shr_fexp prec emax m e l).
Proof.
  intros He Hm. destruct m as [|p|p]; try lia.
  unfold shr_fexp, shr. cbn [Zdigits2].
  destruct (fexp prec emax (Z.pos (digits2_pos p) + e) - e) as [|n|n] eqn:En;
    cbn [fst snd]; rewrite ?shr_record_of_loc_m; try (split; lia).
  rewrite shr_iter_div by (rewrite shr_record_of_loc_m; lia).
  rewrite shr_record_of_loc_m.
  unfold fexp in En.
  assert (Hn : Z.pos n <= Z.pos (digits2_pos p) - 1) by lia.
  split; [|lia].
  apply Z.div_le_lower_bound; [lia|].
  pose proof (digits2_bounds p) as [Hlo _].
  assert (2 ^ Z.pos n <= 2 ^ (Z.pos (digits2_pos p) - 1))
    by (apply Z.pow_le_mono_r; lia).
  lia.
Qed.

Lemma binary_round_aux_positive m e l :
  SpecFloat.emin prec emax <= e -> 1 <= m ->
  positive_sf (binary_round_aux prec emax false m e l) = true.
Proof.
  intros He Hm. unfold binary_round_aux.
  pose proof (shr_fexp_positive m e l He Hm) as [H1 H1'].
  destruct (shr_fexp prec emax m e l) as [mrs' e'].
  cbn [fst snd] in H1, H1'.
  pose proof (round_nearest_even_ge (shr_m mrs') (loc_of_shr_record mrs')) as Hr.
  pose proof (shr_fexp_positive _ e' loc_Exact H1'
                (Z.le_trans _ _ _ H1 Hr)) as [H2 _].
  destruct (shr_fexp prec emax _ e' loc_Exact) as [mrs'' e''].
  cbn [fst] in H2.
  destruct (shr_m mrs'') as [|q|q]; try lia.
  destruct (e'' <=? emax - prec); reflexivity.
Qed.

Lemma shl_align_exponent m e e' :
  SpecFloat.emin prec emax <= e -> SpecFloat.emin prec emax <= e' ->
  SpecFloat.emin prec emax <= snd (shl_align m e e').
Proof.
  intros. unfold shl_align. destruct (e' - e); assumption.
Qed.

Lemma binary_round_positive m e :
  SpecFloat.emin prec emax <= e ->
  positive_sf (binary_round prec emax false m e) = true.
Proof.
  intros He. unfold binary_round.
  pose proof (shl_align_exponent m e
                (fexp prec emax (Z.pos (digits2_pos m) + e)) He
                ltac:(unfold fexp; lia)) as H.
  destruct (shl_align m e _) as [mz ez]. cbn [snd] in H.
  apply binary_round_aux_positive; [assumption | lia].
Qed.
End Magnitude.

Section NotNan.
Variables prec emax : Z.






End NotNan.

(** ** Halving a binary64 value *)

Lemma Prim2SF_two : Prim2SF 2%float = sf_two.
Proof. reflexivity. Qed.

Lemma bounded_inv m e :
  bounded 53 1024 m e = true ->
  Z.max (Zpos (digits2_pos m) + e - 53) (-1074) = e /\ e <= 971.
Proof.
  unfold bounded, canonical_mantissa, fexp, SpecFloat.emin. 
  rewrite andb_true_iff, Z.eqb_eq, Z.leb_le. simpl. lia.
Qed.

Lemma div_two_normal m e :
  Zpos (digits2_pos m) = 53 -> -1072 <= e -> e <= 971 ->
  SFdiv 53 1024 (S754_finite false m e) sf_two = S754_finite false m (e - 1).
Proof.
  intros Hd He1 He2.
  unfold SFdiv, sf_two, SFdiv_core_binary. 
  cbn [Zdigits2]. rewrite Hd.
  change (Z.pos (digits2_pos 4503599627370496)) with 53.
  replace (Z.min (fexp 53 1024 (53 + e - (53 + -51))) (e - -51)) with (e - 2)
    by (unfold fexp, SpecFloat.emin; lia).
  replace (e - -51 - (e - 2)) with 53 by lia.
  cbv iota beta.
  rewrite div_eucl_pair, shiftl_pow2 by lia.
  replace (Z.pos m * 2 ^ 53 / 4503599627370496) with (Z.pos m~0)
    by (apply Z.div_unique_exact; lia).
  replace (Z.pos m * 2 ^ 53 mod 4503599627370496) with 0
    by (apply Z.mod_unique with (q := Z.pos m~0); lia).
  cbv iota beta. change (new_location 4503599627370496 0) with loc_Exact.
  unfold binary_round_aux, shr_fexp. cbn [Zdigits2 digits2_pos].
  rewrite Pos2Z.inj_succ, Hd.
  replace (fexp 53 1024 (Z.succ 53 + (e - 2)) - (e - 2)) with 1
    by (unfold fexp, SpecFloat.emin; lia).
  cbn [shr_record_of_loc shr SpecFloat.iter_pos shr_1 shr_m loc_of_shr_record round_nearest_even Zdigits2 orb].
  rewrite Hd.
  replace (fexp 53 1024 (53 + (e - 2 + 1)) - (e - 2 + 1)) with 0
    by (unfold fexp, SpecFloat.emin; lia).
  cbn [shr_record_of_loc shr shr_m xorb].
  replace (e - 2 + 1 <=? 1024 - 53) with true by (symmetry; apply Z.leb_le; lia).
  f_equal; lia.
Qed.

(** Rounding a mantissa with at most 53 digits at the minimal exponent. *)
Lemma round_at_emin_exact m :
  Zpos (digits2_pos m) <= 53 ->
  binary_round_aux 53 1024 false (Zpos m) (-1074) loc_Exact
  = S754_finite false m (-1074).
Proof.
  intros Hd. unfold binary_round_aux, shr_fexp. cbn [Zdigits2].
  replace (fexp 53 1024 (Z.pos (digits2_pos m) + -1074) - -1074) with 0
    by (unfold fexp, SpecFloat.emin; lia).
  cbn [shr_record_of_loc shr shr_m loc_of_shr_record round_nearest_even Zdigits2 orb].
  replace (fexp 53 1024 (Z.pos (digits2_pos m) + -1074) - -1074) with 0
    by (unfold fexp, SpecFloat.emin; lia).
  reflexivity.
Qed.

Lemma div_two_1073 m :
  Zpos (digits2_pos m) = 53 ->
  SFdiv 53 1024 (S754_finite false m (-1073)) sf_two = S754_finite false m (-1074).
Proof.
  intros Hd.
  unfold SFdiv, sf_two, SFdiv_core_binary.
  cbn [Zdigits2]. rewrite Hd.
  change (Z.pos (digits2_pos 4503599627370496)) with 53.
  change (Z.min (fexp 53 1024 (53 + -1073 - (53 + -51))) (-1073 - -51)) with (-1074).
  change (-1073 - -51 - -1074) with 52.
  cbv iota beta.
  rewrite div_eucl_pair, shiftl_pow2 by lia.
  replace (Z.pos m * 2 ^ 52 / 4503599627370496) with (Z.pos m)
    by (apply Z.div_unique_exact; lia).
  replace (Z.pos m * 2 ^ 52 mod 4503599627370496) with 0
    by (apply Z.mod_unique with (q := Z.pos m); lia).
  cbv iota beta. change (new_location 4503599627370496 0) with loc_Exact.
  apply round_at_emin_exact. lia.
Qed.

Lemma div_two_1074_core m :
  Zpos (digits2_pos m) <= 53 ->
  SFdiv 53 1024 (S754_finite false m (-1074)) sf_two
  = binary_round_aux 53 1024 false (Zpos m / 2) (-1074)
      (if Z.even (Zpos m) then loc_Exact else loc_Inexact Eq).
Proof.
  intros Hd.
  unfold SFdiv, sf_two, SFdiv_core_binary.
  cbn [Zdigits2].
  change (Z.pos (digits2_pos 4503599627370496)) with 53.
  replace (Z.min (fexp 53 1024 (Z.pos (digits2_pos m) + -1074 - (53 + -51))) (-1074 - -51))
    with (-1074) by (unfold fexp, SpecFloat.emin; lia).
  change (-1074 - -51 - -1074) with 51.
  cbv iota beta.
  rewrite div_eucl_pair, shiftl_pow2 by lia.
  assert (Hq : Z.pos m * 2 ^ 51 / 4503599627370496 = Z.pos m / 2).
  { change 4503599627370496 with (2 * 2 ^ 51).
    rewrite Z.div_mul_cancel_r by lia. reflexivity. }
  assert (Hr : Z.pos m * 2 ^ 51 mod 4503599627370496 = (Z.pos m mod 2) * 2 ^ 51).
  { change 4503599627370496 with (2 * 2 ^ 51).
    rewrite Z.mul_mod_distr_r by lia. reflexivity. }
  rewrite Hq, Hr. cbv iota beta. cbn [xorb].
  f_equal.
  rewrite Zeven_mod. 
  pose proof (Z.mod_pos_bound (Z.pos m) 2 ltac:(lia)) as Hb.
  assert (Z.pos m mod 2 = 0 \/ Z.pos m mod 2 = 1) as [->| ->] by lia; reflexivity.
Qed.

Lemma round_at_emin_half p :
  Zpos (digits2_pos p) <= 52 ->
  exists m', binary_round_aux 53 1024 false (Zpos p) (-1074) (loc_Inexact Eq)
             = S754_finite false m' (-1074) /\ (m' <= p + 1)%positive.
Proof.
  intros Hd. unfold binary_round_aux, shr_fexp. cbn [Zdigits2].
  replace (fexp 53 1024 (Z.pos (digits2_pos p) + -1074) - -1074) with 0
    by (unfold fexp, SpecFloat.emin; lia).
  cbn [shr_record_of_loc shr shr_m loc_of_shr_record round_nearest_even orb].
  assert (Hlt : Z.pos p < 2 ^ 52).
  { pose proof (digits2_bounds p) as [_ H].
    assert (2 ^ Z.pos (digits2_pos p) <= 2 ^ 52) by (apply Z.pow_le_mono_r; lia).
    lia. }
  destruct (Z.even (Z.pos p)).
  - cbn [Zdigits2].
    replace (fexp 53 1024 (Z.pos (digits2_pos p) + -1074) - -1074) with 0
      by (unfold fexp, SpecFloat.emin; lia).
    cbn [shr_record_of_loc shr shr_m]. exists p. split; [reflexivity | lia].
  - change (Z.pos p + 1) with (Z.pos (p + 1)). cbn [Zdigits2].
    assert (Z.pos (digits2_pos (p + 1)) <= 53)
      by (apply digits2_le_of_lt; lia).
    replace (fexp 53 1024 (Z.pos (digits2_pos (p + 1)) + -1074) - -1074) with 0
      by (unfold fexp, SpecFloat.emin; lia).
    cbn [shr_record_of_loc shr shr_m]. exists (p + 1)%positive.
    split; [reflexivity | lia].
Qed.

Lemma SFltb_div_two_finite m e :
  bounded 53 1024 m e = true ->
  SFltb (S754_finite false m e) (SFdiv 53 1024 (S754_finite false m e) sf_two) = false.
Proof.
  intros Hb. apply bounded_inv in Hb as [Hc He].
  destruct (Z_le_gt_dec (-1072) e) as [Hn|Hn].
  - rewrite div_two_normal by lia.
    unfold SFltb, SFcompare.
    replace (e ?= e - 1) with Gt by (symmetry; apply Z.compare_gt_iff; lia).
    reflexivity.
  - assert (e = -1073 \/ e = -1074) as [->| ->] by lia.
    + rewrite div_two_1073 by lia. reflexivity.
    + rewrite div_two_1074_core by lia.
      destruct m as [p|p|].
      * replace (Z.pos p~1 / 2) with (Z.pos p)
          by (apply Z.div_unique with (r := 1); lia).
        change (Z.even (Z.pos p~1)) with false. cbv iota.
        cbn [digits2_pos] in Hc. rewrite Pos2Z.inj_succ in Hc.
        destruct (round_at_emin_half p ltac:(lia)) as (m' & -> & Hm').
        unfold SFltb, SFcompare. rewrite Z.compare_refl.
        rewrite Pos.compare_cont_spec. cbn [Pos.switch_Eq].
        replace (p~1 ?= m')%positive with Gt
          by (symmetry; apply Pos.compare_gt_iff; lia).
        reflexivity.
      * replace (Z.pos p~0 / 2) with (Z.pos p)
          by (apply Z.div_unique with (r := 0); lia).
        change (Z.even (Z.pos p~0)) with true. cbv iota.
        cbn [digits2_pos] in Hc. rewrite Pos2Z.inj_succ in Hc.
        rewrite round_at_emin_exact by lia.
        unfold SFltb, SFcompare. rewrite Z.compare_refl.
        rewrite Pos.compare_cont_spec. cbn [Pos.switch_Eq].
        replace (p~0 ?= p)%positive with Gt
          by (symmetry; apply Pos.compare_gt_iff; lia).
        reflexivity.
      * reflexivity.
Qed.

Lemma ltb_half_false (x : float) :
  (0 <=? x)%float = true -> (x <? x / 2)%float = false.
Proof.
  rewrite leb_spec, ltb_spec, div_spec, Prim2SF_two.
  change (Prim2SF 0) with (S754_zero false).
  pose proof (Prim2SF_valid x) as Hv.
  destruct (Prim2SF x) as [s|s| |s m e]; try discriminate.
  - destruct s; reflexivity.
  - destruct s; [discriminate | reflexivity].
  - destruct s; [discriminate |]. intros _.
    apply SFltb_div_two_finite. exact Hv.
Qed.

(** ** The order of [SFcompare] *)

Lemma SFltb_trans a b c :
  SFltb a b = true -> SFltb b c = true -> SFltb a c = true.
Proof.
  unfold SFltb, SFcompare.
  change (Pos.compare_cont Eq) with Pos.compare.
  destruct a as [sa|sa| |sa ma ea], b as [sb|sb| |sb mb eb],
           c as [sc|sc| |sc mc ec];
    try discriminate; try reflexivity;
    try (destruct sa; try discriminate);
    try (destruct sb; try discriminate);
    try (destruct sc; try discriminate);
    try reflexivity; intros Hab Hbc; sf_order_cases.
Qed.

Lemma SFleb_ltb_trans a b c :
  SFleb a b = true -> SFltb b c = true -> SFltb a c = true.
Proof.
  unfold SFltb, SFleb, SFcompare.
  change (Pos.compare_cont Eq) with Pos.compare.
  destruct a as [sa|sa| |sa ma ea], b as [sb|sb| |sb mb eb],
           c as [sc|sc| |sc mc ec];
    try discriminate; try reflexivity;
    try (destruct sa; try discriminate);
    try (destruct sb; try discriminate);
    try (destruct sc; try discriminate);
    try reflexivity; intros Hab Hbc; sf_order_cases.
Qed.

Lemma SFltb_nonneg_total a b :
  nonneg a = true -> nonneg b = true -> SFltb a b = false -> SFleb b a = true.
Proof.
  unfold SFltb, SFleb, SFcompare, nonneg.
  change (Pos.compare_cont Eq) with Pos.compare.
  destruct a as [sa|sa| |sa ma ea], b as [sb|sb| |sb mb eb];
    try discriminate; try reflexivity;
    try (destruct sa; try discriminate);
    try (destruct sb; try discriminate);
    try reflexivity; intros _ _ Hab; sf_order_cases.
Qed.

Lemma SFleb_zero_nonneg x : SFleb (S754_zero false) x = nonneg x.
Proof. destruct x as [s|s| |s m e]; try reflexivity; destruct s; reflexivity. Qed.

Lemma SFeqb_nan_r x : SFeqb x S754_nan = false.
Proof. destruct x; reflexivity. Qed.

(** ** binary64 through its specification *)

Lemma Prim2SF_zero : Prim2SF 0%float = S754_zero false.
Proof. reflexivity. Qed.

Lemma leb_zero x : (0 <=? x)%float = nonneg (Prim2SF x).
Proof. rewrite leb_spec, Prim2SF_zero. apply SFleb_zero_nonneg. Qed.

Lemma eqb_nan_false x : (x =? nan)%float = false.
Proof.
  rewrite FloatAxioms.eqb_spec. change (Prim2SF nan) with S754_nan.
  apply SFeqb_nan_r.
Qed.

Lemma add_nonneg x y :
  nonneg (Prim2SF x) = true -> nonneg (Prim2SF y) = true ->
  nonneg (Prim2SF (x + y)) = true.
Proof. rewrite add_spec. apply SFadd_nonneg. Qed.

Lemma add_nonneg_or_nan x y :
  nonneg_or_nan (Prim2SF x) = true -> nonneg_or_nan (Prim2SF y) = true ->
  nonneg_or_nan (Prim2SF (x + y)) = true.
Proof. rewrite add_spec. apply SFadd_nonneg_or_nan. Qed.

Lemma of_uint63_nonneg k : nonneg (Prim2SF (of_uint63 k)) = true.
Proof.
  rewrite of_uint63_spec. apply binary_normalize_nonneg.
  apply Uint63.to_Z_bounded.
Qed.

Lemma double_of_Z_positive z :
  0 < z < 2 ^ 63 -> positive_sf (Prim2SF (double_of_Z z)) = true.
Proof.
  intros Hz. unfold double_of_Z. rewrite of_uint63_spec, Uint63.of_Z_spec.
  rewrite Z.mod_small by (change Uint63.wB with (2 ^ 63); lia).
  destruct z as [|p|p]; try lia.
  cbn [binary_normalize].
  apply binary_round_positive; vm_compute; discriminate.
Qed.

Lemma SFldexp_nonneg f e :
  nonneg f = true -> nonneg (SFldexp prec emax f e) = true.
Proof.
  destruct f as [s|s| |s m ex]; cbn [SFldexp]; auto.
  destruct s; [discriminate|]. intros _. apply binary_round_nonneg.
Qed.

(** The promotion of a [float] that is not negative is not negative. *)
Lemma to_double_nonneg p :
  nonneg p = true -> nonneg (Prim2SF (F32.to_double p)) = true.
Proof.
  destruct p as [s|s| |s m e]; cbn [nonneg]; try discriminate.
  - destruct s; reflexivity.
  - destruct s; [discriminate | reflexivity].
  - destruct s; [discriminate|]. intros _.
    unfold F32.to_double, SF2Prim, Z.ldexp.
    rewrite ldshiftexp_spec. apply SFldexp_nonneg, of_uint63_nonneg.
Qed.

Lemma to_double_nonneg_or_nan p :
  nonneg_or_nan p = true -> nonneg_or_nan (Prim2SF (F32.to_double p)) = true.
Proof.
  unfold nonneg_or_nan. destruct (F32.is_nan p) eqn:Hn.
  - destruct p; try discriminate. reflexivity.
  - cbn [orb]. intros H. rewrite to_double_nonneg by assumption.
    apply orb_true_r.
Qed.

Lemma ltb_half_false_or_nan (x : float) :
  nonneg_or_nan (Prim2SF x) = true -> (x <? x / 2)%float = false.
Proof.
  unfold nonneg_or_nan. destruct (F32.is_nan (Prim2SF x)) eqn:Hn.
  - intros _. rewrite ltb_spec. destruct (Prim2SF x); try discriminate.
    reflexivity.
  - cbn [orb]. intros H. apply ltb_half_false. rewrite leb_zero. exact H.
Qed.

(** * The half-power scan *)

Lemma fold_add_nonneg mags2 : forall acc,
  nonneg (Prim2SF acc) = true -> psd_nonneg mags2 ->
  nonneg (Prim2SF (fold_left add_bin mags2 acc)) = true.
Proof.
  induction mags2 as [|p mags2 IH]; intros acc Hacc Hps; cbn [fold_left].
  - exact Hacc.
  - inversion Hps as [|? ? Hp Hps']; subst. apply IH; [|exact Hps'].
    apply add_nonneg; [exact Hacc|]. rewrite <- leb_zero. exact Hp.
Qed.

Lemma energy_nonneg mags2 :
  psd_nonneg mags2 -> nonneg (Prim2SF (energy_of mags2)) = true.
Proof. intros H. apply fold_add_nonneg; [reflexivity | exact H]. Qed.

Lemma fold_add_nonneg_or_nan mags2 : forall acc,
  nonneg_or_nan (Prim2SF acc) = true ->
  Forall (fun p => nonneg_or_nan p = true) mags2 ->
  nonneg_or_nan (Prim2SF (fold_left add_bin mags2 acc)) = true.
Proof.
  induction mags2 as [|p mags2 IH]; intros acc Hacc Hps; cbn [fold_left].
  - exact Hacc.
  - inversion Hps as [|? ? Hp Hps']; subst. apply IH; [|exact Hps'].
    apply add_nonneg_or_nan; [exact Hacc|].
    apply to_double_nonneg_or_nan, Hp.
Qed.

(** The scan stops inside the array as soon as the total of all the bins is
    not below the threshold. *)
Lemma half_power_scan_ok half : forall rest running i idx,
  (fold_left add_bin rest running <? half)%float = false ->
  exists st,
    half_power_scan half running i idx rest = Ok st
    /\ (i <= scan_i st <= i + length rest)%nat
    /\ ((scan_i st = i /\ scan_half_power_idx st = idx)
        \/ (S (scan_half_power_idx st) = scan_i st /\ (i < scan_i st)%nat)).
Proof.
  induction rest as [|p rest IH]; intros running i idx Hend;
    cbn [half_power_scan fold_left] in *.
  - rewrite Hend. eexists. split; [reflexivity|]. cbn. split; [lia|]. left. auto.
  - destruct (running <? half)%float.
    + destruct (IH _ (S i) i Hend) as (st & -> & Hb & Hc).
      exists st. split; [reflexivity|]. cbn [length]. split; [lia|].
      right. destruct Hc as [[Hi Hx]|[Hi Hx]]; lia.
    + eexists. split; [reflexivity|]. cbn. split; [lia|]. left. auto.
Qed.

Lemma half_power_offset_zero n :
  (0 < n)%nat -> Z.of_nat n < 2 ^ 63 ->
  half_power_offset 0 n = minus_half32.
Proof.
  intros Hn Hb. unfold half_power_offset, F32.of_double.
  rewrite sub_spec, div_spec.
  pose proof (double_of_Z_positive (Z.of_nat n) ltac:(lia)) as Hp.
  unfold double_of_nat.
  change (Prim2SF (double_of_Z (Z.of_nat 0))) with (S754_zero false).
  destruct (Prim2SF (double_of_Z (Z.of_nat n))) as [s|s| |s m e];
    try discriminate; destruct s; try discriminate; reflexivity.
Qed.

Lemma zero_energy_threshold mags2 :
  is_zero64 (energy_of mags2) = true ->
  (0 <? energy_of mags2 / 2)%float = false.
Proof.
  unfold is_zero64. intros Hz. rewrite ltb_spec, div_spec, Prim2SF_two.
  destruct (Prim2SF (energy_of mags2)) as [s|s| |s m e]; try discriminate.
  destruct s; reflexivity.
Qed.

(** C10: for a non-empty PSD with no negative bin, the scan of [half_power]
    ends without reading past the end of the array, at an index inside it;
    when the total energy is zero the loop body never runs, the index stays
    0 and the function returns exactly -0.5, not a zero offset. *)
Theorem half_power_scan_in_bounds (mags2 : list float32) :
  mags2 <> [] ->
  Z.of_nat (length mags2) < 2 ^ 63 ->
  psd_nonneg mags2 ->
  (exists st,
      half_power_loop mags2 = Ok st
      /\ (scan_i st <= length mags2)%nat
      /\ (scan_half_power_idx st < length mags2)%nat)
  /\ (is_zero64 (energy_of mags2) = true ->
      half_power_loop mags2
      = Ok {| scan_i := 0; scan_running_total := 0%float;
              scan_half_power_idx := 0 |}
      /\ half_power mags2 = Ok minus_half32
      /\ half_power mags2 <> Ok F32.zero).
Proof.
  intros Hne Hsize Hps. split.
  - pose proof (energy_nonneg mags2 Hps) as He.
    rewrite <- leb_zero in He. apply ltb_half_false in He.
    destruct (half_power_scan_ok (energy_of mags2 / 2)%float mags2 0%float
                0%nat 0%nat He) as (st & Hst & Hb & Hc).
    exists st. split; [exact Hst|].
    destruct mags2 as [|p mags2]; [congruence|]. cbn [length] in *.
    split; [lia|]. destruct Hc as [[Hi Hx]|[Hi Hx]]; lia.
  - intros Hz. pose proof (zero_energy_threshold mags2 Hz) as Hthr.
    assert (Hloop : half_power_loop mags2
                    = Ok {| scan_i := 0; scan_running_total := 0%float;
                            scan_half_power_idx := 0 |}).
    { unfold half_power_loop.
      destruct mags2 as [|p mags2]; cbn [half_power_scan]; rewrite Hthr;
        reflexivity. }
    assert (Hres : half_power mags2 = Ok minus_half32).
    { unfold half_power. rewrite Hloop. cbn [res_bind scan_half_power_idx].
      rewrite half_power_offset_zero; [reflexivity| |exact Hsize].
      destruct mags2; [congruence | cbn [length]; lia]. }
    split; [exact Hloop|]. split; [exact Hres|].
    rewrite Hres. discriminate.
Qed.

Lemma half_power_scan_in_bounds_witness :
  (exists st,
      half_power_loop [F32.zero; F32.zero] = Ok st
      /\ (scan_i st <= 2)%nat /\ (scan_half_power_idx st < 2)%nat)
  /\ (is_zero64 (energy_of [F32.zero; F32.zero]) = true ->
      half_power_loop [F32.zero; F32.zero]
      = Ok {| scan_i := 0; scan_running_total := 0%float;
              scan_half_power_idx := 0 |}
      /\ half_power [F32.zero; F32.zero] = Ok minus_half32
      /\ half_power [F32.zero; F32.zero] <> Ok F32.zero).
Proof.
  apply (half_power_scan_in_bounds [F32.zero; F32.zero]).
  - discriminate.
  - vm_compute. reflexivity.
  - repeat constructor.
Defined.

Lemma psd_nonneg_firstn n mags2 : psd_nonneg mags2 -> psd_nonneg (firstn n mags2).
Proof. unfold psd_nonneg. apply Forall_take. Qed.

(** What a finished scan says about the running totals: the total is below
    the threshold before every body that ran, and not below it after the
    last one. *)
Lemma half_power_scan_inv half : forall rest running i idx st,
  half_power_scan half running i idx rest = Ok st ->
  (scan_i st = i /\ scan_half_power_idx st = idx
   /\ (running <? half)%float = false)
  \/ (exists k,
        (k < length rest)%nat
        /\ scan_i st = (i + S k)%nat /\ scan_half_power_idx st = (i + k)%nat
        /\ (fold_left add_bin (firstn (S k) rest) running <? half)%float = false
        /\ forall j, (j <= k)%nat ->
             (fold_left add_bin (firstn j rest) running <? half)%float = true).
Proof.
  induction rest as [|p rest IH]; intros running i idx st;
    cbn [half_power_scan]; destruct (running <? half)%float eqn:Hlt;
    intros H; try discriminate.
  - injection H as <-. left. auto.
  - apply IH in H. right.
    destruct H as [(Hi & Hx & Hge)|(k & Hk & Hi & Hx & Hge & Hall)].
    + exists 0%nat. cbn [length]. split; [lia|]. split; [lia|]. split; [lia|].
      change (firstn 1 (p :: rest)) with (p :: firstn 0 rest).
      rewrite firstn_O. cbn [fold_left]. split; [exact Hge|].
      intros j Hj. assert (j = 0%nat) as -> by lia. exact Hlt.
    + exists (S k). cbn [length]. split; [lia|]. split; [lia|]. split; [lia|].
      split; [exact Hge|].
      intros [|j] Hj; [exact Hlt|]. apply (Hall j). lia.
  - injection H as <-. left. auto.
Qed.

Lemma div_two_nonneg x :
  nonneg (Prim2SF x) = true -> nonneg (Prim2SF (x / 2)) = true.
Proof.
  rewrite div_spec, Prim2SF_two. unfold SF64div, sf_two.
  destruct (Prim2SF x) as [sx|sx| |sx m e]; cbn [nonneg SFdiv];
    try discriminate; try (intros _; reflexivity).
  - destruct sx; [discriminate | reflexivity].
  - destruct sx; [discriminate|]. intros _. cbn [xorb].
    pose proof (SFdiv_core_binary_nonneg prec emax m e 4503599627370496 (-51))
      as Hm.
    destruct (SFdiv_core_binary prec emax (Z.pos m) e 4503599627370496 (-51))
      as [[mz ez] lz].
    cbn [fst] in Hm. apply binary_round_aux_nonneg, Hm.
Qed.

Lemma running_total_nonneg mags2 k :
  psd_nonneg mags2 -> nonneg (Prim2SF (running_total_upto mags2 k)) = true.
Proof. intros H. apply energy_nonneg, psd_nonneg_firstn, H. Qed.

(** The index at which the scan of [half_power] stops on a PSD with
    positive total energy, and what is returned for it. *)
Lemma half_power_crossing_index (mags2 : list float32) :
  psd_nonneg mags2 ->
  (0 <? energy_of mags2)%float = true ->
  exists k,
    (k < length mags2)%nat
    /\ half_power mags2
       = Ok (F32.of_double
               (double_of_nat k / double_of_nat (length mags2) - 0.5)%float)
    /\ (energy_of mags2 / 2 <=? running_total_upto mags2 (S k))%float = true
    /\ forall j, (j < k)%nat ->
         (running_total_upto mags2 (S j) <? energy_of mags2 / 2)%float = true.
Proof.
  intros Hps Hpos.
  assert (Hne : (0 < length mags2)%nat).
  { destruct mags2; [discriminate Hpos | cbn; lia]. }
  pose proof (energy_nonneg mags2 Hps) as He.
  pose proof (div_two_nonneg _ He) as Hhalf.
  set (half := (energy_of mags2 / 2)%float) in *.
  assert (Hend : (fold_left add_bin mags2 0 <? half)%float = false).
  { apply ltb_half_false. rewrite leb_zero. exact He. }
  destruct (half_power_scan_ok half mags2 0%float 0%nat 0%nat Hend)
    as (st & Hst & _).
  unfold half_power, half_power_loop. fold half. rewrite Hst.
  cbn [res_bind].
  destruct (half_power_scan_inv half mags2 0%float 0%nat 0%nat st Hst)
    as [(_ & -> & H0)|(k & Hk & _ & -> & Hge & Hall)].
  - exists 0%nat. split; [exact Hne|]. split; [reflexivity|].
    split; [|intros j Hj; lia].
    rewrite leb_spec. apply SFltb_nonneg_total.
    + apply running_total_nonneg, Hps.
    + exact Hhalf.
    + rewrite ltb_spec, Prim2SF_zero in H0.
      destruct (SFltb (Prim2SF (running_total_upto mags2 1)) (Prim2SF half))
        eqn:E; [|reflexivity].
      pose proof (running_total_nonneg mags2 1 Hps) as H1.
      rewrite <- SFleb_zero_nonneg in H1.
      rewrite (SFleb_ltb_trans _ _ _ H1 E) in H0. discriminate.
  - exists k. split; [exact Hk|]. split; [reflexivity|]. split.
    + rewrite leb_spec. apply SFltb_nonneg_total.
      * apply running_total_nonneg, Hps.
      * exact Hhalf.
      * rewrite <- ltb_spec. exact Hge.
    + intros j Hj. apply (Hall (S j)). lia.
Qed.

Lemma offsets_exact_all :
  forallb offsets_exact (seq 0 9) = true.
Proof. vm_compute. reflexivity. Qed.

(** On a PSD of [2^p] bins, [p] up to 8, the value returned for the index
    [k] is the rational [k / 2^p - 1/2] itself. *)
Lemma half_power_offset_exact (p k size : nat) :
  (p <= 8)%nat -> size = (2 ^ p)%nat -> (k < size)%nat ->
  exists q,
    rational_of
      (F32.of_double (double_of_nat k / double_of_nat size - 0.5)%float)
    = Some q
    /\ (q == inject_Z (Z.of_nat k) / inject_Z (Z.of_nat size) - (1 # 2))%Q.
Proof.
  intros Hp -> Hk.
  pose proof offsets_exact_all as Hall.
  rewrite forallb_forall in Hall.
  specialize (Hall p ltac:(apply in_seq; lia)).
  unfold offsets_exact in Hall. rewrite forallb_forall in Hall.
  specialize (Hall k ltac:(apply in_seq; lia)).
  destruct (rational_of _) as [q|]; [|discriminate].
  exists q. split; [reflexivity|].
  apply Qeq_bool_iff in Hall. exact Hall.
Qed.

(** C6: on a PSD (no negative bin) with positive total energy, [half_power]
    returns [k / len - 0.5], computed in [double] and stored in a [float],
    for the smallest index [k] at which the running total of the bins,
    taken from index 0, reaches or exceeds half the total: the total over
    bins 0..k is not below the half, and it is below the half over bins
    0..j for every earlier [j].  On the PSDs the handler builds ([2^p]
    bins, [p] up to 8) no rounding takes place: the value returned is the
    rational [k / len - 1/2]. *)
Theorem half_power_first_index (mags2 : list float32) :
  psd_nonneg mags2 ->
  (0 <? energy_of mags2)%float = true ->
  exists k,
    (k < length mags2)%nat
    /\ half_power mags2
       = Ok (F32.of_double
               (double_of_nat k / double_of_nat (length mags2) - 0.5)%float)
    /\ (energy_of mags2 / 2 <=? running_total_upto mags2 (S k))%float = true
    /\ (forall j, (j < k)%nat ->
         (running_total_upto mags2 (S j) <? energy_of mags2 / 2)%float = true)
    /\ (forall p, (p <= 8)%nat -> length mags2 = (2 ^ p)%nat ->
        exists shift q,
          half_power mags2 = Ok shift
          /\ rational_of shift = Some q
          /\ (q == inject_Z (Z.of_nat k)
                    / inject_Z (Z.of_nat (length mags2)) - (1 # 2))%Q).
Proof.
  intros Hps Hpos.
  destruct (half_power_crossing_index mags2 Hps Hpos)
    as (k & Hk & Hhp & Hge & Hall).
  exists k. split; [exact Hk|]. split; [exact Hhp|]. split; [exact Hge|].
  split; [exact Hall|].
  intros p Hp Hlen.
  destruct (half_power_offset_exact p k (length mags2) Hp Hlen Hk)
    as (q & Hq & Heq).
  eexists _, q. split; [exact Hhp|]. split; [exact Hq | exact Heq].
Qed.

(** On the PSD [1, 2, 2, 1] the total is 6 and the running totals are 1,
    3, 5, 6: the half, 3, is reached at index 1, and the value returned is
    [1/4 - 1/2 = -0.25]. *)
Lemma half_power_first_index_witness :
  exists k,
    k = 1%nat
    /\ half_power [F32.one; F32.two; F32.two; F32.one]
       = Ok (F32.of_double (double_of_nat k / double_of_nat 4 - 0.5)%float)
    /\ half_power [F32.one; F32.two; F32.two; F32.one]
       = Ok (S754_finite true 8388608 (-25))
    /\ (exists q, rational_of (S754_finite true 8388608 (-25)) = Some q
                  /\ (q == - (1 # 4))%Q)
    /\ (energy_of [F32.one; F32.two; F32.two; F32.one] / 2
        <=? running_total_upto [F32.one; F32.two; F32.two; F32.one] (S k))%float
       = true
    /\ forall j, (j < k)%nat ->
         (running_total_upto [F32.one; F32.two; F32.two; F32.one] (S j)
          <? energy_of [F32.one; F32.two; F32.two; F32.one] / 2)%float = true.
Proof.
  destruct (half_power_first_index [F32.one; F32.two; F32.two; F32.one])
    as (k & Hk & Hhp & Hge & Hall & Hex).
  - repeat constructor.
  - vm_compute. reflexivity.
  - assert (Hv : half_power [F32.one; F32.two; F32.two; F32.one]
                 = Ok (S754_finite true 8388608 (-25)))
      by (vm_compute; reflexivity).
    assert (Hk1 : k = 1%nat).
    { rewrite Hv in Hhp.
      destruct k as [|[|[|[|k]]]];
        [vm_compute in Hhp; discriminate Hhp | reflexivity
        | vm_compute in Hhp; discriminate Hhp
        | vm_compute in Hhp; discriminate Hhp
        | cbn [length] in Hk; lia]. }
    exists k. split; [exact Hk1|]. split; [exact Hhp|]. split; [exact Hv|].
    split; [|split; [exact Hge | exact Hall]].
    destruct (Hex 2%nat) as (shift & q & Hs & Hq & Heq);
      [lia | reflexivity |].
    rewrite Hv in Hs. injection Hs as <-.
    exists q. split; [exact Hq|].
    rewrite Heq, Hk1. reflexivity.
Defined.

(** * Zero total energy *)

Lemma div_by_zero_nonfinite x y :
  is_zero64 y = true -> nonfinite (Prim2SF (x / y)) = true.
Proof.
  unfold is_zero64. rewrite div_spec.
  destruct (Prim2SF y) as [sy|sy| |sy my ey]; try discriminate. intros _.
  destruct (Prim2SF x) as [sx|sx| |sx mx ex]; reflexivity.
Qed.

Lemma sub_nonfinite x y :
  nonfinite (Prim2SF x) = true -> nonfinite (Prim2SF (x - y)) = true.
Proof.
  rewrite sub_spec.
  destruct (Prim2SF x) as [sx|sx| |sx mx ex]; try discriminate; intros _;
    destruct (Prim2SF y) as [sy|sy| |sy my ey]; try reflexivity;
    destruct sx, sy; reflexivity.
Qed.

Lemma div_nonfinite x y :
  nonfinite (Prim2SF x) = true -> nonfinite (Prim2SF (x / y)) = true.
Proof.
  rewrite div_spec.
  destruct (Prim2SF x) as [sx|sx| |sx mx ex]; try discriminate; intros _;
    destruct (Prim2SF y) as [sy|sy| |sy my ey]; reflexivity.
Qed.

Lemma sqrt_nonfinite x :
  nonfinite (Prim2SF x) = true -> nonfinite (Prim2SF (PrimFloat.sqrt x)) = true.
Proof.
  rewrite sqrt_spec.
  destruct (Prim2SF x) as [sx|sx| |sx mx ex]; try discriminate; intros _.
  - destruct sx; reflexivity.
  - reflexivity.
Qed.

Lemma of_double_nonfinite x :
  nonfinite (Prim2SF x) = true -> nonfinite (F32.of_double x) = true.
Proof.
  unfold F32.of_double.
  destruct (Prim2SF x) as [sx|sx| |sx mx ex]; try discriminate; reflexivity.
Qed.

Lemma of_double_nan x :
  Prim2SF x = S754_nan -> F32.of_double x = S754_nan.
Proof. unfold F32.of_double. intros ->. reflexivity. Qed.

Lemma nan_sub x y : Prim2SF x = S754_nan -> Prim2SF (x - y) = S754_nan.
Proof. rewrite sub_spec. intros ->. reflexivity. Qed.

Lemma nan_div x y : Prim2SF x = S754_nan -> Prim2SF (x / y) = S754_nan.
Proof. rewrite div_spec. intros ->. reflexivity. Qed.

Lemma nan_sqrt x : Prim2SF x = S754_nan -> Prim2SF (PrimFloat.sqrt x) = S754_nan.
Proof. rewrite sqrt_spec. intros ->. reflexivity. Qed.

Lemma zero_or_nan_div_zero x y :
  zero_or_nan (Prim2SF x) = true -> is_zero64 y = true ->
  Prim2SF (x / y) = S754_nan.
Proof.
  unfold is_zero64, zero_or_nan. rewrite div_spec.
  destruct (Prim2SF y) as [sy|sy| |sy my ey]; try discriminate.
  destruct (Prim2SF x) as [sx|sx| |sx mx ex]; try discriminate; reflexivity.
Qed.

Lemma zero_or_nan_add x y :
  zero_or_nan (Prim2SF x) = true -> zero_or_nan (Prim2SF y) = true ->
  zero_or_nan (Prim2SF (x + y)) = true.
Proof.
  unfold zero_or_nan. rewrite add_spec.
  destruct (Prim2SF x) as [sx|sx| |sx mx ex]; try discriminate; intros _;
    destruct (Prim2SF y) as [sy|sy| |sy my ey]; try discriminate;
    try reflexivity.
  destruct sx, sy; reflexivity.
Qed.

Lemma zero_or_nan_mul_zero x y :
  F32.is_zero (Prim2SF y) = true -> zero_or_nan (Prim2SF (x * y)) = true.
Proof.
  unfold zero_or_nan. rewrite mul_spec.
  destruct (Prim2SF y) as [sy|sy| |sy my ey]; try discriminate; intros _.
  destruct (Prim2SF x) as [sx|sx| |sx mx ex]; reflexivity.
Qed.

Lemma to_double_zero_or_nan p :
  zero_or_nan p = true -> zero_or_nan (Prim2SF (F32.to_double p)) = true.
Proof.
  destruct p as [s|s| |s m e]; try discriminate; intros _.
  - destruct s; reflexivity.
  - reflexivity.
Qed.

Lemma F32_mul_zero f p :
  F32.is_zero p = true -> zero_or_nan (F32.mul f p) = true.
Proof.
  destruct p as [s|s| |s m e]; try discriminate; intros _.
  destruct f; reflexivity.
Qed.

Lemma to_double_is_zero p :
  F32.is_zero p = true -> F32.is_zero (Prim2SF (F32.to_double p)) = true.
Proof.
  destruct p as [s|s| |s m e]; try discriminate; intros _.
  destruct s; reflexivity.
Qed.

Lemma rms_top_integral_ok mags2 : forall freq_axis top,
  length freq_axis = length mags2 ->
  exists top', rms_top_integral top mags2 freq_axis = Ok top'.
Proof.
  induction mags2 as [|p mags2 IH]; intros [|f freq_axis] top Hlen;
    try discriminate; cbn [rms_top_integral].
  - eauto.
  - apply IH. cbn [length] in Hlen. lia.
Qed.

Lemma rms_top_integral_zero mags2 : forall freq_axis top top',
  Forall (fun p => F32.is_zero p = true) mags2 ->
  zero_or_nan (Prim2SF top) = true ->
  rms_top_integral top mags2 freq_axis = Ok top' ->
  zero_or_nan (Prim2SF top') = true.
Proof.
  induction mags2 as [|p mags2 IH]; intros [|f freq_axis] top top' Hz Ht;
    cbn [rms_top_integral]; intros H; try discriminate.
  - injection H as <-. exact Ht.
  - injection H as <-. exact Ht.
  - inversion Hz as [|? ? Hp Hz']; subst.
    eapply IH; [exact Hz'| |exact H].
    apply zero_or_nan_add; [exact Ht|].
    apply to_double_zero_or_nan, F32_mul_zero, Hp.
Qed.

Lemma energy_all_zero mags2 :
  Forall (fun p => F32.is_zero p = true) mags2 ->
  is_zero64 (energy_of mags2) = true.
Proof.
  unfold energy_of, is_zero64.
  assert (H : forall acc, F32.is_zero (Prim2SF acc) = true ->
            Forall (fun p => F32.is_zero p = true) mags2 ->
            F32.is_zero (Prim2SF (fold_left add_bin mags2 acc)) = true).
  { induction mags2 as [|p mags2 IH]; intros acc Ha Hz; cbn [fold_left].
    - exact Ha.
    - inversion Hz as [|? ? Hp Hz']; subst. apply IH; [|exact Hz'].
      unfold add_bin. rewrite add_spec.
      pose proof (to_double_is_zero p Hp) as Hp'.
      destruct (Prim2SF acc) as [sa|sa| |sa ma ea]; try discriminate.
      destruct (Prim2SF (F32.to_double p)) as [sb|sb| |sb mb eb];
        try discriminate.
      destruct sa, sb; reflexivity. }
  apply H. reflexivity.
Qed.

Section ZeroEnergy.
Variable c_pow : double -> double -> double.

Lemma rms_bw_top_integral_ok mags2 cf : forall freq_axis top,
  length freq_axis = length mags2 ->
  exists top', rms_bw_top_integral c_pow top mags2 freq_axis cf = Ok top'.
Proof.
  induction mags2 as [|p mags2 IH]; intros [|f freq_axis] top Hlen;
    try discriminate; cbn [rms_bw_top_integral].
  - eauto.
  - apply IH. cbn [length] in Hlen. lia.
Qed.

Lemma rms_bw_top_integral_zero mags2 cf : forall freq_axis top top',
  Forall (fun p => F32.is_zero p = true) mags2 ->
  zero_or_nan (Prim2SF top) = true ->
  rms_bw_top_integral c_pow top mags2 freq_axis cf = Ok top' ->
  zero_or_nan (Prim2SF top') = true.
Proof.
  induction mags2 as [|p mags2 IH]; intros [|f freq_axis] top top' Hz Ht;
    cbn [rms_bw_top_integral]; intros H; try discriminate.
  - injection H as <-. exact Ht.
  - injection H as <-. exact Ht.
  - inversion Hz as [|? ? Hp Hz']; subst.
    eapply IH; [exact Hz'| |exact H].
    apply zero_or_nan_add; [exact Ht|].
    apply zero_or_nan_mul_zero, to_double_is_zero, Hp.
Qed.

(** The RMS centroid divides by the total energy with no guard either:
    on a PSD whose bins sum to zero it returns NaN or an infinity, and NaN
    when every bin is zero. *)
Lemma rms_zero_energy (mags2 freq_axis : list float32)
    (center_frequency sample_rate : float32) :
  is_zero64 (energy_of mags2) = true ->
  length freq_axis = length mags2 ->
  exists shift,
    rms mags2 freq_axis center_frequency sample_rate = Ok shift
    /\ nonfinite shift = true
    /\ (Forall (fun p => F32.is_zero p = true) mags2 -> shift = S754_nan).
Proof.
  intros Hz Hlen.
  destruct (rms_top_integral_ok mags2 freq_axis 0%float Hlen) as [top Htop].
  unfold rms. rewrite Htop. cbn [res_bind].
  eexists. split; [reflexivity|]. split.
  - apply of_double_nonfinite, div_nonfinite, sub_nonfinite,
      div_by_zero_nonfinite, Hz.
  - intros H.
    apply of_double_nan, nan_div, nan_sub, zero_or_nan_div_zero; [|exact Hz].
    exact (rms_top_integral_zero mags2 freq_axis 0%float top H eq_refl Htop).
Qed.

(** C2 (as amended): the RMS bandwidth does not guard the division by the
    total energy and has no neutral fallback.  On a PSD whose bins sum to
    zero, with a frequency axis of the same length, it returns NaN or an
    infinity, never 0; when every bin is zero it returns NaN. *)
Theorem zero_energy_unguarded (mags2 freq_axis : list float32)
    (center_frequency : float32) :
  is_zero64 (energy_of mags2) = true ->
  length freq_axis = length mags2 ->
  exists bandwidth,
    rms_bw c_pow mags2 freq_axis center_frequency = Ok bandwidth
    /\ nonfinite bandwidth = true
    /\ F32.is_zero bandwidth = false
    /\ (Forall (fun p => F32.is_zero p = true) mags2 ->
        bandwidth = S754_nan).
Proof.
  intros Hz Hlen.
  destruct (rms_bw_top_integral_ok mags2 center_frequency freq_axis 0%float Hlen)
    as [top2 Htop2].
  unfold rms_bw. rewrite Htop2. cbn [res_bind].
  eexists. split; [reflexivity|].
  assert (H2 : nonfinite (F32.of_double (PrimFloat.sqrt (top2 / energy_of mags2)))
               = true)
    by (apply of_double_nonfinite, sqrt_nonfinite, div_by_zero_nonfinite, Hz).
  split; [exact H2|]. split.
  - destruct (F32.of_double (PrimFloat.sqrt _)); try discriminate; reflexivity.
  - intros H.
    apply of_double_nan, nan_sqrt, zero_or_nan_div_zero; [|exact Hz].
    exact (rms_bw_top_integral_zero mags2 center_frequency freq_axis 0%float
             top2 H eq_refl Htop2).
Qed.
End ZeroEnergy.

Lemma zero_energy_unguarded_witness :
  exists bandwidth,
    rms_bw (fun x _ => (x * x)%float) [F32.zero; F32.zero]
      [F32.one; F32.two] F32.one = Ok bandwidth
    /\ nonfinite bandwidth = true
    /\ F32.is_zero bandwidth = false
    /\ (Forall (fun p => F32.is_zero p = true) [F32.zero; F32.zero] ->
        bandwidth = S754_nan).
Proof.
  apply (zero_energy_unguarded (fun x _ => (x * x)%float)
           [F32.zero; F32.zero] [F32.one; F32.two] F32.one);
    reflexivity.
Defined.

(** Counterexample to C2 as stated: on the all-zero PSD of two bins the
    total energy is zero, and the RMS centroid and the RMS bandwidth are
    NaN, not 0. *)
Lemma zero_energy_returns_nan :
  is_zero64 (energy_of [F32.zero; F32.zero]) = true
  /\ rms [F32.zero; F32.zero] [F32.one; F32.two] F32.one F32.one = Ok S754_nan
  /\ rms_bw (fun x _ => (x * x)%float) [F32.zero; F32.zero]
       [F32.one; F32.two] F32.one = Ok S754_nan
  /\ F32.is_zero S754_nan = false.
Proof. vm_compute. repeat split; reflexivity. Qed.

(** * Frequency coercion *)

Lemma SFltb_irrefl a : SFltb a a = false.
Proof.
  unfold SFltb, SFcompare. change (Pos.compare_cont Eq) with Pos.compare.
  destruct a as [s|s| |s m e]; try reflexivity; destruct s; try reflexivity;
    rewrite Z.compare_refl, Pos.compare_refl; reflexivity.
Qed.









(** * FFT sizing *)

Lemma floor_log2_ratio_ge n : MIN_NFFTS <= n ->
  floor_log2_ratio n MIN_NFFTS = Z.log2 (n / MIN_NFFTS).
Proof.
  intros H. unfold floor_log2_ratio.
  destruct (Z.leb_spec MIN_NFFTS n); [reflexivity | lia].
Qed.

(** The plan of a burst of at least [MIN_NFFTS] samples. *)
Lemma plan_fft_ok (burst_size : Z) :
  MIN_NFFTS <= burst_size ->
  let power := Z.min (Z.log2 (burst_size / MIN_NFFTS)) MAX_FFT_POWER in
  0 <= power <= MAX_FFT_POWER
  /\ plan_fft burst_size
     = Ok {| fftpower := power; fftsize := 2 ^ power;
             nffts := burst_size / 2 ^ power;
             copy_size := burst_size / 2 ^ power * 2 ^ power;
             offset :=
               Z.max 0 ((burst_size - burst_size / 2 ^ power * 2 ^ power) / 2)
               mod 2 ^ 32 |}.
Proof.
  intros HN power. unfold plan_fft.
  destruct (Z.eqb_spec burst_size 0) as [->|_]; [unfold MIN_NFFTS in HN; lia|].
  rewrite floor_log2_ratio_ge by exact HN.
  pose proof (Z.log2_nonneg (burst_size / MIN_NFFTS)) as Hl.
  assert (Hfp : (if Z.log2 (burst_size / MIN_NFFTS) >? MAX_FFT_POWER
                 then MAX_FFT_POWER else Z.log2 (burst_size / MIN_NFFTS))
                = power).
  { unfold power.
    destruct (Z.gtb_spec (Z.log2 (burst_size / MIN_NFFTS)) MAX_FFT_POWER); lia. }
  rewrite Hfp.
  assert (Hfp0 : 0 <= power <= MAX_FFT_POWER)
    by (unfold power, MAX_FFT_POWER; lia).
  split; [exact Hfp0|].
  destruct (Z.leb_spec 0 power) as [_|]; [|lia].
  pose proof (Z.pow_pos_nonneg 2 power ltac:(lia) ltac:(lia)) as Hpos.
  destruct (Z.eqb_spec (2 ^ power) 0) as [|_]; [lia|]. reflexivity.
Qed.

(** C3 (as amended): for a burst of at least [MIN_NFFTS] samples the FFT
    power is [floor(log2(N / MIN_NFFTS))] clamped from above only, to
    [MAX_FFT_POWER]; the FFT size is a power of two between 1 and
    [2^MAX_FFT_POWER], and reaches [2^MIN_FFT_POWER] exactly when the burst
    has [2^MIN_FFT_POWER * MIN_NFFTS] samples or more. *)
Theorem fft_power_policy (burst_size : Z) :
  MIN_NFFTS <= burst_size ->
  exists p,
    plan_fft burst_size = Ok p
    /\ fftpower p = Z.min (Z.log2 (burst_size / MIN_NFFTS)) MAX_FFT_POWER
    /\ 0 <= fftpower p <= MAX_FFT_POWER
    /\ fftsize p = 2 ^ fftpower p
    /\ 1 <= fftsize p <= 2 ^ MAX_FFT_POWER
    /\ (MIN_FFT_POWER <= fftpower p
        <-> 2 ^ MIN_FFT_POWER * MIN_NFFTS <= burst_size)
    /\ (fftpower p < MIN_FFT_POWER <-> burst_for_ants burst_size = true)
    /\ MIN_NFFTS <= nffts p
    /\ nffts p = burst_size / fftsize p.
Proof.
  intros HN. destruct (plan_fft_ok burst_size HN) as [Hfp0 Hp].
  cbv zeta in Hfp0, Hp.
  set (l := Z.log2 (burst_size / MIN_NFFTS)) in *.
  set (fp := Z.min l MAX_FFT_POWER) in *.
  assert (Hq : 1 <= burst_size / MIN_NFFTS).
  { apply Z.div_le_lower_bound; unfold MIN_NFFTS in *; lia. }
  assert (Hpow : 2 ^ l <= burst_size / MIN_NFFTS)
    by (apply Z.log2_spec; lia).
  assert (Hsz : 1 <= 2 ^ fp <= 2 ^ MAX_FFT_POWER).
  { split; [|apply Z.pow_le_mono_r; lia].
    pose proof (Z.pow_pos_nonneg 2 fp). lia. }
  eexists. split; [exact Hp|]. cbn [fftpower fftsize nffts].
  split; [reflexivity|]. split; [exact Hfp0|]. split; [reflexivity|].
  split; [exact Hsz|].
  assert (Hiff : MIN_FFT_POWER <= fp
                 <-> 2 ^ MIN_FFT_POWER * MIN_NFFTS <= burst_size).
  2: { split; [exact Hiff|]. split; [|split; [|reflexivity]].
       - unfold burst_for_ants. rewrite Z.ltb_lt. lia.
       - apply Z.div_le_lower_bound; [lia|].
         assert (2 ^ fp <= 2 ^ l) by (apply Z.pow_le_mono_r; unfold fp; lia).
         assert (MIN_NFFTS * (burst_size / MIN_NFFTS) <= burst_size)
           by (apply Z.mul_div_le; unfold MIN_NFFTS; lia).
         unfold MIN_NFFTS in *. nia. }
  - unfold fp, MIN_FFT_POWER, MAX_FFT_POWER, MIN_NFFTS in *.
    split.
    + intros H5. assert (5 <= l) as H5' by lia.
      apply Z.log2_le_pow2 in H5'; [|lia]. fold l in H5'.
      assert (4 * (burst_size / 4) <= burst_size)
        by (apply Z.mul_div_le; lia).
      change (2 ^ 5) with 32 in *. lia.
    + intros H128. assert (5 <= l); [|lia].
      apply Z.log2_le_pow2; [lia|].
      apply Z.div_le_lower_bound; lia.
Qed.

Lemma fft_power_policy_witness :
  exists p,
    plan_fft 64 = Ok p
    /\ fftpower p = Z.min (Z.log2 (64 / MIN_NFFTS)) MAX_FFT_POWER
    /\ 0 <= fftpower p <= MAX_FFT_POWER
    /\ fftsize p = 2 ^ fftpower p
    /\ 1 <= fftsize p <= 2 ^ MAX_FFT_POWER
    /\ (MIN_FFT_POWER <= fftpower p <-> 2 ^ MIN_FFT_POWER * MIN_NFFTS <= 64)
    /\ (fftpower p < MIN_FFT_POWER <-> burst_for_ants 64 = true)
    /\ MIN_NFFTS <= nffts p
    /\ nffts p = 64 / fftsize p.
Proof. apply (fft_power_policy 64). vm_compute. discriminate. Defined.

(** Counterexample to C3 as stated: a burst of 64 samples gets FFT power 4
    and FFT size 16, below [MIN_FFT_POWER] and below [2^MIN_FFT_POWER]. *)
Lemma fft_power_below_minimum :
  exists p,
    plan_fft 64 = Ok p
    /\ fftpower p = 4 /\ fftsize p = 16
    /\ ~ (MIN_FFT_POWER <= fftpower p)
    /\ ~ (2 ^ MIN_FFT_POWER <= fftsize p <= 2 ^ MAX_FFT_POWER).
Proof.
  eexists. split; [reflexivity|]. cbn [fftpower fftsize].
  repeat split; try reflexivity; vm_compute; intros H; try destruct H as [H _];
    apply H; reflexivity.
Qed.

(** * The message handler *)

Lemma vector_at_ok {A} (v : list A) (i : Z) :
  0 <= i -> (Z.to_nat i < length v)%nat -> exists x, vector_at v i = Ok x.
Proof.
  intros Hi Hlen. unfold vector_at.
  destruct (Z.ltb_spec i 0); [lia|].
  destruct (lookup_lt_is_Some_2 v (Z.to_nat i) Hlen) as [x ->]. eauto.
Qed.

Lemma zip_with_add_nonneg_or_nan (l k : list float32) :
  Forall (fun p => nonneg_or_nan p = true) l ->
  Forall (fun p => nonneg_or_nan p = true) k ->
  Forall (fun p => nonneg_or_nan p = true) (zip_with F32.add l k).
Proof.
  intros Hl. revert k. induction Hl as [|x l Hx Hl IH]; intros k Hk.
  - constructor.
  - destruct Hk as [|y k Hy Hk]; cbn [zip_with]; constructor.
    + apply SFadd_nonneg_or_nan; assumption.
    + apply IH, Hk.
Qed.

Lemma mag_squared_nonneg_or_nan c : nonneg_or_nan (mag_squared c) = true.
Proof.
  unfold mag_squared.
  apply SFadd_nonneg_or_nan; apply SFmul_self_nonneg_or_nan.
Qed.

Lemma std_rotate_length {A} k (v : list A) : length (std_rotate k v) = length v.
Proof.
  unfold std_rotate. rewrite length_app, length_drop, length_take. lia.
Qed.

Lemma std_rotate_Forall {A} (P : A -> Prop) k v :
  Forall P v -> Forall P (std_rotate k v).
Proof.
  intros H. unfold std_rotate. apply Forall_app.
  split; [apply Forall_drop | apply Forall_take]; exact H.
Qed.

(** The [float] of a [double] that is not negative is not negative. *)
Lemma of_double_nonneg_or_nan x :
  nonneg_or_nan (Prim2SF x) = true -> nonneg_or_nan (F32.of_double x) = true.
Proof.
  unfold F32.of_double, nonneg_or_nan.
  destruct (Prim2SF x) as [s|s| |s m e]; try (intros H; exact H).
  destruct s; [discriminate|]. intros _.
  rewrite binary_round_nonneg. apply orb_true_r.
Qed.

Lemma reciprocal_nonneg_or_nan z :
  nonneg_or_nan (F32.of_double (1 / double_of_Z z)) = true.
Proof.
  apply of_double_nonneg_or_nan. unfold double_of_Z.
  rewrite div_spec, of_uint63_spec.
  change (Prim2SF 1) with (S754_finite false 4503599627370496 (-52)).
  destruct (Uint63.to_Z (Uint63.of_Z z)) as [|p|p] eqn:E.
  - reflexivity.
  - cbn [binary_normalize].
    apply SFdiv_nonneg; [reflexivity|].
    apply binary_round_positive; vm_compute; discriminate.
  - pose proof (Uint63.to_Z_bounded (Uint63.of_Z z)). lia.
Qed.

Lemma Forall_map_all {A B} (P : B -> Prop) (f : A -> B) (l : list A) :
  (forall x, P (f x)) -> Forall P (map f l).
Proof. intros H. induction l; cbn [map]; constructor; auto. Qed.

Lemma Forall_map_pres {A} (P : A -> Prop) (f : A -> A) (l : list A) :
  (forall x, P x -> P (f x)) -> Forall P l -> Forall P (map f l).
Proof. intros H Hl. induction Hl; cbn [map]; constructor; auto. Qed.

Lemma half_power_ok mags2 :
  Forall (fun p => nonneg_or_nan p = true) mags2 ->
  exists shift, half_power mags2 = Ok shift.
Proof.
  intros Hps.
  pose proof (fold_add_nonneg_or_nan mags2 0%float eq_refl Hps) as He.
  fold (energy_of mags2) in He. apply ltb_half_false_or_nan in He.
  destruct (half_power_scan_ok (energy_of mags2 / 2)%float mags2 0%float
              0%nat 0%nat He) as (st & Hst & _).
  unfold half_power, half_power_loop. rewrite Hst. cbn [res_bind]. eauto.
Qed.

Lemma rms_ok mags2 freq_axis cf sr :
  length freq_axis = length mags2 ->
  exists shift, rms mags2 freq_axis cf sr = Ok shift.
Proof.
  intros Hlen.
  destruct (rms_top_integral_ok mags2 freq_axis 0%float Hlen) as [top Htop].
  unfold rms. rewrite Htop. cbn [res_bind]. eauto.
Qed.

Lemma primary_shift_ok b mags2 freq_axis cf sr :
  length freq_axis = length mags2 ->
  Forall (fun p => nonneg_or_nan p = true) mags2 ->
  exists shift, primary_shift b mags2 freq_axis cf sr = Ok shift.
Proof.
  intros Hlen Hps. unfold primary_shift.
  destruct (d_method b =? RMS).
  - destruct (rms_ok mags2 freq_axis (F32.of_double cf) (F32.of_double sr) Hlen)
      as [s ->]. cbn [res_bind]. eauto.
  - destruct (d_method b =? HALF_POWER); [|eauto].
    destruct (half_power_ok mags2 Hps) as [s ->]. cbn [res_bind]. eauto.
Qed.

Lemma frequency_axis_length p cf sr :
  length (frequency_axis p cf sr) = Z.to_nat (fftsize p).
Proof. unfold frequency_axis. rewrite length_map, length_seq. reflexivity. Qed.

Section HandlerFacts.
Variable c_pow : double -> double -> double.
Variable c_log10 : double -> double.
Variable c_expf : float32 -> float32.
Variable c_cexpf : gr_complex -> gr_complex.
Variable fft_execute : Z -> list gr_complex -> list gr_complex.
Variable rotator_rotate : rotator -> gr_complex -> gr_complex * rotator.

Lemma psd_accumulate_invariant engine window p data mags2 ii :
  length mags2 = Z.to_nat (fftsize p) ->
  Forall (fun q => nonneg_or_nan q = true) mags2 ->
  length (psd_accumulate fft_execute engine window p data mags2 ii)
  = Z.to_nat (fftsize p)
  /\ Forall (fun q => nonneg_or_nan q = true)
       (psd_accumulate fft_execute engine window p data mags2 ii).
Proof.
  intros Hlen Hps. unfold psd_accumulate. split.
  - rewrite length_zip_with_l_eq; [exact Hlen|].
    rewrite length_map, length_resize. exact Hlen.
  - apply zip_with_add_nonneg_or_nan; [exact Hps|].
    apply Forall_map_all, mag_squared_nonneg_or_nan.
Qed.

Lemma psd_fold_invariant engine window p data segments : forall mags2,
  length mags2 = Z.to_nat (fftsize p) ->
  Forall (fun q => nonneg_or_nan q = true) mags2 ->
  length (fold_left (psd_accumulate fft_execute engine window p data)
            segments mags2) = Z.to_nat (fftsize p)
  /\ Forall (fun q => nonneg_or_nan q = true)
       (fold_left (psd_accumulate fft_execute engine window p data)
          segments mags2).
Proof.
  induction segments as [|ii segments IH]; intros mags2 Hlen Hps;
    cbn [fold_left]; [auto|].
  destruct (psd_accumulate_invariant engine window p data mags2 ii Hlen Hps).
  apply IH; assumption.
Qed.

Lemma psd_estimate_invariant engine window p data :
  length (psd_estimate fft_execute engine window p data)
  = Z.to_nat (fftsize p)
  /\ Forall (fun q => nonneg_or_nan q = true)
       (psd_estimate fft_execute engine window p data).
Proof.
  unfold psd_estimate.
  destruct (psd_fold_invariant engine window p data
              (seq 0 (Z.to_nat (nffts p)))
              (replicate (Z.to_nat (fftsize p)) F32.zero)) as [Hlen Hps].
  { apply length_replicate. }
  { apply Forall_replicate. reflexivity. }
  split.
  - rewrite std_rotate_length, length_map. exact Hlen.
  - apply std_rotate_Forall, Forall_map_pres; [|exact Hps].
    intros x Hx. apply SFmul_nonneg_or_nan; [exact Hx|].
    apply reciprocal_nonneg_or_nan.
Qed.

Lemma rms_bw_ok mags2 freq_axis cf :
  length freq_axis = length mags2 ->
  exists bandwidth, rms_bw c_pow mags2 freq_axis cf = Ok bandwidth.
Proof.
  intros Hlen.
  destruct (rms_bw_top_integral_ok c_pow mags2 cf freq_axis 0%float Hlen)
    as [top Htop].
  unfold rms_bw. rewrite Htop. cbn [res_bind]. eauto.
Qed.

Lemma estimate_pwr_sum_ok mags2 start stop : forall freq_axis acc,
  length freq_axis = length mags2 ->
  exists power, estimate_pwr_sum acc start stop mags2 freq_axis = Ok power.
Proof.
  induction mags2 as [|q mags2 IH]; intros [|f freq_axis] acc Hlen;
    try discriminate; cbn [estimate_pwr_sum].
  - eauto.
  - apply IH. cbn [length] in Hlen. lia.
Qed.

Lemma estimate_pwr_ok mags2 freq_axis cf bandwidth gain :
  length freq_axis = length mags2 ->
  exists pwr_db,
    estimate_pwr c_log10 mags2 freq_axis cf bandwidth gain = Ok pwr_db.
Proof.
  intros Hlen. unfold estimate_pwr.
  destruct (estimate_pwr_sum_ok mags2
              (F32.to_double cf - F32.to_double bandwidth / 2)%float
              (F32.to_double cf + F32.to_double bandwidth / 2)%float
              freq_axis 0%float Hlen) as [pw ->].
  cbn [res_bind]. eauto.
Qed.

(** What [analyze] yields on a burst of at least [MIN_NFFTS] samples. *)
Lemma analyze_ok b data cf sr :
  bank_ready b -> MIN_NFFTS <= Z.of_nat (length data) ->
  exists a,
    analyze c_pow fft_execute b data cf sr = Ok a
    /\ plan_fft (Z.of_nat (length data)) = Ok (an_plan a)
    /\ length (an_freq_axis a) = length (an_mags2 a)
    /\ Forall (fun q => nonneg_or_nan q = true) (an_mags2 a).
Proof.
  intros (Hf & Hw & Hg) HN.
  destruct (plan_fft_ok _ HN) as [Hfp Hp]. cbv zeta in Hfp, Hp.
  set (p := {| fftpower := Z.min (Z.log2 (Z.of_nat (length data) / MIN_NFFTS))
                            MAX_FFT_POWER |}) in Hp.
  change (Z.min _ MAX_FFT_POWER) with (fftpower p) in Hfp.
  unfold analyze. rewrite Hp. cbn [res_bind].
  assert (Hidx : (Z.to_nat (fftpower p) <= Z.to_nat MAX_FFT_POWER)%nat) by lia.
  destruct (vector_at_ok (d_ffts b) (fftpower p)) as [engine ->]; [lia|lia|].
  destruct (vector_at_ok (d_windows b) (fftpower p)) as [window ->];
    [lia|lia|].
  destruct (vector_at_ok (d_fft_mag2_gains b) (fftpower p)) as [gain ->];
    [lia|lia|].
  cbn [res_bind].
  destruct (psd_estimate_invariant engine window p data) as [Hlen Hps].
  assert (Hax : length (frequency_axis p cf sr)
                = length (psd_estimate fft_execute engine window p data))
    by (rewrite frequency_axis_length, Hlen; reflexivity).
  destruct (rms_bw_ok (psd_estimate fft_execute engine window p data)
              (frequency_axis p cf sr) (F32.of_double cf) Hax) as [bw ->].
  cbn [res_bind]. eexists. split; [reflexivity|].
  cbn [an_plan an_freq_axis an_mags2]. auto.
Qed.

Lemma rotateN_length input : forall r,
  length (fst (rotateN rotator_rotate r input)) = length input.
Proof.
  induction input as [|x input IH]; intros r; cbn [rotateN]; [reflexivity|].
  destruct (rotator_rotate r x) as [z r'].
  specialize (IH r'). destruct (rotateN rotator_rotate r' input) as [out r''].
  cbn [fst length] in *. lia.
Qed.

Lemma correct_burst_output b shift data :
  firstn (length data)
    (d_corrected_burst (correct_burst c_cexpf rotator_rotate b shift data))
  = fst (rotateN rotator_rotate (burst_oscillator c_cexpf b shift) data).
Proof.
  unfold correct_burst.
  pose proof (rotateN_length data (burst_oscillator c_cexpf b shift)) as Hlen.
  destruct (rotateN rotator_rotate _ data) as [out r'].
  cbn [fst d_corrected_burst] in *.
  rewrite <- Hlen. rewrite take_app_length. reflexivity.
Qed.
End HandlerFacts.

Lemma full_metadata_pwr_db c_log10f dict bw pwr_db shift cf rf sr nd :
  full_metadata c_log10f dict bw pwr_db shift cf rf sr nd !! PMTCONSTSTR__pwr_db
  = Some (PMT_DOUBLE (F32.to_double pwr_db)).
Proof.
  unfold full_metadata, dict_add.
  rewrite lookup_insert_ne by discriminate. apply lookup_insert_eq.
Qed.

Lemma full_metadata_snr_db c_log10f dict bw pwr_db shift cf rf sr nd :
  full_metadata c_log10f dict bw pwr_db shift cf rf sr nd !! PMTCONSTSTR__snr_db
  = Some (PMT_DOUBLE (snr_db_of c_log10f pwr_db bw nd)).
Proof. unfold full_metadata, dict_add. apply lookup_insert_eq. Qed.

Lemma full_metadata_center_frequency c_log10f dict bw pwr_db shift cf rf sr nd :
  full_metadata c_log10f dict bw pwr_db shift cf rf sr nd
    !! PMTCONSTSTR__center_frequency
  = Some (PMT_DOUBLE (cf + cf_correction_hz shift sr)%float).
Proof.
  unfold full_metadata, metadata_with_bandwidth, dict_add.
  rewrite !lookup_insert_ne by discriminate.
  destruct (nonzero _); [rewrite lookup_insert_ne by discriminate|];
    apply lookup_insert_eq.
Qed.

Lemma full_metadata_relative_frequency c_log10f dict bw pwr_db shift cf rf sr nd :
  full_metadata c_log10f dict bw pwr_db shift cf rf sr nd
    !! PMTCONSTSTR__relative_frequency
  = if nonzero (corrected_relative_frequency shift rf sr)
    then Some (PMT_DOUBLE (corrected_relative_frequency shift rf sr))
    else dict !! PMTCONSTSTR__relative_frequency.
Proof.
  unfold full_metadata, metadata_with_bandwidth, dict_add.
  rewrite !lookup_insert_ne by discriminate.
  destruct (nonzero _); [apply lookup_insert_eq|].
  rewrite lookup_insert_ne by discriminate. reflexivity.
Qed.

Lemma plan_fft_short n :
  0 <= n < MIN_NFFTS -> plan_fft n = Err undefined_behaviour.
Proof.
  unfold MIN_NFFTS. intros H.
  assert (n = 0 \/ n = 1 \/ n = 2 \/ n = 3) as [->|[->|[->| ->]]] by lia;
    reflexivity.
Qed.

Section HandlerTheorems.
Variable c_pow : double -> double -> double.
Variable c_log10 : double -> double.
Variable c_log10f : float32 -> float32.
Variable c_cexpf : gr_complex -> gr_complex.
Variable fft_execute : Z -> list gr_complex -> list gr_complex.
Variable rotator_rotate : rotator -> gr_complex -> gr_complex * rotator.

Local Abbreviation handler :=
  (pdu_handler c_pow c_log10 c_log10f c_cexpf fft_execute rotator_rotate).

(** [noise_density_db != NAN] holds for every value, NaN included: the
    power and SNR entries are always written. *)
Lemma output_metadata_always_snr dict mags2 freq_axis gain bandwidth
    shift cf rf sr nd :
  length freq_axis = length mags2 ->
  exists pwr_db,
    estimate_pwr c_log10 mags2 freq_axis
      (F32.of_double (cf + cf_correction_hz shift sr)) bandwidth gain
    = Ok pwr_db
    /\ output_metadata c_log10 c_log10f dict mags2 freq_axis gain bandwidth shift
         cf rf sr nd
       = Ok (full_metadata c_log10f dict bandwidth pwr_db shift cf rf sr nd).
Proof.
  intros Hlen.
  destruct (estimate_pwr_ok c_log10 mags2 freq_axis
              (F32.of_double (cf + cf_correction_hz shift sr)) bandwidth gain
              Hlen) as [pwr_db Hpwr].
  exists pwr_db. split; [exact Hpwr|].
  unfold output_metadata. rewrite eqb_nan_false. cbn [negb].
  rewrite Hpwr. reflexivity.
Qed.

(** A PDU that passes the checks is processed to the end: the state is
    the one [correct_burst] leaves, and two records are published, the
    debug record first. *)
Lemma pdu_handler_valid b pdu metadata dict data cf rf sr nd :
  bank_ready b ->
  valid_burst pdu metadata dict data cf rf sr nd ->
  exists a shift pwr_db,
    analyze c_pow fft_execute b data cf sr = Ok a
    /\ estimate_shift b a cf sr = Ok shift
    /\ estimate_pwr c_log10 (an_mags2 a) (an_freq_axis a)
         (F32.of_double (cf + cf_correction_hz shift sr)) (an_bandwidth a)
         (an_gain a) = Ok pwr_db
    /\ handler b pdu
       = Ok (correct_burst c_cexpf rotator_rotate b shift data,
             [ (PMTCONSTSTR__debug,
                PMT_PAIR metadata
                  (PMT_C32VECTOR
                     (debug_samples c_log10 c_log10f (an_plan a) (an_mags2 a)
                        (an_gain a) nd sr)));
               (PMTCONSTSTR__out,
                PMT_PAIR
                  (PMT_DICT
                     (full_metadata c_log10f dict (an_bandwidth a) pwr_db
                        shift cf rf sr nd))
                  (PMT_C32VECTOR
                     (fst (rotateN rotator_rotate
                             (burst_oscillator c_cexpf b shift) data)))) ]).
Proof.
  intros Hbank [-> [Hdict Hcf Hsr Hrf Hnd] HN].
  destruct (analyze_ok c_pow fft_execute b data cf sr Hbank HN)
    as (a & Ha & _ & Hlen & Hps).
  destruct (primary_shift_ok b (an_mags2 a) (an_freq_axis a) cf sr Hlen Hps)
    as [shift0 Hshift0].
  set (shift := coerced_shift b shift0 cf sr).
  assert (Hshift : estimate_shift b a cf sr = Ok shift)
    by (unfold estimate_shift; rewrite Hshift0; reflexivity).
  destruct (output_metadata_always_snr dict (an_mags2 a) (an_freq_axis a)
              (an_gain a) (an_bandwidth a) shift cf rf sr nd Hlen)
    as (pwr_db & Hpwr & Hmeta).
  exists a, shift, pwr_db. split; [exact Ha|]. split; [exact Hshift|].
  split; [exact Hpwr|].
  unfold pdu_handler. rewrite Hdict.
  unfold dict_has_key, dict_ref in *. rewrite Hcf, Hsr, Hrf, Hnd.
  cbn [negb orb default from_option id to_double res_bind].
  unfold process_burst. rewrite Ha. cbn [res_bind].
  rewrite Hshift. cbn [res_bind]. rewrite Hmeta. cbn [res_bind].
  rewrite correct_burst_output. reflexivity.
Qed.

Lemma pdu_handler_malformed b pdu :
  malformed pdu -> handler b pdu = Ok (b, []).
Proof.
  unfold malformed, pdu_handler, dict_has_key.
  destruct pdu as [| | | | |metadata pdu_data]; try reflexivity.
  destruct pdu_data as [| | |data| |]; try reflexivity.
  intros [Hv|Hd]; [discriminate|].
  destruct (as_dict metadata) as [dict|]; [|reflexivity].
  destruct Hd as [-> | ->]; [reflexivity|].
  destruct (dict !! PMTCONSTSTR__center_frequency); reflexivity.
Qed.

Lemma pdu_handler_short_burst b metadata dict data cf rf sr nd :
  valid_metadata metadata dict cf rf sr nd ->
  Z.of_nat (length data) < MIN_NFFTS ->
  handler b (PMT_PAIR metadata (PMT_C32VECTOR data))
  = Err undefined_behaviour.
Proof.
  intros [Hdict Hcf Hsr Hrf Hnd] HN.
  unfold pdu_handler. rewrite Hdict.
  unfold dict_has_key, dict_ref in *. rewrite Hcf, Hsr, Hrf, Hnd.
  cbn [negb orb default from_option id to_double res_bind].
  unfold process_burst, analyze.
  rewrite plan_fft_short by lia. reflexivity.
Qed.

(** C4: a malformed PDU is dropped with no record on either channel; a
    valid burst yields exactly one record on the corrected channel and
    one on the debug channel; but a burst of fewer than [MIN_NFFTS]
    samples under valid metadata, the empty burst among them, is not
    dropped and runs into undefined behaviour before anything is
    published. *)
Theorem pdu_handler_records b pdu metadata dict data cf rf sr nd :
  bank_ready b ->
  (malformed pdu ->
   exists msgs, handler b pdu = Ok (b, msgs)
     /\ published_on PMTCONSTSTR__out msgs = []
     /\ published_on PMTCONSTSTR__debug msgs = [])
  /\ (valid_burst pdu metadata dict data cf rf sr nd ->
      exists b' msgs, handler b pdu = Ok (b', msgs)
        /\ length (published_on PMTCONSTSTR__out msgs) = 1%nat
        /\ length (published_on PMTCONSTSTR__debug msgs) = 1%nat
        /\ length msgs = 2%nat)
  /\ (valid_metadata metadata dict cf rf sr nd ->
      handler b (PMT_PAIR metadata (PMT_C32VECTOR [])) = Err undefined_behaviour
      /\ (Z.of_nat (length data) < MIN_NFFTS ->
          handler b (PMT_PAIR metadata (PMT_C32VECTOR data))
          = Err undefined_behaviour)).
Proof.
  intros Hbank. split; [|split].
  - intros Hm. exists []. rewrite (pdu_handler_malformed b pdu Hm).
    repeat split.
  - intros Hv.
    destruct (pdu_handler_valid b pdu metadata dict data cf rf sr nd Hbank Hv)
      as (a & shift & pwr_db & _ & _ & _ & ->).
    eexists _, _. split; [reflexivity|]. repeat split.
  - intros Hv. split.
    + apply (pdu_handler_short_burst b metadata dict [] cf rf sr nd Hv).
      reflexivity.
    + intros HN.
      exact (pdu_handler_short_burst b metadata dict data cf rf sr nd Hv HN).
Qed.

(** C8: for a valid burst the corrected record holds the whole burst
    rotated sample by sample: as many samples as the input, produced by
    the oscillator started at unit phase with the phase increment
    [exp(-j 2 pi shift)] of the final shift. *)
Theorem corrected_burst_same_length b pdu metadata dict data cf rf sr nd :
  bank_ready b ->
  valid_burst pdu metadata dict data cf rf sr nd ->
  exists a shift b' debug_pdu metadata' out_data,
    analyze c_pow fft_execute b data cf sr = Ok a
    /\ estimate_shift b a cf sr = Ok shift
    /\ handler b pdu
       = Ok (b', [ (PMTCONSTSTR__debug, debug_pdu);
                   (PMTCONSTSTR__out,
                    PMT_PAIR (PMT_DICT metadata') (PMT_C32VECTOR out_data)) ])
    /\ length out_data = length data
    /\ out_data
       = fst (rotateN rotator_rotate (burst_oscillator c_cexpf b shift) data)
    /\ d_phase (burst_oscillator c_cexpf b shift) = cone
    /\ d_phase_incr (burst_oscillator c_cexpf b shift)
       = c_cexpf (F32.zero, F32.of_double ((- shift) * 2 * M_PI)%float).
Proof.
  intros Hbank Hv.
  destruct (pdu_handler_valid b pdu metadata dict data cf rf sr nd Hbank Hv)
    as (a & shift & pwr_db & Ha & Hs & _ & ->).
  eexists a, shift, _, _, _, _. split; [exact Ha|]. split; [exact Hs|].
  split; [reflexivity|]. split; [apply rotateN_length|].
  repeat split.
Qed.

(** C9: for a valid burst the [center_frequency] entry of the output
    metadata is always the input value plus the Hz correction, the
    [float] product of the final shift and the sample rate.  The
    [relative_frequency] entry is left as it was when the input has no
    such entry or holds exactly 0; it differs from the input's only if the
    input held a non-zero value.  A non-zero input value is replaced by
    that value plus the same correction whenever the sum is not 0 (the
    entry is written behind a second test of the updated value against
    0), and the input value stays in place when the sum is 0. *)
Theorem relative_frequency_update b pdu metadata dict data cf rf sr nd :
  bank_ready b ->
  valid_burst pdu metadata dict data cf rf sr nd ->
  exists a shift b' debug_pdu metadata' out_data,
    analyze c_pow fft_execute b data cf sr = Ok a
    /\ estimate_shift b a cf sr = Ok shift
    /\ handler b pdu
       = Ok (b', [ (PMTCONSTSTR__debug, debug_pdu);
                   (PMTCONSTSTR__out,
                    PMT_PAIR (PMT_DICT metadata') (PMT_C32VECTOR out_data)) ])
    /\ metadata' !! PMTCONSTSTR__center_frequency
       = Some (PMT_DOUBLE
                 (cf + F32.to_double (F32.of_double (shift * sr)))%float)
    /\ (dict !! PMTCONSTSTR__relative_frequency = None ->
        metadata' !! PMTCONSTSTR__relative_frequency = None)
    /\ ((rf =? 0)%float = true ->
        metadata' !! PMTCONSTSTR__relative_frequency
        = dict !! PMTCONSTSTR__relative_frequency)
    /\ ((rf =? 0)%float = false ->
        dict !! PMTCONSTSTR__relative_frequency = Some (PMT_DOUBLE rf)
        /\ ((rf + F32.to_double (F32.of_double (shift * sr)) =? 0)%float
            = false ->
            metadata' !! PMTCONSTSTR__relative_frequency
            = Some (PMT_DOUBLE
                      (rf + F32.to_double (F32.of_double (shift * sr)))%float))
        /\ ((rf + F32.to_double (F32.of_double (shift * sr)) =? 0)%float
            = true ->
            metadata' !! PMTCONSTSTR__relative_frequency
            = Some (PMT_DOUBLE rf)))
    /\ (metadata' !! PMTCONSTSTR__relative_frequency
        <> dict !! PMTCONSTSTR__relative_frequency ->
        dict !! PMTCONSTSTR__relative_frequency = Some (PMT_DOUBLE rf)
        /\ (rf =? 0)%float = false
        /\ metadata' !! PMTCONSTSTR__relative_frequency
           = Some (PMT_DOUBLE
                     (rf + F32.to_double (F32.of_double (shift * sr)))%float)).
Proof.
  intros Hbank Hv.
  destruct (pdu_handler_valid b pdu metadata dict data cf rf sr nd Hbank Hv)
    as (a & shift & pwr_db & Ha & Hs & _ & ->).
  destruct Hv as [_ [_ _ _ Hrf _] _].
  eexists a, shift, _, _, _, _. split; [exact Ha|]. split; [exact Hs|].
  split; [reflexivity|].
  split; [apply full_metadata_center_frequency|].
  rewrite full_metadata_relative_frequency.
  unfold corrected_relative_frequency, nonzero, cf_correction_hz, dict_ref in *.
  assert (Hpresent : (rf =? 0)%float = false ->
            dict !! PMTCONSTSTR__relative_frequency = Some (PMT_DOUBLE rf)).
  { intros H0.
    destruct (dict !! PMTCONSTSTR__relative_frequency) as [v|] eqn:E.
    - destruct v; try discriminate. cbn in Hrf. congruence.
    - cbn in Hrf. injection Hrf as <-. discriminate. }
  split; [|split; [|split]].
  - intros Hnone. rewrite Hnone in Hrf |- *.
    cbn [default from_option id to_double] in Hrf.
    injection Hrf as <-. reflexivity.
  - intros H0. rewrite H0. cbn [negb]. rewrite H0. reflexivity.
  - intros H0. split; [exact (Hpresent H0)|].
    rewrite H0. cbn [negb]. split; intros H1; rewrite H1; cbn [negb].
    + reflexivity.
    + exact (Hpresent H0).
  - destruct (rf =? 0)%float eqn:H0; cbn [negb].
    + rewrite H0. cbn [negb]. congruence.
    + destruct (negb (rf + F32.to_double (F32.of_double (shift * sr)) =? 0)%float);
        [|congruence].
      intros _. split; [|auto]. exact (Hpresent eq_refl).
Qed.

(** C1: for a valid burst whose metadata has no [noise_density] entry the
    handler still writes the power and SNR entries: the guard compares
    with NaN by [!=], which holds for every value.  With or without the
    entry, the power entry is what [estimate_pwr] returns at the corrected
    center frequency, and [snr_db] is [power_db - (noise_density_db + 10 *
    log10(bandwidth))] stored in a [float], where [10 * log10(bandwidth)]
    is a [float] product with the [float] logarithm and
    [noise_density_db] is NaN when the entry is absent. *)
Theorem snr_written_without_noise_density b pdu metadata dict data cf rf sr nd :
  bank_ready b ->
  valid_burst pdu metadata dict data cf rf sr nd ->
  exists a shift pwr_db b' debug_pdu metadata' out_data,
    analyze c_pow fft_execute b data cf sr = Ok a
    /\ estimate_shift b a cf sr = Ok shift
    /\ estimate_pwr c_log10 (an_mags2 a) (an_freq_axis a)
         (F32.of_double
            (cf + F32.to_double (F32.of_double (shift * sr)))%float)
         (an_bandwidth a) (an_gain a)
       = Ok pwr_db
    /\ handler b pdu
       = Ok (b', [ (PMTCONSTSTR__debug, debug_pdu);
                   (PMTCONSTSTR__out,
                    PMT_PAIR (PMT_DICT metadata') (PMT_C32VECTOR out_data)) ])
    /\ metadata' !! PMTCONSTSTR__pwr_db
       = Some (PMT_DOUBLE (F32.to_double pwr_db))
    /\ metadata' !! PMTCONSTSTR__snr_db
       = Some (PMT_DOUBLE
                 (F32.to_double
                    (F32.of_double
                       (F32.to_double pwr_db
                        - (nd
                           + F32.to_double
                               (F32.mul (F32.of_Z 10)
                                  (c_log10f (an_bandwidth a)))))%float)))
    /\ (dict !! PMTCONSTSTR__noise_density = None -> is_nan64 nd = true).
Proof.
  intros Hbank Hv.
  destruct (pdu_handler_valid b pdu metadata dict data cf rf sr nd Hbank Hv)
    as (a & shift & pwr_db & Ha & Hs & Hp & ->).
  destruct Hv as [_ [_ _ _ _ Hnd] _].
  eexists a, shift, pwr_db, _, _, _, _. split; [exact Ha|].
  split; [exact Hs|]. split; [exact Hp|].
  split; [reflexivity|].
  split; [apply full_metadata_pwr_db|].
  split; [apply full_metadata_snr_db|].
  intros Hnone. unfold dict_ref in Hnd. rewrite Hnone in Hnd.
  cbn in Hnd. injection Hnd as <-. reflexivity.
Qed.
End HandlerTheorems.

(** * The FFT bank is ready in every reachable state *)

Lemma bank_ready_make c_expf method channel_freqs :
  bank_ready (make c_expf method channel_freqs).
Proof. unfold bank_ready. vm_compute. lia. Qed.

Lemma bank_ready_set_method b method :
  bank_ready b -> bank_ready (set_method b method).
Proof. intros H. exact H. Qed.

Lemma bank_ready_set_freqs b channel_freqs :
  bank_ready b -> bank_ready (set_freqs b channel_freqs).
Proof. intros H. exact H. Qed.

Lemma bank_ready_correct_burst c_cexpf rotator_rotate b shift data :
  bank_ready b -> bank_ready (correct_burst c_cexpf rotator_rotate b shift data).
Proof.
  intros H. unfold correct_burst.
  destruct (rotateN rotator_rotate _ data) as [out r']. exact H.
Qed.

Lemma pdu_handler_bank_ready c_pow c_log10 c_log10f c_cexpf fft_execute
    rotator_rotate b pdu b' msgs :
  pdu_handler c_pow c_log10 c_log10f c_cexpf fft_execute rotator_rotate b pdu
  = Ok (b', msgs) ->
  bank_ready b -> bank_ready b'.
Proof.
  unfold pdu_handler, process_burst. intros H Hb.
  repeat match type of H with
    | Ok _ = Ok _ => injection H as <- _
    | context [match ?x with _ => _ end] => destruct x; try discriminate
    | context [res_bind ?m _] =>
        destruct m; cbn [res_bind] in H; try discriminate
    end;
    auto using bank_ready_correct_burst.
Qed.

Lemma pdu_handler_records_witness :
  sample_handler sample_block (PMT_PAIR (PMT_DICT sample_dict) (PMT_C32VECTOR []))
  = Err undefined_behaviour.
Proof.
  refine (proj1 (proj2 (proj2
            (pdu_handler_records sample_pow sample_log10 sample_log10f
               sample_cexpf sample_fft sample_rotate sample_block sample_pdu
               (PMT_DICT sample_dict) sample_dict sample_data
               915000000 0 1000000 nan _)) _)).
  - unfold bank_ready. vm_compute. lia.
  - constructor; reflexivity.
Defined.

Lemma corrected_burst_same_length_witness :
  exists a shift b' debug_pdu metadata' out_data,
    analyze sample_pow sample_fft sample_block sample_data 915000000 1000000
    = Ok a
    /\ estimate_shift sample_block a 915000000 1000000 = Ok shift
    /\ sample_handler sample_block sample_pdu
       = Ok (b', [ (PMTCONSTSTR__debug, debug_pdu);
                   (PMTCONSTSTR__out,
                    PMT_PAIR (PMT_DICT metadata') (PMT_C32VECTOR out_data)) ])
    /\ length out_data = length sample_data
    /\ out_data
       = fst (rotateN sample_rotate
                (burst_oscillator sample_cexpf sample_block shift) sample_data)
    /\ d_phase (burst_oscillator sample_cexpf sample_block shift) = cone
    /\ d_phase_incr (burst_oscillator sample_cexpf sample_block shift)
       = sample_cexpf (F32.zero, F32.of_double ((- shift) * 2 * M_PI)%float).
Proof.
  apply (corrected_burst_same_length sample_pow sample_log10 sample_log10f
           sample_cexpf sample_fft sample_rotate sample_block sample_pdu
           (PMT_DICT sample_dict) sample_dict sample_data
           915000000 0 1000000 nan).
  - unfold bank_ready. vm_compute. lia.
  - constructor; [reflexivity | constructor; reflexivity |].
    vm_compute. discriminate.
Defined.

(** In coercion-only mode with the single channel 916 MHz, a burst at
    915 MHz sampled at 1 MHz gets the shift 1 and the correction 1 MHz:
    the center frequency becomes 916 MHz and a relative frequency of
    250 kHz becomes 1.25 MHz, while a relative frequency of -1 MHz, whose
    sum with the correction is 0, stays as it was. *)
Lemma relative_frequency_update_witness :
  (exists b' debug_pdu metadata' out_data,
     sample_handler channel_block (offset_pdu 250000)
     = Ok (b', [ (PMTCONSTSTR__debug, debug_pdu);
                 (PMTCONSTSTR__out,
                  PMT_PAIR (PMT_DICT metadata') (PMT_C32VECTOR out_data)) ])
     /\ metadata' !! PMTCONSTSTR__center_frequency
        = Some (PMT_DOUBLE 916000000)
     /\ metadata' !! PMTCONSTSTR__relative_frequency
        = Some (PMT_DOUBLE 1250000))
  /\ (exists b' debug_pdu metadata' out_data,
        sample_handler channel_block (offset_pdu (-1000000))
        = Ok (b', [ (PMTCONSTSTR__debug, debug_pdu);
                    (PMTCONSTSTR__out,
                     PMT_PAIR (PMT_DICT metadata') (PMT_C32VECTOR out_data)) ])
        /\ metadata' !! PMTCONSTSTR__center_frequency
           = Some (PMT_DOUBLE 916000000)
        /\ metadata' !! PMTCONSTSTR__relative_frequency
           = Some (PMT_DOUBLE (-1000000))).
Proof.
  split.
  - destruct (relative_frequency_update sample_pow sample_log10 sample_log10f
                sample_cexpf sample_fft sample_rotate channel_block
                (offset_pdu 250000) (PMT_DICT (offset_dict 250000))
                (offset_dict 250000) sample_data 915000000 250000 1000000 nan)
      as (a & shift & b' & dbg & md' & out & _ & Hs & Hh & Hcf & _ & _
          & Hnz & _).
    + unfold bank_ready. vm_compute. lia.
    + constructor; [reflexivity | constructor; reflexivity |].
      vm_compute. discriminate.
    + vm_compute in Hs. injection Hs as <-.
      destruct Hnz as (_ & Hw & _); [vm_compute; reflexivity|].
      exists b', dbg, md', out. split; [exact Hh|]. split.
      * rewrite Hcf. vm_compute. reflexivity.
      * rewrite Hw by (vm_compute; reflexivity). vm_compute. reflexivity.
  - destruct (relative_frequency_update sample_pow sample_log10 sample_log10f
                sample_cexpf sample_fft sample_rotate channel_block
                (offset_pdu (-1000000)) (PMT_DICT (offset_dict (-1000000)))
                (offset_dict (-1000000)) sample_data 915000000 (-1000000)
                1000000 nan)
      as (a & shift & b' & dbg & md' & out & _ & Hs & Hh & Hcf & _ & _
          & Hnz & _).
    + unfold bank_ready. vm_compute. lia.
    + constructor; [reflexivity | constructor; reflexivity |].
      vm_compute. discriminate.
    + vm_compute in Hs. injection Hs as <-.
      destruct Hnz as (_ & _ & Hw); [vm_compute; reflexivity|].
      exists b', dbg, md', out. split; [exact Hh|]. split.
      * rewrite Hcf. vm_compute. reflexivity.
      * apply Hw. vm_compute. reflexivity.
Defined.

Lemma snr_written_without_noise_density_witness :
  exists a shift pwr_db b' debug_pdu metadata' out_data,
    analyze sample_pow sample_fft sample_block sample_data 915000000 1000000
    = Ok a
    /\ estimate_shift sample_block a 915000000 1000000 = Ok shift
    /\ estimate_pwr sample_log10 (an_mags2 a) (an_freq_axis a)
         (F32.of_double
            (915000000
             + F32.to_double (F32.of_double (shift * 1000000)))%float)
         (an_bandwidth a) (an_gain a)
       = Ok pwr_db
    /\ sample_handler sample_block sample_pdu
       = Ok (b', [ (PMTCONSTSTR__debug, debug_pdu);
                   (PMTCONSTSTR__out,
                    PMT_PAIR (PMT_DICT metadata') (PMT_C32VECTOR out_data)) ])
    /\ metadata' !! PMTCONSTSTR__pwr_db
       = Some (PMT_DOUBLE (F32.to_double pwr_db))
    /\ metadata' !! PMTCONSTSTR__snr_db
       = Some (PMT_DOUBLE
                 (F32.to_double
                    (F32.of_double
                       (F32.to_double pwr_db
                        - (nan
                           + F32.to_double
                               (F32.mul (F32.of_Z 10)
                                  (sample_log10f (an_bandwidth a)))))%float)))
    /\ (sample_dict !! PMTCONSTSTR__noise_density = None -> is_nan64 nan = true).
Proof.
  apply (snr_written_without_noise_density sample_pow sample_log10
           sample_log10f sample_cexpf sample_fft sample_rotate sample_block
           sample_pdu (PMT_DICT sample_dict) sample_dict sample_data
           915000000 0 1000000 nan).
  - unfold bank_ready. vm_compute. lia.
  - constructor; [reflexivity | constructor; reflexivity |].
    vm_compute. discriminate.
Defined.

(** * The range of the RMS centroid *)

(** C5: the RMS centroid leaves the interval [-0.5, 0.5] that the
    handler's comment promises.  With all the energy in the lowest of four
    bins around 915 MHz at 1 MHz it is about -0.500032, because the axis is
    held in [float]s; on an all-zero PSD it is NaN. *)
Theorem rms_offset_outside_range :
  rms [F32.one; F32.zero; F32.zero; F32.zero] sample_axis
      (F32.of_double 915000000) (F32.of_double 1000000)
  = Ok (S754_finite true 8389145 (-24))
  /\ in_range32 minus_half32 plus_half32 (S754_finite true 8389145 (-24)) = false
  /\ rms [F32.zero; F32.zero; F32.zero; F32.zero] sample_axis
         (F32.of_double 915000000) (F32.of_double 1000000)
     = Ok S754_nan
  /\ in_range32 minus_half32 plus_half32 S754_nan = false.
Proof. vm_compute. repeat split; reflexivity. Qed.

(** * The FFT bank: [fft_setup], the constructor and [fft_cleanup] *)

Section Bank.
Variable c_expf : float32 -> float32.

Lemma gaussian_window_length n :
  length (gaussian_window c_expf n) = Z.to_nat n.
Proof. unfold gaussian_window. rewrite length_map, length_seq. reflexivity. Qed.

(** The loop of [fft_setup] over a list of powers: one engine, one window
    and one gain are appended for each, and nothing else changes. *)
Lemma fft_setup_fold powers : forall b,
  let b' := fold_left (fft_setup_step c_expf) powers b in
  d_ffts b' = d_ffts b ++ map (fun i => 2 ^ i) powers
  /\ d_windows b'
     = d_windows b ++ map (fun i => gaussian_window c_expf (2 ^ i)) powers
  /\ d_fft_mag2_gains b'
     = d_fft_mag2_gains b
       ++ map (fun i => window_mag2_gain (2 ^ i) (gaussian_window c_expf (2 ^ i)))
              powers
  /\ d_method b' = d_method b /\ d_channel_freqs b' = d_channel_freqs b
  /\ d_rotate b' = d_rotate b /\ d_corrected_burst b' = d_corrected_burst b.
Proof.
  induction powers as [|i powers IH]; intros b; cbn [fold_left map].
  - rewrite !app_nil_r. repeat split.
  - destruct (IH (fft_setup_step c_expf b i))
      as (H1 & H2 & H3 & H4 & H5 & H6 & H7).
    cbv zeta. rewrite H1, H2, H3, H4, H5, H6, H7.
    cbn [fft_setup_step d_ffts d_windows d_fft_mag2_gains d_method
         d_channel_freqs d_rotate d_corrected_burst].
    rewrite <- !app_assoc. repeat split.
Qed.

Lemma new_powers_length b power :
  length (new_powers b power)
  = Z.to_nat (power + 1 - Z.of_nat (length (d_ffts b))).
Proof. unfold new_powers. rewrite length_map, length_seq. reflexivity. Qed.

Lemma new_powers_lookup b power k :
  (k < Z.to_nat (power + 1 - Z.of_nat (length (d_ffts b))))%nat ->
  new_powers b power !! k = Some (Z.of_nat (length (d_ffts b) + k)).
Proof.
  intros Hk. unfold new_powers. rewrite list_lookup_fmap.
  rewrite lookup_seq_lt by exact Hk. cbn. f_equal. lia.
Qed.

Lemma new_powers_seq b power :
  new_powers b power
  = map Z.of_nat (seq (length (d_ffts b))
                      (Z.to_nat (power + 1 - Z.of_nat (length (d_ffts b))))).
Proof.
  unfold new_powers. cbv zeta.
  generalize (Z.to_nat (power + 1 - Z.of_nat (length (d_ffts b)))) as c.
  generalize (length (d_ffts b)) as n. intros n c.
  replace (seq n c) with (Nat.add n <$> seq 0 c)
    by (rewrite fmap_add_seq; f_equal; lia).
  rewrite <- list_fmap_compose. apply list_fmap_ext. intros k. cbn. lia.
Qed.

Lemma fft_setup_length b power :
  length (d_ffts (fft_setup c_expf b power))
  = Nat.max (length (d_ffts b)) (Z.to_nat (power + 1)).
Proof.
  destruct (fft_setup_fold (new_powers b power) b) as (H1 & _).
  cbv zeta in H1. unfold fft_setup. fold (new_powers b power).
  rewrite H1, length_app, length_map, new_powers_length. lia.
Qed.

Lemma fft_setup_from_empty b power :
  d_ffts b = [] ->
  let powers := map Z.of_nat (seq 0 (Z.to_nat (power + 1))) in
  d_ffts (fft_setup c_expf b power) = map (fun i => 2 ^ i) powers
  /\ d_windows (fft_setup c_expf b power)
     = d_windows b ++ map (fun i => gaussian_window c_expf (2 ^ i)) powers
  /\ d_fft_mag2_gains (fft_setup c_expf b power)
     = d_fft_mag2_gains b
       ++ map (fun i => window_mag2_gain (2 ^ i) (gaussian_window c_expf (2 ^ i)))
              powers.
Proof.
  intros He powers.
  destruct (fft_setup_fold (new_powers b power) b) as (H1 & H2 & H3 & _).
  cbv zeta in H1, H2, H3.
  change (fft_setup c_expf b power)
    with (fold_left (fft_setup_step c_expf) (new_powers b power) b).
  rewrite H1, H2, H3, new_powers_seq, He. cbn [length app Z.of_nat].
  rewrite Z.sub_0_r. auto.
Qed.

(** X1: [fft_setup(power)] keeps every entry the bank already has and
    appends, for each power [i] from [d_ffts.size()] to [power], an engine
    of size [2^i], a Gaussian window of [2^i] weights and its gain; the
    three vectors stay aligned and nothing else in the block changes.
    ([power] is at most 15, so that [fftsize * fftsize] fits an [int].) *)
Theorem fft_setup_bank (b : cf_estimate_impl) (power : Z) :
  power <= 15 ->
  length (d_windows b) = length (d_ffts b) ->
  length (d_fft_mag2_gains b) = length (d_ffts b) ->
  let b' := fft_setup c_expf b power in
  let n := length (d_ffts b) in
  length (d_ffts b') = Nat.max n (Z.to_nat (power + 1))
  /\ length (d_windows b') = length (d_ffts b')
  /\ length (d_fft_mag2_gains b') = length (d_ffts b')
  /\ (forall i, (i < n)%nat ->
        d_ffts b' !! i = d_ffts b !! i
        /\ d_windows b' !! i = d_windows b !! i
        /\ d_fft_mag2_gains b' !! i = d_fft_mag2_gains b !! i)
  /\ (forall i, (n <= i)%nat -> Z.of_nat i <= power ->
        d_ffts b' !! i = Some (2 ^ Z.of_nat i)
        /\ d_windows b' !! i = Some (gaussian_window c_expf (2 ^ Z.of_nat i))
        /\ length (gaussian_window c_expf (2 ^ Z.of_nat i))
           = Z.to_nat (2 ^ Z.of_nat i)
        /\ d_fft_mag2_gains b' !! i
           = Some (window_mag2_gain (2 ^ Z.of_nat i)
                     (gaussian_window c_expf (2 ^ Z.of_nat i))))
  /\ d_method b' = d_method b /\ d_channel_freqs b' = d_channel_freqs b
  /\ d_rotate b' = d_rotate b /\ d_corrected_burst b' = d_corrected_burst b.
Proof.
  intros _ Hw Hg b' n.
  destruct (fft_setup_fold (new_powers b power) b)
    as (H1 & H2 & H3 & H4 & H5 & H6 & H7).
  cbv zeta in H1, H2, H3, H4, H5, H6, H7.
  change (fold_left (fft_setup_step c_expf) (new_powers b power) b) with b'
    in *.
  pose proof (new_powers_length b power) as Hl. fold n in Hl.
  split; [rewrite H1, length_app, length_map, Hl; fold n; lia|].
  split; [rewrite H1, H2, !length_app, !length_map, Hw; reflexivity|].
  split; [rewrite H1, H3, !length_app, !length_map, Hg; reflexivity|].
  split.
  { intros i Hi. rewrite H1, H2, H3.
    rewrite !lookup_app_l by (rewrite ?Hw, ?Hg; exact Hi). auto. }
  split; [|auto].
  intros i Hi Hp.
  assert (Hk : (i - n < Z.to_nat (power + 1 - Z.of_nat n))%nat) by lia.
  pose proof (new_powers_lookup b power (i - n)%nat Hk) as Hlk. fold n in Hlk.
  replace (n + (i - n))%nat with i in Hlk by lia.
  rewrite H1, H2, H3.
  rewrite !lookup_app_r by (rewrite ?Hw, ?Hg; exact Hi).
  rewrite Hw, Hg. fold n. rewrite !list_lookup_fmap, Hlk. cbn.
  repeat split. apply gaussian_window_length.
Qed.

(** X2: a second call of [fft_setup] only adds the powers the first one
    left out: [fft_setup(p)] followed by [fft_setup(q)] leaves the block
    that [fft_setup(max(p, q))] leaves, and a repeated call changes
    nothing.  (The windows are aligned with the engines, as in every
    block the constructor built; [p] and [q] are at most 15.) *)
Theorem fft_setup_twice (b : cf_estimate_impl) (p q : Z) :
  p <= 15 -> q <= 15 ->
  length (d_windows b) = length (d_ffts b) ->
  fft_setup c_expf (fft_setup c_expf b p) q = fft_setup c_expf b (Z.max p q).
Proof.
  intros _ _ _.
  unfold fft_setup at 1. fold (new_powers (fft_setup c_expf b p) q).
  rewrite new_powers_seq, fft_setup_length.
  unfold fft_setup. fold (new_powers b p) (new_powers b (Z.max p q)).
  rewrite <- fold_left_app. f_equal.
  rewrite !new_powers_seq, <- map_app. f_equal.
  set (n := length (d_ffts b)).
  destruct (Z_le_gt_dec (p + 1) (Z.of_nat n)) as [Hp|Hp].
  - replace (Z.to_nat (p + 1 - Z.of_nat n)) with 0%nat by lia.
    cbn [seq app]. replace (Nat.max n (Z.to_nat (p + 1))) with n by lia.
    f_equal. lia.
  - replace (Nat.max n (Z.to_nat (p + 1)))
      with (n + Z.to_nat (p + 1 - Z.of_nat n))%nat by lia.
    rewrite <- seq_app. f_equal. lia.
Qed.

(** X3: the constructor stores the method and the channel list as given
    and builds the whole bank: nine engines of sizes 1, 2, 4, ..., 256,
    each with a window of as many weights as its size and with one gain;
    the burst buffer starts empty. *)
Theorem make_bank (method : Z) (channel_freqs : list float32) :
  let b := make c_expf method channel_freqs in
  d_method b = method /\ d_channel_freqs b = channel_freqs
  /\ d_ffts b = [1; 2; 4; 8; 16; 32; 64; 128; 256]
  /\ Forall2 (fun fftsize window => Z.of_nat (length window) = fftsize)
       (d_ffts b) (d_windows b)
  /\ length (d_fft_mag2_gains b) = length (d_ffts b)
  /\ d_corrected_burst b = [].
Proof. vm_compute. repeat split. repeat constructor. Qed.

(** X4: every window of the bank is symmetric, whatever [std::exp]
    computes: weight [j] and weight [fftsize - 1 - j] are the exponential
    of the same argument. *)
Theorem bank_windows_symmetric (method : Z) (channel_freqs : list float32) :
  Forall (fun window => rev window = window)
    (d_windows (make c_expf method channel_freqs)).
Proof. vm_compute. repeat constructor. Qed.

(** X5: [fft_cleanup] empties the vectors of engines and windows, so the
    bank is no longer ready, but leaves the vector of gains untouched; a
    later [fft_setup(MAX_FFT_POWER)] rebuilds the engines and the windows
    of the constructor and appends a second copy of the gains. *)
Theorem fft_cleanup_setup (method : Z) (channel_freqs : list float32) :
  let b := make c_expf method channel_freqs in
  d_ffts (fft_cleanup b) = [] /\ d_windows (fft_cleanup b) = []
  /\ d_fft_mag2_gains (fft_cleanup b) = d_fft_mag2_gains b
  /\ ~ bank_ready (fft_cleanup b)
  /\ (let b' := fft_setup c_expf (fft_cleanup b) MAX_FFT_POWER in
      d_ffts b' = d_ffts b /\ d_windows b' = d_windows b
      /\ d_fft_mag2_gains b' = d_fft_mag2_gains b ++ d_fft_mag2_gains b).
Proof.
  cbv zeta. generalize (eq_refl (make c_expf method channel_freqs)).
  generalize (make c_expf method channel_freqs) at 1 3 4 5 6 7 8 9 10 11 12.
  intros b Hb.
  split; [reflexivity|]. split; [reflexivity|]. split; [reflexivity|].
  split; [intros [H _]; cbn [fft_cleanup d_ffts length] in H; inversion H|].
  destruct (fft_setup_from_empty (fft_cleanup b) MAX_FFT_POWER eq_refl)
    as (H1 & H2 & H3).
  cbv zeta in H1, H2, H3. rewrite H1, H2, H3.
  cbn [fft_cleanup d_windows d_fft_mag2_gains app].
  rewrite Hb. unfold make.
  match goal with |- context [fft_setup c_expf ?b0 _] =>
    destruct (fft_setup_from_empty b0 MAX_FFT_POWER eq_refl)
      as (G1 & G2 & G3)
  end.
  cbv zeta in G1, G2, G3. rewrite G1, G2, G3.
  cbn [d_windows d_fft_mag2_gains app]. repeat split.
Qed.
End Bank.

Lemma fft_setup_bank_witness :
  length (d_ffts (fft_setup sample_expf bare_block 2))
  = Nat.max (length (d_ffts bare_block)) (Z.to_nat (2 + 1)).
Proof.
  apply (fft_setup_bank sample_expf bare_block 2); [lia | reflexivity..].
Defined.

Lemma fft_setup_twice_witness :
  fft_setup sample_expf (fft_setup sample_expf bare_block 1) 2
  = fft_setup sample_expf bare_block (Z.max 1 2).
Proof.
  apply (fft_setup_twice sample_expf bare_block 1 2); [lia | lia | reflexivity].
Defined.

(** * The plan of the analysis *)

(** X6: for a burst of at least [MIN_NFFTS] samples (and fewer than
    [2^53], so that its size is a [double]) the segments that are
    transformed lie inside the burst and in its middle: [offset + nffts *
    fftsize] does not exceed the burst size, fewer than [fftsize] samples
    are left out, the offset is half of them (the conversion to [uint32_t]
    never wraps), so that at most one more sample is skipped after the
    window than before it; and unless the FFT power was clamped there are
    at most 7 segments. *)
Theorem plan_fft_window (burst_size : Z) :
  MIN_NFFTS <= burst_size < 2 ^ 53 ->
  exists p,
    plan_fft burst_size = Ok p
    /\ copy_size p = nffts p * fftsize p
    /\ offset p = (burst_size - copy_size p) / 2
    /\ 0 <= offset p
    /\ offset p + copy_size p <= burst_size
    /\ burst_size - copy_size p < fftsize p
    /\ 0 <= (burst_size - (offset p + copy_size p)) - offset p <= 1
    /\ (fftpower p < MAX_FFT_POWER -> nffts p <= 7).
Proof.
  intros [HN _]. destruct (plan_fft_ok burst_size HN) as [Hfp Hp].
  cbv zeta in Hfp, Hp.
  set (l := Z.log2 (burst_size / MIN_NFFTS)) in *.
  set (fp := Z.min l MAX_FFT_POWER) in *.
  assert (Hsz : 1 <= 2 ^ fp <= 2 ^ MAX_FFT_POWER).
  { split; [|apply Z.pow_le_mono_r; lia].
    pose proof (Z.pow_pos_nonneg 2 fp). lia. }
  change (2 ^ MAX_FFT_POWER) with 256 in Hsz.
  set (n := 2 ^ fp) in *.
  pose proof (Z.div_mod burst_size n ltac:(lia)) as Hdm.
  pose proof (Z.mod_pos_bound burst_size n ltac:(lia)) as Hmod.
  set (q := burst_size / n) in *.
  assert (Hrem : burst_size - q * n = burst_size mod n) by lia.
  assert (Hhalf : 0 <= (burst_size - q * n) / 2 <= (burst_size - q * n))
    by (split; [apply Z.div_pos; lia | apply Z.div_le_upper_bound; lia]).
  pose proof (Z.div_mod (burst_size - q * n) 2 ltac:(lia)) as Hdm2.
  pose proof (Z.mod_pos_bound (burst_size - q * n) 2 ltac:(lia)) as Hmod2.
  assert (Hoff : Z.max 0 ((burst_size - q * n) / 2) mod 2 ^ 32
                 = (burst_size - q * n) / 2).
  { rewrite Z.max_r by lia. apply Z.mod_small.
    change (2 ^ 32) with 4294967296. lia. }
  eexists. split; [exact Hp|]. cbn [copy_size nffts fftsize offset fftpower].
  rewrite Hoff.
  split; [reflexivity|]. split; [reflexivity|]. split; [lia|].
  split; [lia|]. split; [lia|]. split; [lia|].
  intros Hlt. assert (fp = l) as Hfl by (unfold fp in *; lia).
  assert (Hq1 : 1 <= burst_size / MIN_NFFTS).
  { apply Z.div_le_lower_bound; unfold MIN_NFFTS in *; lia. }
  pose proof (Z.log2_spec (burst_size / MIN_NFFTS) ltac:(lia)) as [_ Hup].
  fold l in Hup. rewrite <- Hfl in Hup.
  replace (2 ^ Z.succ fp) with (2 * n) in Hup
    by (unfold n; rewrite Z.pow_succ_r by lia; reflexivity).
  assert (burst_size < 8 * n).
  { pose proof (Z.div_mod burst_size MIN_NFFTS ltac:(unfold MIN_NFFTS; lia)).
    pose proof (Z.mod_pos_bound burst_size MIN_NFFTS
                  ltac:(unfold MIN_NFFTS; lia)).
    unfold MIN_NFFTS in *. lia. }
  assert (q < 8); [|lia].
  unfold q. apply Z.div_lt_upper_bound; lia.
Qed.

Lemma plan_fft_window_witness :
  exists p, plan_fft 18 = Ok p /\ offset p + copy_size p <= 18.
Proof.
  destruct (plan_fft_window 18) as (p & Hp & _ & _ & _ & Hb & _).
  - vm_compute. split; [discriminate | reflexivity].
  - exists p. split; [exact Hp | exact Hb].
Defined.

(** * The PSD estimate *)

Lemma fold_left_ext_in {A B} (f g : A -> B -> A) (l : list B) : forall a,
  (forall a x, In x l -> f a x = g a x) ->
  fold_left f l a = fold_left g l a.
Proof.
  induction l as [|x l IH]; intros a H; cbn [fold_left]; [reflexivity|].
  rewrite (H a x) by (left; reflexivity).
  apply IH. intros a' y Hy. apply H. right. exact Hy.
Qed.

(** A segment of the analysed samples, cut from the burst or from the
    analysed samples themselves. *)
Lemma segment_of_window {A} (data : list A) (off n count ii : nat) :
  (ii < count)%nat ->
  firstn n (skipn (off + ii * n) data)
  = firstn n (skipn (ii * n) (firstn (count * n) (skipn off data))).
Proof.
  intros Hii.
  rewrite <- drop_drop.
  rewrite !take_drop_commute.
  rewrite take_take. do 3 f_equal. nia.
Qed.

Section Psd.
Variable fft_execute : Z -> list gr_complex -> list gr_complex.

(** X7: the PSD estimate reads only the [nffts * fftsize] samples that
    start at [offset]: two bursts that agree on them have the same PSD,
    whatever precedes or follows them. *)
Theorem psd_of_center_segment (engine : Z) (window : list float32)
    (p : fft_plan) (data data' : list gr_complex) :
  let count := (Z.to_nat (nffts p) * Z.to_nat (fftsize p))%nat in
  firstn count (skipn (Z.to_nat (offset p)) data)
  = firstn count (skipn (Z.to_nat (offset p)) data') ->
  psd_estimate fft_execute engine window p data
  = psd_estimate fft_execute engine window p data'.
Proof.
  intros count Heq. unfold psd_estimate. do 2 f_equal.
  apply fold_left_ext_in. intros mags2 ii Hii.
  apply in_seq in Hii. unfold psd_accumulate.
  rewrite (segment_of_window data _ _ (Z.to_nat (nffts p)) ii) by lia.
  rewrite (segment_of_window data' _ _ (Z.to_nat (nffts p)) ii) by lia.
  fold count. rewrite Heq. reflexivity.
Qed.
End Psd.

Lemma psd_of_center_segment_witness :
  plan_fft (Z.of_nat (length burst_18)) = Ok plan_18
  /\ psd_estimate sample_fft 4 [F32.one; F32.one; F32.one; F32.one] plan_18
       burst_18
     = psd_estimate sample_fft 4 [F32.one; F32.one; F32.one; F32.one] plan_18
         burst_18'.
Proof.
  split; [reflexivity|].
  apply (psd_of_center_segment sample_fft 4
           [F32.one; F32.one; F32.one; F32.one] plan_18 burst_18 burst_18').
  reflexivity.
Defined.

(** * Reading the frequency axis *)

Lemma rms_top_integral_bounds mags2 : forall freq_axis top,
  ((length mags2 <= length freq_axis)%nat ->
   exists top', rms_top_integral top mags2 freq_axis = Ok top')
  /\ ((length freq_axis < length mags2)%nat ->
      rms_top_integral top mags2 freq_axis = Err undefined_behaviour).
Proof.
  induction mags2 as [|p mags2 IH]; intros [|f freq_axis] top;
    cbn [rms_top_integral length]; split; intros H; try lia; eauto.
  - apply IH. lia.
  - apply IH. lia.
Qed.

Section Axis.
Variable c_pow : double -> double -> double.
Variable c_log10 : double -> double.

Lemma rms_bw_top_integral_bounds mags2 cf : forall freq_axis top,
  ((length mags2 <= length freq_axis)%nat ->
   exists top', rms_bw_top_integral c_pow top mags2 freq_axis cf = Ok top')
  /\ ((length freq_axis < length mags2)%nat ->
      rms_bw_top_integral c_pow top mags2 freq_axis cf
      = Err undefined_behaviour).
Proof.
  induction mags2 as [|p mags2 IH]; intros [|f freq_axis] top;
    cbn [rms_bw_top_integral length]; split; intros H; try lia; eauto.
  - apply IH. lia.
  - apply IH. lia.
Qed.

Lemma estimate_pwr_sum_bounds mags2 start stop : forall freq_axis acc,
  ((length mags2 <= length freq_axis)%nat ->
   exists power, estimate_pwr_sum acc start stop mags2 freq_axis = Ok power)
  /\ ((length freq_axis < length mags2)%nat ->
      estimate_pwr_sum acc start stop mags2 freq_axis
      = Err undefined_behaviour).
Proof.
  induction mags2 as [|p mags2 IH]; intros [|f freq_axis] acc;
    cbn [estimate_pwr_sum length]; split; intros H; try lia; eauto.
  - apply IH. lia.
  - apply IH. lia.
Qed.

(** X9: [rms], [rms_bw] and [estimate_pwr] read [freq_axis[i]] for every
    index of [mags2] without comparing the sizes: with an axis at least as
    long as the PSD all three return (entries of the axis past the PSD are
    ignored), with a shorter axis all three read past its end. *)
Theorem axis_too_short (mags2 freq_axis : list float32)
    (center_frequency sample_rate bandwidth fft_mag2_gain : float32) :
  ((length mags2 <= length freq_axis)%nat ->
   (exists shift, rms mags2 freq_axis center_frequency sample_rate = Ok shift)
   /\ (exists bw, rms_bw c_pow mags2 freq_axis center_frequency = Ok bw)
   /\ (exists pwr_db,
         estimate_pwr c_log10 mags2 freq_axis center_frequency bandwidth
           fft_mag2_gain = Ok pwr_db))
  /\ ((length freq_axis < length mags2)%nat ->
      rms mags2 freq_axis center_frequency sample_rate
      = Err undefined_behaviour
      /\ rms_bw c_pow mags2 freq_axis center_frequency
         = Err undefined_behaviour
      /\ estimate_pwr c_log10 mags2 freq_axis center_frequency bandwidth
           fft_mag2_gain = Err undefined_behaviour).
Proof.
  unfold rms, rms_bw, estimate_pwr. split; intros H.
  - destruct (proj1 (rms_top_integral_bounds mags2 freq_axis 0%float) H)
      as [t1 ->].
    destruct (proj1 (rms_bw_top_integral_bounds mags2 center_frequency
                       freq_axis 0%float) H) as [t2 ->].
    match goal with |- context [estimate_pwr_sum ?a ?s ?t _ _] =>
      destruct (proj1 (estimate_pwr_sum_bounds mags2 s t freq_axis a) H)
        as [t3 ->]
    end.
    cbn [res_bind]. repeat split; eexists; reflexivity.
  - rewrite (proj2 (rms_top_integral_bounds mags2 freq_axis 0%float) H).
    rewrite (proj2 (rms_bw_top_integral_bounds mags2 center_frequency
                      freq_axis 0%float) H).
    match goal with |- context [estimate_pwr_sum ?a ?s ?t _ _] =>
      rewrite (proj2 (estimate_pwr_sum_bounds mags2 s t freq_axis a) H)
    end.
    cbn [res_bind]. auto.
Qed.
End Axis.

Lemma axis_too_short_witness :
  rms [F32.one; F32.one] [F32.one] F32.one F32.one = Err undefined_behaviour
  /\ rms_bw sample_pow [F32.one; F32.one] [F32.one] F32.one
     = Err undefined_behaviour
  /\ estimate_pwr sample_log10 [F32.one; F32.one] [F32.one] F32.one F32.one
       F32.one = Err undefined_behaviour.
Proof.
  apply (proj2 (axis_too_short sample_pow sample_log10 [F32.one; F32.one]
                  [F32.one] F32.one F32.one F32.one F32.one)).
  cbn. lia.
Defined.

(** * The sign of the bandwidth *)

Lemma sqrtrem_fst_nonneg m : 0 <= m -> 0 <= fst (IntDef.Z.sqrtrem m).
Proof.
  intros H. change IntDef.Z.sqrtrem with Z.sqrtrem.
  rewrite Z.sqrtrem_sqrt. apply Z.sqrt_nonneg.
Qed.

(** A square root is NaN or not negative. *)
Lemma SFsqrt_nonneg_or_nan prec emax x :
  nonneg_or_nan (SFsqrt prec emax x) = true.
Proof.
  unfold nonneg_or_nan.
  destruct x as [s|s| |s m e]; cbn [SFsqrt]; try reflexivity;
    try (destruct s; reflexivity).
  destruct s; [reflexivity|].
  unfold SFsqrt_core_binary.
  match goal with |- context [IntDef.Z.sqrtrem ?a] =>
    assert (Hq : 0 <= fst (IntDef.Z.sqrtrem a));
    [apply sqrtrem_fst_nonneg | destruct (IntDef.Z.sqrtrem a) as [q r]]
  end.
  - match goal with |- 0 <= match ?s with _ => _ end =>
      destruct s eqn:Es; try lia
    end.
    rewrite shiftl_pow2 by lia. lia.
  - cbn [fst] in Hq. rewrite binary_round_aux_nonneg by exact Hq.
    apply orb_true_r.
Qed.

(** The value [rms_bw] returns when it returns. *)
Lemma rms_bw_value c_pow mags2 freq_axis center_frequency bandwidth :
  rms_bw c_pow mags2 freq_axis center_frequency = Ok bandwidth ->
  exists top_integral,
    bandwidth
    = F32.of_double (PrimFloat.sqrt (top_integral / energy_of mags2)).
Proof.
  unfold rms_bw.
  destruct (rms_bw_top_integral c_pow 0 mags2 freq_axis center_frequency)
    as [top|]; cbn [res_bind]; [|discriminate].
  intros H. injection H as <-. eauto.
Qed.

Lemma of_double_sqrt_sign x :
  nonneg_or_nan (F32.of_double (PrimFloat.sqrt x)) = true.
Proof.
  apply of_double_nonneg_or_nan. rewrite sqrt_spec.
  apply SFsqrt_nonneg_or_nan.
Qed.

(** X10: whatever the PSD, the axis and [std::pow] are, the bandwidth
    that [rms_bw] returns is never a negative number: it is NaN, a zero, a
    positive number or [+inf]. *)
Theorem rms_bw_not_negative (c_pow : double -> double -> double)
    (mags2 freq_axis : list float32) (center_frequency bandwidth : float32) :
  rms_bw c_pow mags2 freq_axis center_frequency = Ok bandwidth ->
  nonneg_or_nan bandwidth = true.
Proof.
  intros H.
  destruct (rms_bw_value c_pow mags2 freq_axis center_frequency bandwidth H)
    as [top ->].
  unfold nonneg_or_nan.
  pose proof (of_double_sqrt_sign (top / energy_of mags2)) as Hs.
  unfold nonneg_or_nan in Hs. exact Hs.
Qed.

Lemma rms_bw_not_negative_witness :
  exists bandwidth,
    rms_bw sample_pow [F32.one; F32.one] [F32.one; F32.two] F32.one
    = Ok bandwidth
    /\ nonneg_or_nan bandwidth = true.
Proof.
  eexists. split; [vm_compute; reflexivity|].
  apply (rms_bw_not_negative sample_pow [F32.one; F32.one]
           [F32.one; F32.two] F32.one).
  vm_compute. reflexivity.
Defined.

(** * The band of the power estimate *)

Lemma float_ltb_trans x y z :
  (x <? y)%float = true -> (y <? z)%float = true -> (x <? z)%float = true.
Proof. rewrite !ltb_spec. apply SFltb_trans. Qed.

Lemma estimate_pwr_sum_empty_band mags2 start stop : forall freq_axis acc,
  (start <? stop)%float = false ->
  (length mags2 <= length freq_axis)%nat ->
  estimate_pwr_sum acc start stop mags2 freq_axis = Ok acc.
Proof.
  induction mags2 as [|p mags2 IH]; intros [|f freq_axis] acc Hband Hlen;
    cbn [estimate_pwr_sum length] in *; try reflexivity; try lia.
  destruct (start <? F32.to_double f)%float eqn:H1;
    destruct (F32.to_double f <? stop)%float eqn:H2; cbn [andb];
    try (apply IH; [exact Hband | lia]).
  rewrite (float_ltb_trans _ _ _ H1 H2) in Hband. discriminate.
Qed.

Lemma Prim2SF_to_double_zero_or_nan p :
  zero_or_nan p = true -> Prim2SF (F32.to_double p) = p.
Proof.
  destruct p as [s|s| |s m e]; try discriminate; intros _;
    [destruct s|]; reflexivity.
Qed.

Lemma band_of_zero_or_nan (cf : double) (bandwidth : float32) :
  zero_or_nan bandwidth = true ->
  (cf - F32.to_double bandwidth / 2 <? cf + F32.to_double bandwidth / 2)%float
  = false.
Proof.
  intros Hb. rewrite ltb_spec, sub_spec, add_spec, !div_spec.
  rewrite Prim2SF_to_double_zero_or_nan by exact Hb.
  change (Prim2SF 2) with sf_two.
  destruct bandwidth as [s|s| |s m e]; try discriminate.
  - unfold SF64div, SF64sub, SF64add, sf_two. cbn [SFdiv xorb].
    destruct (Prim2SF cf) as [sx|sx| |sx mx ex]; destruct s;
      try reflexivity; try (destruct sx; reflexivity);
      cbn [SFsub SFadd SFopp negb]; apply SFltb_irrefl.
  - destruct (Prim2SF cf); reflexivity.
Qed.

(** X11: [estimate_pwr] counts a bin only when its frequency lies
    strictly between [center_frequency - bandwidth / 2] and
    [center_frequency + bandwidth / 2]; when the lower edge is not below
    the upper one no bin is counted and the result is
    [10 * log10(0 / fft_mag2_gain)].  This is the case for a bandwidth
    that is zero or NaN (the bandwidth of an all-zero PSD is NaN). *)
Theorem estimate_pwr_empty_band (c_log10 : double -> double)
    (mags2 freq_axis : list float32)
    (center_frequency bandwidth fft_mag2_gain : float32) :
  (length mags2 <= length freq_axis)%nat ->
  ((F32.to_double center_frequency - F32.to_double bandwidth / 2
    <? F32.to_double center_frequency + F32.to_double bandwidth / 2)%float
   = false ->
   estimate_pwr c_log10 mags2 freq_axis center_frequency bandwidth fft_mag2_gain
   = Ok (F32.of_double (10 * c_log10 (0 / F32.to_double fft_mag2_gain))%float))
  /\ (zero_or_nan bandwidth = true ->
      estimate_pwr c_log10 mags2 freq_axis center_frequency bandwidth
        fft_mag2_gain
      = Ok (F32.of_double (10 * c_log10 (0 / F32.to_double fft_mag2_gain))%float)).
Proof.
  intros Hlen.
  assert (H : (F32.to_double center_frequency - F32.to_double bandwidth / 2
               <? F32.to_double center_frequency + F32.to_double bandwidth / 2)%float
              = false ->
              estimate_pwr c_log10 mags2 freq_axis center_frequency bandwidth
                fft_mag2_gain
              = Ok (F32.of_double
                      (10 * c_log10 (0 / F32.to_double fft_mag2_gain))%float)).
  { intros Hband. unfold estimate_pwr.
    rewrite estimate_pwr_sum_empty_band by assumption. reflexivity. }
  split; [exact H|]. intros Hb. apply H, band_of_zero_or_nan, Hb.
Qed.

Lemma estimate_pwr_empty_band_witness :
  estimate_pwr sample_log10 [F32.one; F32.two] [F32.one; F32.two] F32.one
    S754_nan F32.one
  = Ok (F32.of_double (10 * sample_log10 (0 / F32.to_double F32.one))%float).
Proof.
  refine (proj2 (estimate_pwr_empty_band sample_log10 [F32.one; F32.two]
                   [F32.one; F32.two] F32.one S754_nan F32.one _) _).
  - cbn. lia.
  - reflexivity.
Defined.

(** * The half-power scan on any PSD *)

Lemma half_power_index mags2 shift :
  mags2 <> [] ->
  half_power mags2 = Ok shift ->
  exists k, (k < length mags2)%nat
    /\ shift = half_power_offset k (length mags2).
Proof.
  intros Hne. unfold half_power, half_power_loop.
  destruct (half_power_scan _ 0 0 0 mags2) as [st|] eqn:Hst;
    cbn [res_bind]; [|discriminate].
  intros H. injection H as <-.
  exists (scan_half_power_idx st). split; [|reflexivity].
  destruct (half_power_scan_inv _ _ _ _ _ _ Hst)
    as [(_ & -> & _)|(k & Hk & _ & -> & _)].
  - destruct mags2; [congruence | cbn; lia].
  - lia.
Qed.

(** The offsets of all indexes of all the sizes of the bank, evaluated one
    by one. *)
Lemma offsets_in_range_all :
  forallb offsets_in_range (seq 0 9) = true.
Proof. vm_compute. reflexivity. Qed.

Lemma half_power_offsets_checked mags2 shift p :
  0 <= p <= MAX_FFT_POWER ->
  Z.of_nat (length mags2) = 2 ^ p ->
  half_power mags2 = Ok shift ->
  in_range32 minus_half32 plus_half32 shift = true
  /\ SFltb shift plus_half32 = true.
Proof.
  intros Hp Hlen Hs.
  assert (Hne : mags2 <> []).
  { intros ->. cbn in Hlen. pose proof (Z.pow_pos_nonneg 2 p). lia. }
  destruct (half_power_index mags2 shift Hne Hs) as (k & Hk & ->).
  pose proof offsets_in_range_all as Hall.
  rewrite forallb_forall in Hall.
  assert (Hp' : In (Z.to_nat p) (seq 0 9)).
  { apply in_seq. unfold MAX_FFT_POWER in Hp. lia. }
  specialize (Hall _ Hp'). unfold offsets_in_range in Hall.
  rewrite forallb_forall in Hall.
  assert (Hl : length mags2 = (2 ^ Z.to_nat p)%nat).
  { apply Nat2Z.inj. rewrite Hlen, Nat2Z.inj_pow, Z2Nat.id by lia.
    reflexivity. }
  rewrite Hl in *.
  specialize (Hall k ltac:(apply in_seq; lia)).
  apply andb_prop in Hall. exact Hall.
Qed.

(** Rounding with the sign bit set yields nothing above zero. *)
Lemma binary_round_aux_neg_not_positive prec emax m e l :
  positive_sf (binary_round_aux prec emax true m e l) = false.
Proof.
  unfold binary_round_aux.
  destruct (shr_fexp prec emax m e l) as [mrs' e'].
  destruct (shr_fexp prec emax _ e' loc_Exact) as [mrs'' e''].
  destruct (shr_m mrs'') as [|p|p]; try reflexivity.
  destruct (e'' <=? emax - prec); reflexivity.
Qed.

(** A positive half comes from a total that is not negative. *)
Lemma half_positive_total_nonneg x :
  (0 <? x / 2)%float = true -> nonneg (Prim2SF x) = true.
Proof.
  rewrite ltb_spec, div_spec, Prim2SF_two, Prim2SF_zero.
  unfold SF64div, sf_two.
  destruct (Prim2SF x) as [s|s| |s m e]; cbn [SFdiv nonneg xorb];
    try discriminate; try reflexivity.
  - destruct s; [discriminate | reflexivity].
  - destruct s; [|reflexivity]. cbn [xorb].
    destruct (SFdiv_core_binary prec emax (Z.pos m) e 4503599627370496 (-51))
      as [[mz ez] lz].
    pose proof (binary_round_aux_neg_not_positive prec emax mz ez lz) as Hn.
    destruct (binary_round_aux prec emax true mz ez lz) as [sr|sr| |sr mr er];
      try discriminate; destruct sr; discriminate.
Qed.

(** The loop starts only when half the total is above zero; the total is
    then not negative, hence not below its half, and the running total
    after the last bin is the total itself. *)
Lemma half_power_loop_total mags2 :
  exists st,
    half_power_loop mags2 = Ok st
    /\ (scan_i st <= length mags2)%nat
    /\ (mags2 <> [] -> (scan_half_power_idx st < length mags2)%nat).
Proof.
  unfold half_power_loop.
  destruct (0 <? energy_of mags2 / 2)%float eqn:Hstart.
  - assert (Hend : (fold_left add_bin mags2 0 <? energy_of mags2 / 2)%float
                   = false).
    { apply ltb_half_false. rewrite leb_zero.
      apply half_positive_total_nonneg, Hstart. }
    destruct (half_power_scan_ok (energy_of mags2 / 2)%float mags2 0%float
                0%nat 0%nat Hend) as (st & Hst & Hb & Hc).
    exists st. split; [exact Hst|]. split; [lia|].
    intros Hne. destruct mags2 as [|p mags2]; [congruence|].
    cbn [length] in *. destruct Hc as [[Hi Hx]|[Hi Hx]]; lia.
  - exists {| scan_i := 0; scan_running_total := 0%float;
              scan_half_power_idx := 0 |}.
    split; [destruct mags2; cbn [half_power_scan]; rewrite Hstart; reflexivity|].
    cbn [scan_i scan_half_power_idx]. split; [lia|].
    intros Hne. destruct mags2; [congruence | cbn [length]; lia].
Qed.

(** X12: whatever the bins are (negative, infinite or NaN bins included),
    the scan of [half_power] ends without reading past the end of the PSD,
    at an index inside it, and [half_power] returns; on a PSD of one of the
    sizes of the bank ([2^p] bins, [p] up to [MAX_FFT_POWER]) the shift it
    returns lies in [-0.5, 0.5). *)
Theorem half_power_never_overruns (mags2 : list float32) :
  (exists st,
     half_power_loop mags2 = Ok st
     /\ (scan_i st <= length mags2)%nat
     /\ (mags2 <> [] -> (scan_half_power_idx st < length mags2)%nat))
  /\ (exists shift, half_power mags2 = Ok shift)
  /\ (forall p, 0 <= p <= MAX_FFT_POWER -> Z.of_nat (length mags2) = 2 ^ p ->
      exists shift,
        half_power mags2 = Ok shift
        /\ in_range32 minus_half32 plus_half32 shift = true
        /\ SFltb shift plus_half32 = true).
Proof.
  destruct (half_power_loop_total mags2) as (st & Hst & Hi & Hx).
  assert (Hs : half_power mags2
               = Ok (half_power_offset (scan_half_power_idx st) (length mags2)))
    by (unfold half_power; rewrite Hst; reflexivity).
  split; [eauto|]. split; [eauto|].
  intros p Hp Hlen. eexists. split; [exact Hs|].
  exact (half_power_offsets_checked mags2 _ p Hp Hlen Hs).
Qed.

(** The index at which the loop of [half_power] stops on any PSD. *)
Lemma half_power_stop_index (mags2 : list float32) :
  let half := (energy_of mags2 / 2)%float in
  exists k,
    half_power mags2
    = Ok (F32.of_double
            (double_of_nat k / double_of_nat (length mags2) - 0.5)%float)
    /\ ((0 <? half)%float = false -> k = 0%nat)
    /\ ((0 <? half)%float = true ->
        (k < length mags2)%nat
        /\ (running_total_upto mags2 (S k) <? half)%float = false
        /\ forall j, (j <= k)%nat ->
             (running_total_upto mags2 j <? half)%float = true).
Proof.
  intros half.
  destruct (half_power_loop_total mags2) as (st & Hst & _ & _).
  unfold half_power. rewrite Hst. cbn [res_bind].
  exists (scan_half_power_idx st). split; [reflexivity|].
  unfold half_power_loop in Hst. fold half in Hst.
  destruct (half_power_scan_inv half mags2 0%float 0%nat 0%nat st Hst)
    as [(_ & Hx & H0)|(k & Hk & _ & Hx & Hge & Hall)].
  - rewrite Hx. split; [reflexivity|]. intros H. rewrite H in H0. discriminate.
  - cbn [Nat.add] in Hx. rewrite Hx.
    assert (Hstart : (0 <? half)%float = true) by (apply (Hall 0%nat); lia).
    split; [intros H; rewrite H in Hstart; discriminate|].
    intros _. split; [exact Hk|]. split; [exact Hge | exact Hall].
Qed.

(** X28: what [half_power] returns on any PSD: [k / size - 0.5], computed
    in [double] and stored in a [float], for the index [k] at which its
    loop stopped.  When half the total energy is not above zero (zero,
    negative or NaN total) the loop never runs and [k] is 0; otherwise [k]
    is the first index after which the running total is no longer below
    half the total: it is still below it before each of the bins 0..k is
    added, and no longer after bin [k].  On a PSD of [2^p] bins, [p] up to
    8, the value returned is the rational [k / size - 1/2] itself, so it
    is [-1/2] when the loop never runs. *)
Theorem half_power_result (mags2 : list float32) :
  let half := (energy_of mags2 / 2)%float in
  exists k,
    half_power mags2
    = Ok (F32.of_double
            (double_of_nat k / double_of_nat (length mags2) - 0.5)%float)
    /\ ((0 <? half)%float = false -> k = 0%nat)
    /\ ((0 <? half)%float = true ->
        (k < length mags2)%nat
        /\ (running_total_upto mags2 (S k) <? half)%float = false
        /\ forall j, (j <= k)%nat ->
             (running_total_upto mags2 j <? half)%float = true)
    /\ (forall p, (p <= 8)%nat -> length mags2 = (2 ^ p)%nat ->
        exists shift q,
          half_power mags2 = Ok shift
          /\ rational_of shift = Some q
          /\ (q == inject_Z (Z.of_nat k)
                    / inject_Z (Z.of_nat (length mags2)) - (1 # 2))%Q
          /\ ((0 <? half)%float = false -> (q == - (1 # 2))%Q)).
Proof.
  intros half.
  destruct (half_power_stop_index mags2) as (k & Hhp & H0 & H1).
  fold half in H0, H1.
  exists k. split; [exact Hhp|]. split; [exact H0|]. split; [exact H1|].
  intros p Hp Hlen.
  assert (Hk : (k < length mags2)%nat).
  { destruct (0 <? half)%float.
    - apply H1. reflexivity.
    - rewrite (H0 eq_refl), Hlen.
      pose proof (Nat.pow_nonzero 2 p). lia. }
  destruct (half_power_offset_exact p k (length mags2) Hp Hlen Hk)
    as (q & Hq & Heq).
  eexists _, q. split; [exact Hhp|]. split; [exact Hq|].
  split; [exact Heq|].
  intros Hn. rewrite Heq, (H0 Hn). reflexivity.
Qed.

(** * A NaN bin *)

Lemma fold_add_nan mags2 : forall acc,
  is_nan64 acc = true \/ Exists (fun p => F32.is_nan p = true) mags2 ->
  is_nan64 (fold_left add_bin mags2 acc) = true.
Proof.
  unfold is_nan64.
  induction mags2 as [|p mags2 IH]; intros acc H; cbn [fold_left].
  - destruct H as [H|H]; [exact H | inversion H].
  - apply IH. unfold add_bin.
    destruct H as [H|H].
    + left. rewrite add_spec. destruct (Prim2SF acc); try discriminate.
      reflexivity.
    + inversion H as [? ? Hp|? ? Hp]; subst; [|right; exact Hp].
      left. rewrite add_spec. destruct p; try discriminate.
      cbn. destruct (Prim2SF acc); reflexivity.
Qed.

Lemma is_nan64_eq x : is_nan64 x = true -> Prim2SF x = S754_nan.
Proof. unfold is_nan64. destruct (Prim2SF x); try discriminate. reflexivity. Qed.

(** X13: a single NaN bin makes the total energy NaN; [half_power] then
    never enters its loop and returns exactly -0.5, while [rms] and
    [rms_bw] return NaN. *)
Theorem nan_bin_estimates (c_pow : double -> double -> double)
    (mags2 freq_axis : list float32)
    (center_frequency sample_rate : float32) :
  Exists (fun p => F32.is_nan p = true) mags2 ->
  Z.of_nat (length mags2) < 2 ^ 63 ->
  (length mags2 <= length freq_axis)%nat ->
  half_power mags2 = Ok minus_half32
  /\ rms mags2 freq_axis center_frequency sample_rate = Ok S754_nan
  /\ rms_bw c_pow mags2 freq_axis center_frequency = Ok S754_nan.
Proof.
  intros Hnan Hsize Hlen.
  pose proof (fold_add_nan mags2 0%float (or_intror Hnan)) as He.
  fold (energy_of mags2) in He. apply is_nan64_eq in He.
  split; [|split].
  - unfold half_power, half_power_loop.
    assert (Hthr : (0 <? energy_of mags2 / 2)%float = false).
    { rewrite ltb_spec, div_spec, He. reflexivity. }
    destruct mags2 as [|p mags2]; [inversion Hnan|].
    cbn [half_power_scan]. rewrite Hthr. cbn [res_bind scan_half_power_idx].
    rewrite half_power_offset_zero; [reflexivity | cbn; lia | exact Hsize].
  - unfold rms.
    destruct (proj1 (rms_top_integral_bounds mags2 freq_axis 0%float) Hlen)
      as [top ->].
    cbn [res_bind]. f_equal.
    apply of_double_nan, nan_div, nan_sub. rewrite div_spec, He.
    destruct (Prim2SF top); reflexivity.
  - unfold rms_bw.
    destruct (proj1 (rms_bw_top_integral_bounds c_pow mags2 center_frequency
                       freq_axis 0%float) Hlen) as [top ->].
    cbn [res_bind]. f_equal.
    apply of_double_nan, nan_sqrt. rewrite div_spec, He.
    destruct (Prim2SF top); reflexivity.
Qed.

Lemma nan_bin_estimates_witness :
  half_power [F32.one; S754_nan] = Ok minus_half32
  /\ rms [F32.one; S754_nan] [F32.one; F32.two] F32.one F32.one = Ok S754_nan
  /\ rms_bw sample_pow [F32.one; S754_nan] [F32.one; F32.two] F32.one
     = Ok S754_nan.
Proof.
  apply (nan_bin_estimates sample_pow [F32.one; S754_nan] [F32.one; F32.two]
           F32.one F32.one).
  - right. left. reflexivity.
  - vm_compute. reflexivity.
  - cbn. lia.
Defined.

(** * More on the frequency coercion *)

Lemma SFltb_leb_trans a b c :
  SFltb a b = true -> SFleb b c = true -> SFltb a c = true.
Proof.
  unfold SFltb, SFleb, SFcompare.
  change (Pos.compare_cont Eq) with Pos.compare.
  destruct a as [sa|sa| |sa ma ea], b as [sb|sb| |sb mb eb],
           c as [sc|sc| |sc mc ec];
    try discriminate; try reflexivity;
    try (destruct sa; try discriminate);
    try (destruct sb; try discriminate);
    try (destruct sc; try discriminate);
    try reflexivity; intros Hab Hbc; sf_order_cases.
Qed.

Lemma SFltb_nan_r x : SFltb x S754_nan = false.
Proof. destruct x; reflexivity. Qed.

Lemma SFltb_not_nan a b : SFltb a b = true ->
  F32.is_nan a = false /\ F32.is_nan b = false.
Proof. destruct a, b; try discriminate; auto. Qed.

Lemma channel_distance_nan_l cf c :
  F32.is_nan c = true -> channel_distance cf c = S754_nan.
Proof. destruct c; try discriminate. reflexivity. Qed.

Lemma channel_distance_nan_r cf c :
  F32.is_nan cf = true -> channel_distance cf c = S754_nan.
Proof. destruct cf; try discriminate. destruct c; reflexivity. Qed.

Lemma channel_distance_sign cf c :
  F32.is_nan (channel_distance cf c) = true
  \/ nonneg (channel_distance cf c) = true.
Proof.
  unfold channel_distance, F32.abs.
  destruct (F32.sub c cf); cbn; auto.
Qed.

Lemma coerce_search_first cf rest : forall pre dist ch i,
  search_state cf pre dist ch i ->
  exists i',
    search_state cf (pre ++ rest)
      (fst (coerce_search cf dist ch rest))
      (snd (coerce_search cf dist ch rest)) i'.
Proof.
  induction rest as [|c rest IH]; intros pre dist ch i Hs;
    cbn [coerce_search].
  - rewrite app_nil_r. eauto.
  - fold (channel_distance cf c).
    replace (pre ++ c :: rest) with ((pre ++ [c]) ++ rest)
      by (rewrite <- app_assoc; reflexivity).
    destruct Hs as (Hi & Hd & Hbefore & Hafter).
    pose proof (lookup_lt_Some _ _ _ Hi) as Hlt.
    destruct (F32.ltb (channel_distance cf c) dist) eqn:Hc.
    + apply (IH (pre ++ [c]) _ _ (length pre)).
      split; [|split; [reflexivity|split]].
      * rewrite lookup_app_r by lia. rewrite Nat.sub_diag. reflexivity.
      * intros j c' Hj Hc'. rewrite lookup_app_l in Hc' by exact Hj.
        destruct (SFltb_not_nan _ _ Hc) as [_ Hdn].
        destruct (Nat.lt_trichotomy j i) as [Hji|[->|Hji]].
        -- destruct (Hbefore j c' Hji Hc') as [Hn|Hl]; [left; exact Hn|].
           right. exact (SFltb_trans _ _ _ Hc Hl).
        -- right. rewrite Hi in Hc'. injection Hc' as <-. rewrite <- Hd.
           exact Hc.
        -- specialize (Hafter j c' Hji Hc').
           destruct (channel_distance_sign cf c') as [Hn|Hpos]; [left; exact Hn|].
           right. unfold F32.ltb in *.
           apply (SFltb_leb_trans _ dist); [exact Hc|].
           apply SFltb_nonneg_total; [exact Hpos| |exact Hafter].
           rewrite Hd in *.
           destruct (channel_distance_sign cf ch) as [Hn|Hp]; [|exact Hp].
           rewrite Hn in Hdn. discriminate.
      * intros j c' Hj Hc'. apply lookup_lt_Some in Hc'.
        rewrite length_app in Hc'. cbn [length] in Hc'. lia.
    + apply (IH (pre ++ [c]) _ _ i).
      split; [|split; [exact Hd|split]].
      * rewrite lookup_app_l by exact Hlt. exact Hi.
      * intros j c' Hj Hc'. rewrite lookup_app_l in Hc' by lia.
        exact (Hbefore j c' Hj Hc').
      * intros j c' Hj Hc'.
        destruct (Nat.lt_ge_cases j (length pre)) as [Hjl|Hjl].
        -- rewrite lookup_app_l in Hc' by exact Hjl.
           exact (Hafter j c' Hj Hc').
        -- rewrite lookup_app_r in Hc' by exact Hjl.
           destruct (j - length pre)%nat as [|n] eqn:E; cbn in Hc';
             [|destruct n; discriminate].
           injection Hc' as <-. exact Hc.
Qed.

(** X14: among the candidates at the least distance [coerce_frequency]
    settles on the first in the list: the candidate it uses is strictly
    nearer to the estimate than every earlier candidate (an earlier
    candidate whose distance is NaN aside), and no later candidate is
    strictly nearer than it. *)
Theorem coerce_frequency_first_nearest (freqs : list float32)
    (center_frequency sample_rate : float32) :
  freqs <> [] ->
  exists i ch,
    freqs !! i = Some ch
    /\ coerce_frequency freqs center_frequency sample_rate
       = F32.div (F32.sub ch center_frequency) sample_rate
    /\ (forall j c, (j < i)%nat -> freqs !! j = Some c ->
          F32.is_nan (channel_distance center_frequency c) = true
          \/ F32.ltb (channel_distance center_frequency ch)
                     (channel_distance center_frequency c) = true)
    /\ (forall j c, (i < j)%nat -> freqs !! j = Some c ->
          F32.ltb (channel_distance center_frequency c)
                  (channel_distance center_frequency ch) = false).
Proof.
  destruct freqs as [|c0 rest]; [congruence|]. intros _.
  destruct (coerce_search_first center_frequency rest [c0]
              (channel_distance center_frequency c0) c0 0%nat)
    as (i & Hi & Hd & Hb & Ha).
  { split; [reflexivity|]. split; [reflexivity|].
    split; intros j c Hj Hc; [lia|].
    destruct j; [lia | discriminate]. }
  cbn [app] in Hi, Hb, Ha. rewrite Hd in Hb, Ha.
  eexists i, _. split; [exact Hi|].
  split; [reflexivity|]. split; assumption.
Qed.

Lemma coerce_frequency_first_nearest_witness :
  exists i ch,
    [F32.zero; F32.two; F32.one] !! i = Some ch
    /\ coerce_frequency [F32.zero; F32.two; F32.one] F32.one F32.one
       = F32.div (F32.sub ch F32.one) F32.one
    /\ (forall j c, (j < i)%nat ->
          [F32.zero; F32.two; F32.one] !! j = Some c ->
          F32.is_nan (channel_distance F32.one c) = true
          \/ F32.ltb (channel_distance F32.one ch)
                     (channel_distance F32.one c) = true)
    /\ (forall j c, (i < j)%nat ->
          [F32.zero; F32.two; F32.one] !! j = Some c ->
          F32.ltb (channel_distance F32.one c)
                  (channel_distance F32.one ch) = false).
Proof.
  apply (coerce_frequency_first_nearest [F32.zero; F32.two; F32.one]
           F32.one F32.one).
  discriminate.
Defined.

Lemma coerce_search_skip_nan cf c l2 : forall l1 dist ch,
  F32.is_nan c = true ->
  coerce_search cf dist ch (l1 ++ c :: l2)
  = coerce_search cf dist ch (l1 ++ l2).
Proof.
  induction l1 as [|x l1 IH]; intros dist ch Hc; cbn [app coerce_search].
  - fold (channel_distance cf c). rewrite channel_distance_nan_l by exact Hc.
    reflexivity.
  - destruct (F32.ltb _ dist); apply IH, Hc.
Qed.

Lemma coerce_search_nan_dist cf rest : forall ch,
  coerce_search cf S754_nan ch rest = (S754_nan, ch).
Proof.
  induction rest as [|c rest IH]; intros ch; cbn [coerce_search];
    [reflexivity|].
  unfold F32.ltb. rewrite SFltb_nan_r. apply IH.
Qed.

(** X15: a NaN among the candidates after the first is never chosen and
    changes nothing: the result is the one of the list without it.  A NaN
    as the first candidate, or a NaN estimate, makes every comparison
    false: the first candidate is kept and the result is NaN. *)
Theorem coerce_frequency_nan (c0 c : float32) (l1 l2 : list float32)
    (center_frequency sample_rate : float32) :
  (F32.is_nan c = true ->
   coerce_frequency (c0 :: l1 ++ c :: l2) center_frequency sample_rate
   = coerce_frequency (c0 :: l1 ++ l2) center_frequency sample_rate)
  /\ (F32.is_nan c0 = true \/ F32.is_nan center_frequency = true ->
      coerce_frequency (c0 :: l1) center_frequency sample_rate = S754_nan).
Proof.
  split.
  - intros Hc. unfold coerce_frequency, nearest_channel.
    rewrite coerce_search_skip_nan by exact Hc. reflexivity.
  - intros H. unfold coerce_frequency, nearest_channel.
    fold (channel_distance center_frequency c0).
    assert (Hd : channel_distance center_frequency c0 = S754_nan).
    { destruct H; [apply channel_distance_nan_l | apply channel_distance_nan_r];
        assumption. }
    rewrite Hd, coerce_search_nan_dist. cbn [snd].
    destruct H as [H|H].
    + destruct c0; try discriminate. reflexivity.
    + destruct center_frequency; try discriminate.
      destruct c0; reflexivity.
Qed.

Lemma coerce_frequency_nan_witness :
  coerce_frequency (F32.one :: [F32.zero] ++ S754_nan :: [F32.two])
    F32.two F32.one
  = coerce_frequency (F32.one :: [F32.zero] ++ [F32.two]) F32.two F32.one.
Proof.
  apply (proj1 (coerce_frequency_nan F32.one S754_nan [F32.zero] [F32.two]
                  F32.two F32.one)).
  reflexivity.
Defined.

(** * More on the message handler *)

Lemma to_double_cases p :
  (exists d, to_double p = Ok d) \/ to_double p = Err pmt_wrong_type.
Proof. destruct p; cbn; eauto. Qed.

Lemma dict_ref_found dict k v not_found :
  dict !! k = Some v -> dict_ref dict k not_found = v.
Proof. unfold dict_ref. intros ->. reflexivity. Qed.

Lemma debug_samples_shape c_log10 c_log10f p mags2 gain nd sr :
  length (debug_samples c_log10 c_log10f p mags2 gain nd sr) = length mags2
  /\ Forall (fun c =>
               snd c
               = F32.of_double
                   (nd + 10 * c_log10 (sr / double_of_Z (fftsize p)))%float)
       (debug_samples c_log10 c_log10f p mags2 gain nd sr).
Proof.
  unfold debug_samples. split; [apply length_map|].
  apply Forall_map_all. reflexivity.
Qed.

Lemma full_metadata_other c_log10f dict bw pwr_db shift cf rf sr nd k :
  k ∉ written_keys ->
  full_metadata c_log10f dict bw pwr_db shift cf rf sr nd !! k = dict !! k.
Proof.
  unfold written_keys. intros Hk.
  assert (k <> PMTCONSTSTR__center_frequency
          /\ k <> PMTCONSTSTR__relative_frequency
          /\ k <> PMTCONSTSTR__bandwidth /\ k <> PMTCONSTSTR__pwr_db
          /\ k <> PMTCONSTSTR__snr_db) as (H1 & H2 & H3 & H4 & H5).
  { repeat split; intros ->; apply Hk; set_solver. }
  unfold full_metadata, metadata_with_bandwidth, dict_add.
  rewrite !lookup_insert_ne by congruence.
  destruct (nonzero _); rewrite ?lookup_insert_ne by congruence; reflexivity.
Qed.

Lemma full_metadata_bandwidth c_log10f dict bw pwr_db shift cf rf sr nd :
  full_metadata c_log10f dict bw pwr_db shift cf rf sr nd
    !! PMTCONSTSTR__bandwidth
  = Some (PMT_DOUBLE (F32.to_double bw)).
Proof.
  unfold full_metadata, metadata_with_bandwidth, dict_add.
  rewrite !lookup_insert_ne by discriminate. apply lookup_insert_eq.
Qed.

Lemma snr_db_of_nan c_log10f pwr_db bw nd :
  is_nan64 nd = true -> snr_db_of c_log10f pwr_db bw nd = nan.
Proof.
  intros Hn. apply is_nan64_eq in Hn. unfold snr_db_of.
  rewrite of_double_nan; [reflexivity|].
  rewrite sub_spec, add_spec, Hn.
  destruct (Prim2SF (F32.to_double pwr_db)); reflexivity.
Qed.

Lemma SFeqb_refl x : F32.is_nan x = false -> SFeqb x x = true.
Proof.
  unfold SFeqb, SFcompare. change (Pos.compare_cont Eq) with Pos.compare.
  destruct x as [s|s| |s m e]; try discriminate; intros _;
    destruct s; try reflexivity;
    rewrite Z.compare_refl, Pos.compare_refl; reflexivity.
Qed.

(** Adding a zero leaves a number as it is, up to the sign of a zero. *)
Lemma add_zero_eqb x z :
  is_nan64 x = false -> is_zero64 z = true -> (x + z =? x)%float = true.
Proof.
  unfold is_nan64, is_zero64. intros Hx Hz.
  rewrite FloatAxioms.eqb_spec, add_spec.
  destruct (Prim2SF z) as [sz|sz| |sz mz ez]; try discriminate.
  destruct (Prim2SF x) as [sx|sx| |sx mx ex] eqn:Ex; try discriminate.
  - destruct sx, sz; reflexivity.
  - destruct sx; reflexivity.
  - cbn [SF64add SFadd]. apply SFeqb_refl. reflexivity.
Qed.

Lemma cf_correction_zero_shift sr :
  F32.is_finite (Prim2SF sr) = true ->
  is_zero64 (cf_correction_hz 0 sr) = true.
Proof.
  intros Hsr. unfold cf_correction_hz, is_zero64, F32.of_double.
  rewrite mul_spec. change (Prim2SF 0) with (S754_zero false).
  destruct (Prim2SF sr) as [s|s| |s m e]; try discriminate;
    destruct s; reflexivity.
Qed.

Lemma primary_shift_other b mags2 freq_axis cf sr :
  d_method b <> RMS -> d_method b <> HALF_POWER ->
  primary_shift b mags2 freq_axis cf sr = Ok 0%float.
Proof.
  intros H1 H2. unfold primary_shift.
  destruct (Z.eqb_spec (d_method b) RMS); [contradiction|].
  destruct (Z.eqb_spec (d_method b) HALF_POWER); [contradiction|].
  reflexivity.
Qed.

Lemma set_method_same b m : d_method b = m -> set_method b m = b.
Proof. intros <-. destruct b. reflexivity. Qed.

Lemma set_method_twice b m m' : set_method (set_method b m) m' = set_method b m'.
Proof. reflexivity. Qed.

Section HandlerMore.
Variable c_pow : double -> double -> double.
Variable c_log10 : double -> double.
Variable c_log10f : float32 -> float32.
Variable c_cexpf : gr_complex -> gr_complex.
Variable fft_execute : Z -> list gr_complex -> list gr_complex.
Variable rotator_rotate : rotator -> gr_complex -> gr_complex * rotator.

Local Abbreviation handler :=
  (pdu_handler c_pow c_log10 c_log10f c_cexpf fft_execute rotator_rotate).

(** What a completed [analyze] holds. *)
Lemma analyze_inv b data cf sr a :
  analyze c_pow fft_execute b data cf sr = Ok a ->
  plan_fft (Z.of_nat (length data)) = Ok (an_plan a)
  /\ vector_at (d_fft_mag2_gains b) (fftpower (an_plan a)) = Ok (an_gain a)
  /\ (exists engine window,
        vector_at (d_ffts b) (fftpower (an_plan a)) = Ok engine
        /\ vector_at (d_windows b) (fftpower (an_plan a)) = Ok window
        /\ an_mags2 a = psd_estimate fft_execute engine window (an_plan a) data)
  /\ an_freq_axis a = frequency_axis (an_plan a) cf sr
  /\ rms_bw c_pow (an_mags2 a) (an_freq_axis a) (F32.of_double cf)
     = Ok (an_bandwidth a).
Proof.
  unfold analyze.
  destruct (plan_fft _) as [p|]; cbn [res_bind]; [|discriminate].
  destruct (vector_at (d_ffts b) _) as [engine|] eqn:He; cbn [res_bind];
    [|discriminate].
  destruct (vector_at (d_windows b) _) as [window|] eqn:Hw; cbn [res_bind];
    [|discriminate].
  destruct (vector_at (d_fft_mag2_gains b) _) as [gain|] eqn:Hg;
    cbn [res_bind]; [|discriminate].
  destruct (rms_bw _ _ _ _) as [bw|] eqn:Hbw; cbn [res_bind]; [|discriminate].
  intros H. injection H as <-. cbn [an_plan an_gain an_mags2 an_freq_axis
                                    an_bandwidth].
  split; [reflexivity|]. split; [exact Hg|]. split; [eauto|].
  split; [reflexivity | exact Hbw].
Qed.

Lemma analyze_shape b data cf sr :
  bank_ready b -> MIN_NFFTS <= Z.of_nat (length data) ->
  exists a,
    analyze c_pow fft_execute b data cf sr = Ok a
    /\ plan_fft (Z.of_nat (length data)) = Ok (an_plan a)
    /\ fftsize (an_plan a) = 2 ^ fftpower (an_plan a)
    /\ 0 <= fftpower (an_plan a) <= MAX_FFT_POWER
    /\ length (an_freq_axis a) = length (an_mags2 a)
    /\ Forall (fun bin => nonneg_or_nan bin = true) (an_mags2 a).
Proof.
  intros Hbank HN.
  destruct (analyze_ok c_pow fft_execute b data cf sr Hbank HN)
    as (a & Ha & Hp & Hlen & Hps).
  destruct (plan_fft_ok _ HN) as [Hfp Hp']. cbv zeta in Hfp, Hp'.
  rewrite Hp in Hp'. injection Hp' as Hpl.
  exists a. split; [exact Ha|]. split; [exact Hp|].
  split; [rewrite Hpl; reflexivity|]. split; [rewrite Hpl; exact Hfp|].
  split; [exact Hlen | exact Hps].
Qed.

Lemma analyze_axis_length b data cf sr a :
  analyze c_pow fft_execute b data cf sr = Ok a ->
  0 <= fftsize (an_plan a) ->
  Z.of_nat (length (an_freq_axis a)) = fftsize (an_plan a).
Proof.
  intros Ha Hsz.
  destruct (analyze_inv _ _ _ _ _ Ha) as (_ & _ & _ & -> & _).
  rewrite frequency_axis_length. apply Z2Nat.id, Hsz.
Qed.

(** X8: on a burst of at least [MIN_NFFTS] samples the analysis completes
    with a PSD and a frequency axis of [fftsize = 2^fftpower] entries
    each, [fftpower] between 0 and [MAX_FFT_POWER]; no bin of the PSD is a
    negative number (each is NaN or not negative, whatever the FFT engine
    computes), and neither is the bandwidth. *)
Theorem analysis_shape (b : cf_estimate_impl) (data : list gr_complex)
    (center_frequency sample_rate : double) :
  bank_ready b -> MIN_NFFTS <= Z.of_nat (length data) ->
  exists a,
    analyze c_pow fft_execute b data center_frequency sample_rate = Ok a
    /\ plan_fft (Z.of_nat (length data)) = Ok (an_plan a)
    /\ fftsize (an_plan a) = 2 ^ fftpower (an_plan a)
    /\ 0 <= fftpower (an_plan a) <= MAX_FFT_POWER
    /\ Z.of_nat (length (an_mags2 a)) = fftsize (an_plan a)
    /\ Z.of_nat (length (an_freq_axis a)) = fftsize (an_plan a)
    /\ Forall (fun bin => nonneg_or_nan bin = true) (an_mags2 a)
    /\ nonneg_or_nan (an_bandwidth a) = true.
Proof.
  intros Hbank HN.
  destruct (analyze_shape b data center_frequency sample_rate Hbank HN)
    as (a & Ha & Hp & Hsz & Hpw & Hlen & Hps).
  assert (Hpos : 0 <= fftsize (an_plan a))
    by (rewrite Hsz; apply Z.pow_nonneg; lia).
  pose proof (analyze_axis_length b data _ _ a Ha Hpos) as Hal.
  destruct (analyze_inv _ _ _ _ _ Ha) as (_ & _ & _ & _ & Hbw).
  destruct (rms_bw_value c_pow _ _ _ _ Hbw) as [top Htop].
  exists a. split; [exact Ha|]. split; [exact Hp|]. split; [exact Hsz|].
  split; [exact Hpw|]. split; [rewrite <- Hlen; exact Hal|].
  split; [exact Hal|]. split; [exact Hps|].
  rewrite Htop. apply of_double_sqrt_sign.
Qed.

(** X16: the handler checks that [center_frequency] and [sample_rate]
    are present, not that the values it converts are numbers: when one of
    [center_frequency], [relative_frequency], [sample_rate] and
    [noise_density] holds a value that [pmt::to_double] rejects, the call
    leaves through the [wrong_type] exception, before the burst is looked
    at and with nothing published. *)
Theorem pdu_handler_wrong_type (b : cf_estimate_impl) (metadata : pmt)
    (dict : gmap string pmt) (data : list gr_complex) (k : string) (v : pmt) :
  as_dict metadata = Some dict ->
  dict_has_key dict PMTCONSTSTR__center_frequency = true ->
  dict_has_key dict PMTCONSTSTR__sample_rate = true ->
  k ∈ numeric_keys ->
  dict !! k = Some v ->
  to_double v = Err pmt_wrong_type ->
  handler b (PMT_PAIR metadata (PMT_C32VECTOR data)) = Err pmt_wrong_type.
Proof.
  intros Hd Hcf Hsr Hk Hv Herr. unfold pdu_handler.
  rewrite Hd, Hcf, Hsr. cbn [negb orb].
  destruct (to_double_cases (dict_ref dict PMTCONSTSTR__center_frequency PMT_NIL))
    as [[cf H1]|H1]; rewrite H1; cbn [res_bind]; [|reflexivity].
  destruct (to_double_cases
              (dict_ref dict PMTCONSTSTR__relative_frequency (PMT_DOUBLE 0)))
    as [[rf H2]|H2]; rewrite H2; cbn [res_bind]; [|reflexivity].
  destruct (to_double_cases (dict_ref dict PMTCONSTSTR__sample_rate PMT_NIL))
    as [[sr H3]|H3]; rewrite H3; cbn [res_bind]; [|reflexivity].
  destruct (to_double_cases
              (dict_ref dict PMTCONSTSTR__noise_density (PMT_DOUBLE nan)))
    as [[nd H4]|H4]; rewrite H4; cbn [res_bind]; [|reflexivity].
  exfalso. unfold numeric_keys in Hk.
  rewrite !elem_of_cons, elem_of_nil in Hk.
  destruct Hk as [->|[->|[->|[->|[]]]]];
    [rewrite (dict_ref_found _ _ _ _ Hv) in H1
    |rewrite (dict_ref_found _ _ _ _ Hv) in H2
    |rewrite (dict_ref_found _ _ _ _ Hv) in H3
    |rewrite (dict_ref_found _ _ _ _ Hv) in H4]; congruence.
Qed.

(** X17: for a valid burst the record on the debug channel is published
    first; it pairs the metadata as received (not the updated ones) with
    exactly [fftsize] samples, and the imaginary part of every sample is
    the same noise floor [noise_density_db + 10 log10(sample_rate /
    fftsize)] rounded to [float]. *)
Theorem debug_record b pdu metadata dict data cf rf sr nd :
  bank_ready b ->
  valid_burst pdu metadata dict data cf rf sr nd ->
  exists p b' dbg out_pdu,
    plan_fft (Z.of_nat (length data)) = Ok p
    /\ handler b pdu
       = Ok (b', [ (PMTCONSTSTR__debug, PMT_PAIR metadata (PMT_C32VECTOR dbg));
                   (PMTCONSTSTR__out, out_pdu) ])
    /\ Z.of_nat (length dbg) = fftsize p
    /\ Forall (fun c =>
                 snd c
                 = F32.of_double
                     (nd + 10 * c_log10 (sr / double_of_Z (fftsize p)))%float)
         dbg.
Proof.
  intros Hbank Hv.
  destruct (pdu_handler_valid c_pow c_log10 c_log10f c_cexpf fft_execute rotator_rotate
              b pdu metadata dict data cf rf sr nd Hbank Hv)
    as (a & shift & pwr_db & Ha & _ & _ & ->).
  destruct Hv as [_ _ HN].
  destruct (analyze_shape b data cf sr Hbank HN)
    as (a' & Ha' & Hp & Hsz & Hpw & Hlen & _).
  rewrite Ha in Ha'. injection Ha' as <-.
  assert (Hpos : 0 <= fftsize (an_plan a))
    by (rewrite Hsz; apply Z.pow_nonneg; lia).
  pose proof (analyze_axis_length b data _ _ a Ha Hpos) as Hal.
  destruct (debug_samples_shape c_log10 c_log10f (an_plan a) (an_mags2 a) (an_gain a)
              nd sr) as [Hl Hall].
  eexists (an_plan a), _, _, _. split; [exact Hp|]. split; [reflexivity|].
  split; [rewrite Hl, <- Hlen; exact Hal | exact Hall].
Qed.

(** X18: for a valid burst the output metadata hold every entry of the
    input metadata under a key other than the five the handler writes,
    unchanged; the [bandwidth] entry is always written, with a value that
    is never a negative number; and when the noise density is NaN (as it
    is when the key is absent) the [snr_db] entry written is NaN. *)
Theorem output_metadata_keys b pdu metadata dict data cf rf sr nd :
  bank_ready b ->
  valid_burst pdu metadata dict data cf rf sr nd ->
  exists b' debug_pdu metadata' out_data bandwidth,
    handler b pdu
    = Ok (b', [ (PMTCONSTSTR__debug, debug_pdu);
                (PMTCONSTSTR__out,
                 PMT_PAIR (PMT_DICT metadata') (PMT_C32VECTOR out_data)) ])
    /\ (forall k, k ∉ written_keys -> metadata' !! k = dict !! k)
    /\ metadata' !! PMTCONSTSTR__bandwidth
       = Some (PMT_DOUBLE (F32.to_double bandwidth))
    /\ nonneg_or_nan bandwidth = true
    /\ (is_nan64 nd = true ->
        metadata' !! PMTCONSTSTR__snr_db = Some (PMT_DOUBLE nan)).
Proof.
  intros Hbank Hv.
  destruct (pdu_handler_valid c_pow c_log10 c_log10f c_cexpf fft_execute rotator_rotate
              b pdu metadata dict data cf rf sr nd Hbank Hv)
    as (a & shift & pwr_db & Ha & _ & _ & ->).
  destruct (analyze_inv _ _ _ _ _ Ha) as (_ & _ & _ & _ & Hbw).
  eexists _, _, _, _, (an_bandwidth a). split; [reflexivity|].
  split; [intros k Hk; apply full_metadata_other, Hk|].
  split; [apply full_metadata_bandwidth|].
  split.
  { destruct (rms_bw_value c_pow _ _ _ _ Hbw) as [top ->].
    apply of_double_sqrt_sign. }
  intros Hn. rewrite full_metadata_snr_db, snr_db_of_nan by exact Hn.
  reflexivity.
Qed.

Lemma correct_burst_frame b shift data :
  let b' := correct_burst c_cexpf rotator_rotate b shift data in
  d_method b' = d_method b /\ d_channel_freqs b' = d_channel_freqs b
  /\ d_ffts b' = d_ffts b /\ d_windows b' = d_windows b
  /\ d_fft_mag2_gains b' = d_fft_mag2_gains b
  /\ length (d_corrected_burst b') = length data.
Proof.
  unfold correct_burst.
  pose proof (rotateN_length rotator_rotate data
                (burst_oscillator c_cexpf b shift)) as Hlen.
  destruct (rotateN rotator_rotate _ data) as [out r'].
  cbn [fst] in Hlen. cbv zeta.
  cbn [d_method d_channel_freqs d_ffts d_windows d_fft_mag2_gains
       d_corrected_burst].
  repeat split.
  rewrite length_app, length_drop, length_resize. lia.
Qed.

(** X19: a call of the handler that returns never touches the method,
    the channel list or the FFT bank.  Either it publishes nothing and
    leaves the whole block as it was, or it publishes the debug record and
    then the corrected record and leaves the burst buffer with exactly as
    many samples as the burst. *)
Theorem handler_frame (b b' : cf_estimate_impl) (pdu : pmt)
    (msgs : list (port * pmt)) :
  handler b pdu = Ok (b', msgs) ->
  d_method b' = d_method b /\ d_channel_freqs b' = d_channel_freqs b
  /\ d_ffts b' = d_ffts b /\ d_windows b' = d_windows b
  /\ d_fft_mag2_gains b' = d_fft_mag2_gains b
  /\ ((msgs = [] /\ b' = b)
      \/ (exists metadata data debug_pdu out_pdu,
            pdu = PMT_PAIR metadata (PMT_C32VECTOR data)
            /\ msgs = [ (PMTCONSTSTR__debug, debug_pdu);
                        (PMTCONSTSTR__out, out_pdu) ]
            /\ length (d_corrected_burst b') = length data)).
Proof.
  unfold pdu_handler, process_burst. intros H.
  repeat match type of H with
    | Ok _ = Ok _ => injection H as <- <-
    | context [match ?x with _ => _ end] => destruct x; try discriminate
    | context [res_bind ?m _] =>
        destruct m; cbn [res_bind] in H; try discriminate
    end;
    try (repeat split; left; auto; fail).
  match goal with |- context [correct_burst _ _ ?b0 ?s ?d] =>
    destruct (correct_burst_frame b0 s d) as (H1 & H2 & H3 & H4 & H5 & H6)
  end.
  cbv zeta in H1, H2, H3, H4, H5, H6.
  repeat split; try assumption.
  right. eexists _, _, _, _. repeat split. exact H6.
Qed.

(** X20: what a call publishes, or the way it fails, depends on the
    block only through the method, the channel list, the FFT bank and the
    rotator's sample counter: the samples a longer earlier burst left in
    the burst buffer, and the phase and increment the rotator was left
    with, never reach the output. *)
Theorem handler_ignores_old_buffer (b1 b2 : cf_estimate_impl) (pdu : pmt) :
  d_method b1 = d_method b2 ->
  d_channel_freqs b1 = d_channel_freqs b2 ->
  d_ffts b1 = d_ffts b2 -> d_windows b1 = d_windows b2 ->
  d_fft_mag2_gains b1 = d_fft_mag2_gains b2 ->
  d_counter (d_rotate b1) = d_counter (d_rotate b2) ->
  published (handler b1 pdu) = published (handler b2 pdu).
Proof.
  intros Hm Hc Hf Hw Hg Hr. unfold pdu_handler.
  destruct pdu as [| | | | |metadata pdu_data]; try reflexivity.
  destruct pdu_data as [| | |data| |]; try reflexivity.
  destruct (as_dict metadata) as [dict|]; [|reflexivity].
  destruct (negb _ || negb _); [reflexivity|].
  destruct (to_double _) as [cf|]; cbn [res_bind]; [|reflexivity].
  destruct (to_double _) as [rf|]; cbn [res_bind]; [|reflexivity].
  destruct (to_double _) as [sr|]; cbn [res_bind]; [|reflexivity].
  destruct (to_double _) as [nd|]; cbn [res_bind]; [|reflexivity].
  unfold process_burst.
  assert (Ha : analyze c_pow fft_execute b1 data cf sr
               = analyze c_pow fft_execute b2 data cf sr)
    by (unfold analyze; rewrite Hf, Hw, Hg; reflexivity).
  rewrite Ha.
  destruct (analyze c_pow fft_execute b2 data cf sr) as [a|]; cbn [res_bind];
    [|reflexivity].
  assert (Hs : estimate_shift b1 a cf sr = estimate_shift b2 a cf sr)
    by (unfold estimate_shift, primary_shift, coerced_shift;
        rewrite Hm, Hc; reflexivity).
  rewrite Hs.
  destruct (estimate_shift b2 a cf sr) as [shift|]; cbn [res_bind];
    [|reflexivity].
  destruct (output_metadata _ _ _ _ _ _ _ _ _ _ _) as [md|]; cbn [res_bind];
    [|reflexivity].
  cbn [published]. rewrite !correct_burst_output.
  unfold burst_oscillator, set_phase, set_phase_incr.
  cbn [d_phase d_phase_incr d_counter]. rewrite Hr. reflexivity.
Qed.

(** X21: with an empty channel list and a method that is neither RMS
    nor HALF_POWER (the coercion-only mode) no correction is applied to a
    valid burst: the shift is 0, the [center_frequency] written compares
    equal to the one received (for a finite sample rate and a center
    frequency that is not NaN), and the burst is rotated with the phase
    increment [exp(gr_complex(0, -0))]. *)
Theorem no_correction_without_channels b pdu metadata dict data cf rf sr nd :
  bank_ready b ->
  valid_burst pdu metadata dict data cf rf sr nd ->
  d_method b <> RMS -> d_method b <> HALF_POWER ->
  d_channel_freqs b = [] ->
  F32.is_finite (Prim2SF sr) = true ->
  is_nan64 cf = false ->
  exists a b' debug_pdu metadata' out_data cf',
    analyze c_pow fft_execute b data cf sr = Ok a
    /\ estimate_shift b a cf sr = Ok 0%float
    /\ handler b pdu
       = Ok (b', [ (PMTCONSTSTR__debug, debug_pdu);
                   (PMTCONSTSTR__out,
                    PMT_PAIR (PMT_DICT metadata') (PMT_C32VECTOR out_data)) ])
    /\ metadata' !! PMTCONSTSTR__center_frequency = Some (PMT_DOUBLE cf')
    /\ (cf' =? cf)%float = true
    /\ out_data
       = fst (rotateN rotator_rotate (burst_oscillator c_cexpf b 0) data)
    /\ phase_increment c_cexpf 0 = c_cexpf (F32.zero, S754_zero true).
Proof.
  intros Hbank Hv Hm1 Hm2 Hfreqs Hsr Hcf.
  destruct (pdu_handler_valid c_pow c_log10 c_log10f c_cexpf fft_execute rotator_rotate
              b pdu metadata dict data cf rf sr nd Hbank Hv)
    as (a & shift & pwr_db & Ha & Hs & _ & ->).
  assert (Hshift : shift = 0%float).
  { unfold estimate_shift in Hs.
    rewrite primary_shift_other in Hs by assumption.
    cbn [res_bind] in Hs. injection Hs as <-.
    unfold coerced_shift. rewrite Hfreqs. reflexivity. }
  subst shift.
  eexists a, _, _, _, _, _. split; [exact Ha|]. split; [exact Hs|].
  split; [reflexivity|].
  split; [apply full_metadata_center_frequency|].
  split; [apply add_zero_eqb; [exact Hcf | apply cf_correction_zero_shift, Hsr]|].
  split; reflexivity.
Qed.

Lemma correct_burst_set_method b m shift data :
  correct_burst c_cexpf rotator_rotate (set_method b m) shift data
  = set_method (correct_burst c_cexpf rotator_rotate b shift data) m.
Proof.
  unfold correct_burst, burst_oscillator. cbn [set_method d_rotate
    d_corrected_burst d_method d_channel_freqs d_ffts d_windows
    d_fft_mag2_gains].
  destruct (rotateN rotator_rotate _ data) as [out r']. reflexivity.
Qed.

Lemma process_burst_other_method b metadata dict data cf rf sr nd :
  d_method b <> RMS -> d_method b <> HALF_POWER ->
  process_burst c_pow c_log10 c_log10f c_cexpf fft_execute rotator_rotate b metadata
    dict data cf rf sr nd
  = match process_burst c_pow c_log10 c_log10f c_cexpf fft_execute rotator_rotate
            (set_method b COERCE) metadata dict data cf rf sr nd with
    | Ok (b', msgs) => Ok (set_method b' (d_method b), msgs)
    | Err e => Err e
    end.
Proof.
  intros H1 H2. unfold process_burst.
  change (analyze c_pow fft_execute (set_method b COERCE) data cf sr)
    with (analyze c_pow fft_execute b data cf sr).
  destruct (analyze c_pow fft_execute b data cf sr) as [a|]; cbn [res_bind];
    [|reflexivity].
  unfold estimate_shift.
  rewrite (primary_shift_other b) by assumption.
  rewrite (primary_shift_other (set_method b COERCE)) by discriminate.
  cbn [res_bind].
  change (coerced_shift (set_method b COERCE) 0 cf sr)
    with (coerced_shift b 0 cf sr).
  destruct (output_metadata _ _ _ _ _ _ _ _ _ _ _) as [md|]; cbn [res_bind];
    [|reflexivity].
  rewrite correct_burst_set_method, set_method_twice.
  rewrite set_method_same by apply (correct_burst_frame b _ data).
  reflexivity.
Qed.

(** X22: a method value other than RMS and HALF_POWER, whatever it is,
    makes the handler behave as in the coercion-only mode: it publishes
    what it would publish after [set_method(COERCE)], fails where that
    would fail, and leaves the same block apart from the stored method. *)
Theorem other_methods_coerce_only (b : cf_estimate_impl) (pdu : pmt) :
  d_method b <> RMS -> d_method b <> HALF_POWER ->
  handler b pdu
  = match handler (set_method b COERCE) pdu with
    | Ok (b', msgs) => Ok (set_method b' (d_method b), msgs)
    | Err e => Err e
    end.
Proof.
  intros H1 H2. unfold pdu_handler.
  destruct pdu as [| | | | |metadata pdu_data];
    try (rewrite set_method_twice, set_method_same by reflexivity; reflexivity).
  destruct pdu_data as [| | |data| |];
    try (rewrite set_method_twice, set_method_same by reflexivity; reflexivity).
  destruct (as_dict metadata) as [dict|];
    [|rewrite set_method_twice, set_method_same by reflexivity; reflexivity].
  destruct (negb _ || negb _);
    [rewrite set_method_twice, set_method_same by reflexivity; reflexivity|].
  destruct (to_double _) as [cf|]; cbn [res_bind]; [|reflexivity].
  destruct (to_double _) as [rf|]; cbn [res_bind]; [|reflexivity].
  destruct (to_double _) as [sr|]; cbn [res_bind]; [|reflexivity].
  destruct (to_double _) as [nd|]; cbn [res_bind]; [|reflexivity].
  apply process_burst_other_method; assumption.
Qed.

(** X23: in the HALF_POWER mode the shift estimated from a burst of at
    least [MIN_NFFTS] samples always lies in [-0.5, 0.5), as the
    handler's comment says, whatever the FFT engine computes. *)
Theorem half_power_mode_range (b : cf_estimate_impl)
    (data : list gr_complex) (center_frequency sample_rate : double) :
  bank_ready b -> MIN_NFFTS <= Z.of_nat (length data) ->
  d_method b = HALF_POWER ->
  exists a shift,
    analyze c_pow fft_execute b data center_frequency sample_rate = Ok a
    /\ half_power (an_mags2 a) = Ok shift
    /\ primary_shift b (an_mags2 a) (an_freq_axis a) center_frequency
         sample_rate = Ok (F32.to_double shift)
    /\ in_range32 minus_half32 plus_half32 shift = true
    /\ SFltb shift plus_half32 = true.
Proof.
  intros Hbank HN Hm.
  destruct (analyze_shape b data center_frequency sample_rate Hbank HN)
    as (a & Ha & _ & Hsz & Hpw & Hlen & Hps).
  assert (Hpos : 0 <= fftsize (an_plan a))
    by (rewrite Hsz; apply Z.pow_nonneg; lia).
  pose proof (analyze_axis_length b data _ _ a Ha Hpos) as Hal.
  rewrite Hlen in Hal.
  destruct (half_power_ok (an_mags2 a) Hps) as [shift Hshift].
  exists a, shift. split; [exact Ha|]. split; [exact Hshift|].
  split.
  - unfold primary_shift. rewrite Hm. cbn [Z.eqb HALF_POWER RMS].
    rewrite Hshift. reflexivity.
  - apply (half_power_offsets_checked (an_mags2 a) shift
             (fftpower (an_plan a)));
      [exact Hpw | rewrite Hal; exact Hsz | exact Hshift].
Qed.
End HandlerMore.

Lemma analysis_shape_witness :
  exists a,
    analyze sample_pow sample_fft sample_block sample_data 915000000 1000000
    = Ok a
    /\ Z.of_nat (length (an_mags2 a)) = fftsize (an_plan a).
Proof.
  destruct (analysis_shape sample_pow sample_fft sample_block sample_data
              915000000 1000000) as (a & Ha & _ & _ & _ & Hlen & _).
  - unfold bank_ready. vm_compute. lia.
  - vm_compute. discriminate.
  - exists a. split; [exact Ha | exact Hlen].
Defined.

Lemma pdu_handler_wrong_type_witness :
  sample_handler small_block
    (PMT_PAIR
       (PMT_DICT (dict_add sample_dict PMTCONSTSTR__noise_density
                    (PMT_SYMBOL "unknown")))
       (PMT_C32VECTOR sample_data))
  = Err pmt_wrong_type.
Proof.
  apply (pdu_handler_wrong_type sample_pow sample_log10 sample_log10f sample_cexpf sample_fft
           sample_rotate small_block _
           (dict_add sample_dict PMTCONSTSTR__noise_density
              (PMT_SYMBOL "unknown"))
           sample_data PMTCONSTSTR__noise_density (PMT_SYMBOL "unknown")).
  - reflexivity.
  - reflexivity.
  - reflexivity.
  - unfold numeric_keys. do 3 apply list_elem_of_further.
    apply list_elem_of_here.
  - reflexivity.
  - reflexivity.
Defined.

Lemma debug_record_witness :
  exists p b' dbg out_pdu,
    plan_fft (Z.of_nat (length sample_data)) = Ok p
    /\ sample_handler sample_block sample_pdu
       = Ok (b', [ (PMTCONSTSTR__debug,
                    PMT_PAIR (PMT_DICT sample_dict) (PMT_C32VECTOR dbg));
                   (PMTCONSTSTR__out, out_pdu) ])
    /\ Z.of_nat (length dbg) = fftsize p.
Proof.
  destruct (debug_record sample_pow sample_log10 sample_log10f sample_cexpf sample_fft
              sample_rotate sample_block sample_pdu (PMT_DICT sample_dict)
              sample_dict sample_data 915000000 0 1000000 nan)
    as (p & b' & dbg & out_pdu & Hp & Hh & Hlen & _).
  - unfold bank_ready. vm_compute. lia.
  - constructor; [reflexivity | constructor; reflexivity |].
    vm_compute. discriminate.
  - exists p, b', dbg, out_pdu. split; [exact Hp|].
    split; [exact Hh | exact Hlen].
Defined.

Lemma output_metadata_keys_witness :
  exists b' debug_pdu metadata' out_data,
    sample_handler sample_block sample_pdu
    = Ok (b', [ (PMTCONSTSTR__debug, debug_pdu);
                (PMTCONSTSTR__out,
                 PMT_PAIR (PMT_DICT metadata') (PMT_C32VECTOR out_data)) ])
    /\ metadata' !! PMTCONSTSTR__sample_rate
       = sample_dict !! PMTCONSTSTR__sample_rate
    /\ metadata' !! PMTCONSTSTR__snr_db = Some (PMT_DOUBLE nan).
Proof.
  destruct (output_metadata_keys sample_pow sample_log10 sample_log10f sample_cexpf
              sample_fft sample_rotate sample_block sample_pdu
              (PMT_DICT sample_dict) sample_dict sample_data
              915000000 0 1000000 nan)
    as (b' & debug_pdu & metadata' & out_data & bw & Hh & Hk & _ & _ & Hsnr).
  - unfold bank_ready. vm_compute. lia.
  - constructor; [reflexivity | constructor; reflexivity |].
    vm_compute. discriminate.
  - exists b', debug_pdu, metadata', out_data. split; [exact Hh|].
    split; [|apply Hsnr; reflexivity].
    apply Hk. unfold written_keys. rewrite !not_elem_of_cons.
    repeat split; try discriminate. apply not_elem_of_nil.
Defined.

Lemma handler_frame_witness :
  exists b' msgs,
    sample_handler small_block sample_pdu = Ok (b', msgs)
    /\ d_ffts b' = d_ffts small_block
    /\ length msgs = 2%nat.
Proof.
  eexists _, _. split; [vm_compute; reflexivity|].
  match goal with |- d_ffts ?b' = _ /\ length ?msgs = _ =>
    destruct (handler_frame sample_pow sample_log10 sample_log10f sample_cexpf sample_fft
                sample_rotate small_block b' sample_pdu msgs)
      as (_ & _ & Hf & _)
  end.
  - vm_compute. reflexivity.
  - split; [exact Hf | reflexivity].
Defined.

Lemma handler_ignores_old_buffer_witness :
  published (sample_handler small_block sample_pdu)
  = published (sample_handler used_block sample_pdu).
Proof.
  apply (handler_ignores_old_buffer sample_pow sample_log10 sample_log10f sample_cexpf
           sample_fft sample_rotate small_block used_block sample_pdu);
    reflexivity.
Defined.

Lemma no_correction_without_channels_witness :
  exists a,
    analyze sample_pow sample_fft (make sample_expf COERCE []) sample_data
      915000000 1000000 = Ok a
    /\ estimate_shift (make sample_expf COERCE []) a 915000000 1000000
       = Ok 0%float.
Proof.
  destruct (no_correction_without_channels sample_pow sample_log10
              sample_log10f sample_cexpf sample_fft sample_rotate
              (make sample_expf COERCE []) sample_pdu (PMT_DICT sample_dict)
              sample_dict sample_data 915000000 0 1000000 nan)
    as (a & _ & _ & _ & _ & _ & Ha & Hs & _).
  - unfold bank_ready. vm_compute. lia.
  - constructor; [reflexivity | constructor; reflexivity |].
    vm_compute. discriminate.
  - vm_compute. discriminate.
  - vm_compute. discriminate.
  - vm_compute. reflexivity.
  - vm_compute. reflexivity.
  - vm_compute. reflexivity.
  - exists a. split; [exact Ha | exact Hs].
Defined.

Lemma other_methods_coerce_only_witness :
  sample_handler (set_method small_block 7) sample_pdu
  = match sample_handler (set_method (set_method small_block 7) COERCE)
            sample_pdu with
    | Ok (b', msgs) =>
        Ok (set_method b' (d_method (set_method small_block 7)), msgs)
    | Err e => Err e
    end.
Proof.
  apply (other_methods_coerce_only sample_pow sample_log10 sample_log10f sample_cexpf
           sample_fft sample_rotate (set_method small_block 7) sample_pdu);
    vm_compute; discriminate.
Defined.

Lemma half_power_mode_range_witness :
  exists a shift,
    analyze sample_pow sample_fft (make sample_expf HALF_POWER []) sample_data
      915000000 1000000 = Ok a
    /\ half_power (an_mags2 a) = Ok shift
    /\ in_range32 minus_half32 plus_half32 shift = true.
Proof.
  destruct (half_power_mode_range sample_pow sample_fft
              (make sample_expf HALF_POWER []) sample_data 915000000 1000000)
    as (a & shift & Ha & Hs & _ & Hr & _).
  - unfold bank_ready. vm_compute. lia.
  - vm_compute. discriminate.
  - vm_compute. reflexivity.
  - exists a, shift. split; [exact Ha|]. split; [exact Hs | exact Hr].
Defined.

(** * Failures and settings *)

Section Completion.
Variable c_pow : double -> double -> double.
Variable c_log10 : double -> double.
Variable c_log10f : float32 -> float32.
Variable c_cexpf : gr_complex -> gr_complex.
Variable fft_execute : Z -> list gr_complex -> list gr_complex.
Variable rotator_rotate : rotator -> gr_complex -> gr_complex * rotator.

Local Abbreviation handler :=
  (pdu_handler c_pow c_log10 c_log10f c_cexpf fft_execute rotator_rotate).

Lemma analyze_ready b data cf sr a :
  analyze c_pow fft_execute b data cf sr = Ok a ->
  length (an_freq_axis a) = length (an_mags2 a)
  /\ Forall (fun bin => nonneg_or_nan bin = true) (an_mags2 a).
Proof.
  intros Ha.
  destruct (analyze_inv c_pow fft_execute _ _ _ _ _ Ha)
    as (_ & _ & (engine & window & _ & _ & ->) & -> & _).
  destruct (psd_estimate_invariant fft_execute engine window (an_plan a) data)
    as [Hlen Hps].
  split; [rewrite frequency_axis_length, Hlen; reflexivity | exact Hps].
Qed.

Lemma process_burst_ok b metadata dict data cf rf sr nd a :
  analyze c_pow fft_execute b data cf sr = Ok a ->
  exists shift metadata',
    estimate_shift b a cf sr = Ok shift
    /\ process_burst c_pow c_log10 c_log10f c_cexpf fft_execute rotator_rotate b
         metadata dict data cf rf sr nd
       = Ok (correct_burst c_cexpf rotator_rotate b shift data,
             [ (PMTCONSTSTR__debug,
                PMT_PAIR metadata
                  (PMT_C32VECTOR
                     (debug_samples c_log10 c_log10f (an_plan a) (an_mags2 a)
                        (an_gain a) nd sr)));
               (PMTCONSTSTR__out,
                PMT_PAIR (PMT_DICT metadata')
                  (PMT_C32VECTOR
                     (fst (rotateN rotator_rotate
                             (burst_oscillator c_cexpf b shift) data)))) ]).
Proof.
  intros Ha. destruct (analyze_ready _ _ _ _ _ Ha) as [Hlen Hps].
  destruct (primary_shift_ok b (an_mags2 a) (an_freq_axis a) cf sr Hlen Hps)
    as [shift0 Hshift0].
  destruct (output_metadata_always_snr c_log10 c_log10f dict (an_mags2 a)
              (an_freq_axis a) (an_gain a) (an_bandwidth a)
              (coerced_shift b shift0 cf sr) cf rf sr nd Hlen)
    as (pwr_db & _ & Hmeta).
  eexists _, _. split.
  - unfold estimate_shift. rewrite Hshift0. reflexivity.
  - unfold process_burst, estimate_shift. rewrite Ha. cbn [res_bind].
    rewrite Hshift0. cbn [res_bind]. rewrite Hmeta. cbn [res_bind].
    rewrite correct_burst_output. reflexivity.
Qed.

(** X24: nothing can fail between the two publications: once the
    analysis of a burst has succeeded (the debug record is published right
    after it), the shift estimate, the correction and the output metadata
    always complete, whatever the method, and the corrected record
    follows the debug record. *)
Theorem no_failure_after_analysis (b : cf_estimate_impl) (metadata : pmt)
    (dict : gmap string pmt) (data : list gr_complex)
    (cf rf sr nd : double) (a : analysis) :
  analyze c_pow fft_execute b data cf sr = Ok a ->
  exists b' dbg out_pdu,
    process_burst c_pow c_log10 c_log10f c_cexpf fft_execute rotator_rotate b
      metadata dict data cf rf sr nd
    = Ok (b', [ (PMTCONSTSTR__debug, PMT_PAIR metadata (PMT_C32VECTOR dbg));
                (PMTCONSTSTR__out, out_pdu) ]).
Proof.
  intros Ha.
  destruct (process_burst_ok b metadata dict data cf rf sr nd a Ha)
    as (shift & md & _ & Hp).
  eexists _, _, _. exact Hp.
Qed.

(** X25: with the bank the constructor builds, a call of the handler
    can fail in two ways only: through [wrong_type], on a metadata value
    that is not a number, or by undefined behaviour on a burst of fewer
    than [MIN_NFFTS] samples.  Every other input is dropped or processed
    to the end. *)
Theorem handler_failures (b : cf_estimate_impl) (pdu : pmt) (e : error) :
  bank_ready b ->
  handler b pdu = Err e ->
  e = pmt_wrong_type
  \/ (e = undefined_behaviour
      /\ exists metadata data,
           pdu = PMT_PAIR metadata (PMT_C32VECTOR data)
           /\ Z.of_nat (length data) < MIN_NFFTS).
Proof.
  intros Hbank. unfold pdu_handler.
  destruct pdu as [| | | | |metadata pdu_data]; try discriminate.
  destruct pdu_data as [| | |data| |]; try discriminate.
  destruct (as_dict metadata) as [dict|]; [|discriminate].
  destruct (negb _ || negb _); [discriminate|].
  destruct (to_double_cases (dict_ref dict PMTCONSTSTR__center_frequency PMT_NIL))
    as [[cf ->]| ->]; cbn [res_bind]; [|intros H; injection H as <-; auto].
  destruct (to_double_cases
              (dict_ref dict PMTCONSTSTR__relative_frequency (PMT_DOUBLE 0)))
    as [[rf ->]| ->]; cbn [res_bind]; [|intros H; injection H as <-; auto].
  destruct (to_double_cases (dict_ref dict PMTCONSTSTR__sample_rate PMT_NIL))
    as [[sr ->]| ->]; cbn [res_bind]; [|intros H; injection H as <-; auto].
  destruct (to_double_cases
              (dict_ref dict PMTCONSTSTR__noise_density (PMT_DOUBLE nan)))
    as [[nd ->]| ->]; cbn [res_bind]; [|intros H; injection H as <-; auto].
  destruct (Z_lt_ge_dec (Z.of_nat (length data)) MIN_NFFTS) as [Hshort|Hlong].
  - unfold process_burst, analyze.
    rewrite plan_fft_short by lia. cbn [res_bind].
    intros H. injection H as <-. right. split; [reflexivity|]. eauto.
  - destruct (analyze_ok c_pow fft_execute b data cf sr Hbank ltac:(lia))
      as (a & Ha & _).
    destruct (process_burst_ok b metadata dict data cf rf sr nd a Ha)
      as (shift & md & _ & ->). discriminate.
Qed.

(** X26: [set_freqs] and [set_method] change neither whether a call of
    the handler returns nor the debug record it publishes: the analysis
    (PSD, frequency axis, bandwidth) does not look at the channel list or
    at the method. *)
Theorem settings_leave_debug_record (b : cf_estimate_impl) (pdu : pmt)
    (method : Z) (channel_freqs : list float32) :
  debug_published (handler (set_method (set_freqs b channel_freqs) method) pdu)
  = debug_published (handler b pdu).
Proof.
  unfold pdu_handler.
  destruct pdu as [| | | | |metadata pdu_data]; try reflexivity.
  destruct pdu_data as [| | |data| |]; try reflexivity.
  destruct (as_dict metadata) as [dict|]; [|reflexivity].
  destruct (negb _ || negb _); [reflexivity|].
  destruct (to_double _) as [cf|]; cbn [res_bind]; [|reflexivity].
  destruct (to_double _) as [rf|]; cbn [res_bind]; [|reflexivity].
  destruct (to_double _) as [sr|]; cbn [res_bind]; [|reflexivity].
  destruct (to_double _) as [nd|]; cbn [res_bind]; [|reflexivity].
  set (b2 := set_method (set_freqs b channel_freqs) method).
  assert (Hab : analyze c_pow fft_execute b2 data cf sr
                = analyze c_pow fft_execute b data cf sr) by reflexivity.
  destruct (analyze c_pow fft_execute b data cf sr) as [a|e] eqn:Ha.
  - destruct (process_burst_ok b metadata dict data cf rf sr nd a Ha)
      as (s1 & md1 & _ & ->).
    destruct (process_burst_ok b2 metadata dict data cf rf sr nd a Hab)
      as (s2 & md2 & _ & ->).
    reflexivity.
  - unfold process_burst. rewrite Hab, Ha. reflexivity.
Qed.
End Completion.

Lemma no_failure_after_analysis_witness :
  exists b' dbg out_pdu,
    process_burst sample_pow sample_log10 sample_log10f sample_cexpf sample_fft sample_rotate
      small_block (PMT_DICT sample_dict) sample_dict sample_data
      915000000 0 1000000 nan
    = Ok (b', [ (PMTCONSTSTR__debug,
                 PMT_PAIR (PMT_DICT sample_dict) (PMT_C32VECTOR dbg));
                (PMTCONSTSTR__out, out_pdu) ]).
Proof.
  refine (no_failure_after_analysis sample_pow sample_log10 sample_log10f sample_cexpf
            sample_fft sample_rotate small_block (PMT_DICT sample_dict)
            sample_dict sample_data 915000000 0 1000000 nan _ _).
  vm_compute. reflexivity.
Defined.

Lemma handler_failures_witness :
  undefined_behaviour = pmt_wrong_type
  \/ (undefined_behaviour = undefined_behaviour
      /\ exists metadata data,
           PMT_PAIR (PMT_DICT sample_dict) (PMT_C32VECTOR [])
           = PMT_PAIR metadata (PMT_C32VECTOR data)
           /\ Z.of_nat (length data) < MIN_NFFTS).
Proof.
  apply (handler_failures sample_pow sample_log10 sample_log10f sample_cexpf sample_fft
           sample_rotate sample_block
           (PMT_PAIR (PMT_DICT sample_dict) (PMT_C32VECTOR []))
           undefined_behaviour).
  - unfold bank_ready. vm_compute. lia.
  - vm_compute. reflexivity.
Defined.

(** * A sequence of PDUs *)

Section StreamFacts.
Variable c_pow : double -> double -> double.
Variable c_log10 : double -> double.
Variable c_log10f : float32 -> float32.
Variable c_cexpf : gr_complex -> gr_complex.
Variable fft_execute : Z -> list gr_complex -> list gr_complex.
Variable rotator_rotate : rotator -> gr_complex -> gr_complex * rotator.

Local Abbreviation handler :=
  (pdu_handler c_pow c_log10 c_log10f c_cexpf fft_execute rotator_rotate).
Local Abbreviation run :=
  (handle_all c_pow c_log10 c_log10f c_cexpf fft_execute rotator_rotate).

Lemma handle_one b pdu :
  bank_ready b -> malformed pdu \/ accepted pdu ->
  exists b' msgs,
    handler b pdu = Ok (b', msgs) /\ bank_ready b'
    /\ (malformed pdu -> msgs = [] /\ b' = b)
    /\ (accepted pdu ->
        map fst msgs = [PMTCONSTSTR__debug; PMTCONSTSTR__out]).
Proof.
  intros Hbank [Hm|Ha].
  - exists b, []. rewrite (pdu_handler_malformed _ _ _ _ _ _ b pdu Hm).
    split; [reflexivity|]. split; [exact Hbank|]. split; [auto|].
    intros (md & dict & data & cf & rf & sr & nd & [-> [Hd Hcf Hsr _ _] _]).
    cbn in Hm. destruct Hm as [Hm|Hm]; [discriminate|].
    rewrite Hd in Hm. destruct Hm as [Hm|Hm]; congruence.
  - pose proof Ha as (md & dict & data & cf & rf & sr & nd & Hv).
    destruct (pdu_handler_valid c_pow c_log10 c_log10f c_cexpf fft_execute
                rotator_rotate b pdu md dict data cf rf sr nd Hbank Hv)
      as (a & shift & pwr_db & _ & _ & _ & Hh).
    eexists _, _. split; [exact Hh|].
    split; [apply bank_ready_correct_burst, Hbank|].
    split; [|reflexivity].
    intros Hm. exfalso.
    destruct Hv as [-> [Hd Hcf Hsr _ _] _].
    cbn in Hm. destruct Hm as [Hm|Hm]; [discriminate|].
    rewrite Hd in Hm. destruct Hm as [Hm|Hm]; congruence.
Qed.

(** X27: the block keeps going: on any sequence of PDUs each of which is
    malformed or a valid burst, every call of the handler returns and
    leaves the bank ready for the next; the debug and the corrected
    channel receive the same number of records, at most one each per PDU;
    valid bursts alone yield the records debug, corrected, debug,
    corrected, ... in that order, and malformed PDUs alone yield nothing
    and leave the block as it was. *)
Theorem stream_is_processed (b : cf_estimate_impl) (pdus : list pmt) :
  bank_ready b ->
  Forall (fun pdu => malformed pdu \/ accepted pdu) pdus ->
  exists b' msgs,
    run b pdus = Ok (b', msgs)
    /\ bank_ready b'
    /\ length (published_on PMTCONSTSTR__debug msgs)
       = length (published_on PMTCONSTSTR__out msgs)
    /\ (length msgs <= 2 * length pdus)%nat
    /\ (Forall accepted pdus ->
        map fst msgs
        = flat_map (fun _ => [PMTCONSTSTR__debug; PMTCONSTSTR__out]) pdus)
    /\ (Forall malformed pdus -> msgs = [] /\ b' = b).
Proof.
  intros Hbank Hall. revert b Hbank.
  induction Hall as [|pdu pdus Hpdu Hall IH]; intros b Hbank.
  - exists b, []. cbn [handle_all]. split; [reflexivity|].
    split; [exact Hbank|]. split; [reflexivity|]. split; [cbn; lia|].
    split; [reflexivity | auto].
  - destruct (handle_one b pdu Hbank Hpdu) as (b1 & m1 & Hh & Hb1 & Hmal & Hacc).
    destruct (IH b1 Hb1) as (b2 & m2 & Hr & Hb2 & Heq & Hle & Hacc2 & Hmal2).
    exists b2, (m1 ++ m2). cbn [handle_all]. rewrite Hh. cbn [res_bind fst snd].
    rewrite Hr. cbn [res_bind fst snd].
    split; [reflexivity|]. split; [exact Hb2|].
    assert (Hm1 : m1 = [] \/ map fst m1 = [PMTCONSTSTR__debug; PMTCONSTSTR__out]).
    { destruct Hpdu as [Hm|Ha]; [left; apply Hmal, Hm | right; apply Hacc, Ha]. }
    assert (Hcount : length (published_on PMTCONSTSTR__debug m1)
                     = length (published_on PMTCONSTSTR__out m1)
                     /\ (length m1 <= 2)%nat).
    { destruct Hm1 as [->|Hm1]; [split; [reflexivity | cbn; lia]|].
      destruct m1 as [|[p1 x1] [|[p2 x2] [|? ?]]]; try discriminate.
      cbn in Hm1. injection Hm1 as -> ->. split; [reflexivity | cbn; lia]. }
    destruct Hcount as [Hc1 Hc2].
    split.
    { unfold published_on in *. rewrite !filter_app, !map_app, !length_app.
      lia. }
    split; [rewrite length_app; cbn [length]; lia|].
    split.
    + intros Hf. inversion Hf as [|? ? Ha Hf']; subst.
      rewrite map_app, (Hacc Ha), (Hacc2 Hf'). reflexivity.
    + intros Hf. inversion Hf as [|? ? Hm Hf']; subst.
      destruct (Hmal Hm) as [-> ->]. destruct (Hmal2 Hf') as [-> ->].
      split; reflexivity.
Qed.
End StreamFacts.

Lemma stream_is_processed_witness :
  exists b' msgs,
    handle_all sample_pow sample_log10 sample_log10f sample_cexpf sample_fft sample_rotate
      sample_block [PMT_NIL; sample_pdu] = Ok (b', msgs)
    /\ bank_ready b'
    /\ length (published_on PMTCONSTSTR__debug msgs)
       = length (published_on PMTCONSTSTR__out msgs).
Proof.
  destruct (stream_is_processed sample_pow sample_log10 sample_log10f sample_cexpf sample_fft
              sample_rotate sample_block [PMT_NIL; sample_pdu])
    as (b' & msgs & Hr & Hb & Heq & _).
  - unfold bank_ready. vm_compute. lia.
  - constructor; [left; exact I|]. constructor; [|constructor].
    right. exists (PMT_DICT sample_dict), sample_dict, sample_data,
      915000000%float, 0%float, 1000000%float, nan.
    constructor; [reflexivity | constructor; reflexivity |].
    vm_compute. discriminate.
  - exists b', msgs. split; [exact Hr|]. split; [exact Hb | exact Heq].
Defined.
